(** * Pagination and export engine of the administrative system

    A shallow embedding of the page-count, slicing and export code of
    [js/templates.js] (class [ExportSystem]) and of the layout measurer, page
    estimator and content formatter of the application classes, together with
    the properties of the pagination specification they satisfy.

    The later parts embed the code around it: the batch documents and their
    log, the filters of the lists, the count of the days of a request, the
    personal codes, the codes of the comunicados, the session tokens, the
    reminders and the templates of requests.

    Numbers are JavaScript numbers: the finite values and the special values
    [Infinity], [-Infinity] and [NaN].  In [JsNum] the arithmetic on the
    finite values is exact; [ExportPdf], [Measurer] and [Estimator] are
    written with it and carry the properties that do not depend on the
    rounding: which pages there are, what is drawn on them, in which order,
    and how the page counts of two documents compare.  In
    [Binary64] every operation is rounded to the nearest double, as the code
    computes; [ExportPdf64] and [Measurer64] are the same functions with this
    arithmetic and carry the properties of the numbers: the page count, the
    ends of the slices and the scale factor.  The sign of zero is not
    modelled. *)

From Stdlib Require Import ZArith QArith Qround Qminmax Qabs Qpower List Bool String Ascii Lia Lqa.
From Stdlib Require Import DecimalString DecimalPos DecimalNat DecimalZ.
From Stdlib Require PrimFloat FloatOps SpecFloat Uint63.
Import ListNotations.

Set Implicit Arguments.

(** ** JavaScript numbers *)

Module JsNum.

(** A number is finite or one of the three special values.  [jsnum] carries
    arbitrary finite values, [jsint] the results of [Math.ceil]. *)
Inductive ext (A : Type) : Type :=
| Fin (a : A)
| PInf
| NInf
| NaN.

Arguments PInf {A}.
Arguments NInf {A}.
Arguments NaN {A}.

Definition jsnum := ext Q.
Definition jsint := ext Z.

Definition of_Z (z : Z) : jsnum := Fin (inject_Z z).
Definition of_N (n : N) : jsnum := of_Z (Z.of_N n).

Definition Qis_zero (a : Q) : bool := Qeq_bool a 0.
Definition Qis_neg (a : Q) : bool := negb (Qle_bool 0 a).

(** [a + b] *)
Definition jadd (x y : jsnum) : jsnum :=
  match x, y with
  | NaN, _ | _, NaN => NaN
  | Fin a, Fin b => Fin (a + b)
  | PInf, NInf | NInf, PInf => NaN
  | PInf, _ | _, PInf => PInf
  | NInf, _ | _, NInf => NInf
  end.

Definition jneg (x : jsnum) : jsnum :=
  match x with
  | Fin a => Fin (- a)
  | PInf => NInf
  | NInf => PInf
  | NaN => NaN
  end.

(** [a - b] *)
Definition jsub (x y : jsnum) : jsnum := jadd x (jneg y).

(** An infinity of the sign of [a], [NaN] when [a] is zero. *)
Definition inf_of_sign (a : Q) (flip : bool) : jsnum :=
  if Qis_zero a then NaN
  else if xorb (Qis_neg a) flip then NInf else PInf.

(** [a * b] *)
Definition jmul (x y : jsnum) : jsnum :=
  match x, y with
  | NaN, _ | _, NaN => NaN
  | Fin a, Fin b => Fin (a * b)
  | Fin a, PInf | PInf, Fin a => inf_of_sign a false
  | Fin a, NInf | NInf, Fin a => inf_of_sign a true
  | PInf, PInf | NInf, NInf => PInf
  | PInf, NInf | NInf, PInf => NInf
  end.

(** [a / b]; a zero divisor is the positive zero, which is what a
    subtraction or a pixel size of zero evaluates to. *)
Definition jdiv (x y : jsnum) : jsnum :=
  match x, y with
  | NaN, _ | _, NaN => NaN
  | Fin a, Fin b =>
      if Qis_zero b then inf_of_sign a false else Fin (a / b)
  | Fin _, (PInf | NInf) => Fin 0
  | PInf, Fin b => if Qis_neg b then NInf else PInf
  | NInf, Fin b => if Qis_neg b then PInf else NInf
  | (PInf | NInf), (PInf | NInf) => NaN
  end.

(** [Math.min(a, b)] *)
Definition jmin (x y : jsnum) : jsnum :=
  match x, y with
  | NaN, _ | _, NaN => NaN
  | NInf, _ | _, NInf => NInf
  | PInf, z | z, PInf => z
  | Fin a, Fin b => if Qle_bool a b then Fin a else Fin b
  end.

(** [a > b]; every comparison with [NaN] is false. *)
Definition jgt (x y : jsnum) : bool :=
  match x, y with
  | NaN, _ | _, NaN => false
  | Fin a, Fin b => negb (Qle_bool a b)
  | PInf, PInf | NInf, NInf => false
  | PInf, _ | _, NInf => true
  | NInf, _ | _, PInf => false
  end.

(** [Math.ceil(a)] *)
Definition jceil (x : jsnum) : jsint :=
  match x with
  | Fin a => Fin (Qceiling a)
  | PInf => PInf
  | NInf => NInf
  | NaN => NaN
  end.

(** [Math.max(1, n)] *)
Definition jmax1 (n : jsint) : jsint :=
  match n with
  | Fin z => Fin (Z.max 1 z)
  | PInf => PInf
  | NInf => Fin 1%Z
  | NaN => NaN
  end.

(** [p <= n] for a loop counter [p] *)
Definition int_le (p : Z) (n : jsint) : bool :=
  match n with
  | Fin z => (p <=? z)%Z
  | PInf => true
  | NInf | NaN => false
  end.

(** [p === n] for a loop counter [p] *)
Definition int_eq (p : Z) (n : jsint) : bool :=
  match n with
  | Fin z => (p =? z)%Z
  | _ => false
  end.

Definition string_of_Z (z : Z) : string := NilZero.string_of_int (Z.to_int z).

(** Conversion of an integral number to a string, as in a template literal. *)
Definition int_toString (n : jsint) : string :=
  match n with
  | Fin z => string_of_Z z
  | PInf => "Infinity"%string
  | NInf => "-Infinity"%string
  | NaN => "NaN"%string
  end.

(** Equality of numbers up to the representation of the fraction. *)
Definition jeq (x y : jsnum) : Prop :=
  match x, y with
  | Fin a, Fin b => a == b
  | PInf, PInf | NInf, NInf | NaN, NaN => True
  | _, _ => False
  end.

End JsNum.

Import JsNum.

(** ** Single-document export: [ExportSystem.exportComunicadoPDF]

    The export reads the rendered document from the page, rasterizes its
    header, body and footer with [html2canvas], computes the page count and
    draws every page on a jsPDF document.  The rasterizer is a function from
    the off-screen container to the canvas it returns; a rasterization that
    rejects, which the [catch] block of the source rethrows, is outside the
    model, and so are the pixels of the images: an image is known by what was
    rasterized or cropped.  [page_dom] is the page as the function finds it
    after its attempt to get the document rendered. *)

Module ExportPdf.

(** A canvas returned by [html2canvas]: its pixel size. *)
Record canvas : Type := { width : N; height : N }.

(** The header region; [paginaActual] is the text of its
    [#comunicado-pagina-actual] descendant, when it has one. *)
Record headerEl : Type := { paginaActual : option string }.

(** [.comunicado-documento-wrapper] and the regions looked up in it. *)
Record wrapper : Type := {
  offsetWidth : N;
  headerElement : option headerEl;
  titleElement : bool;
  infoElement : bool;
  bodyElement : bool;
  footerElement : bool
}.

(** [#comunicado-documento] *)
Record documento : Type := {
  rendered : bool;                      (* innerHTML.trim() is not empty *)
  documentoWrapper : option wrapper
}.

(** What the function reads from the page when it starts. *)
Record page_dom : Type := {
  jsPDF_loaded : bool;
  documentoElement : option documento
}.

(** Deep clones appended to an off-screen container. *)
Inductive element : Type :=
| HeaderClone (h : headerEl)
| TitleClone
| InfoClone
| BodyClone
| FooterClone.

(** An off-screen [div] of the given style width. *)
Record container : Type := { styleWidth : N; children : list element }.

(** The four places that call [html2canvas]. *)
Inductive call_site : Type :=
| HeaderContainer
| BodyContainer
| FooterContainer
| HeaderContainerUpdated (pageNum : Z).

(** Image data handed to [pdf.addImage]: the data URL of a rasterized
    container, or the crop of the body canvas drawn on a temporary canvas. *)
Inductive image : Type :=
| RasterOf (c : container)
| BodyCrop (sourceY sourceHeight : jsnum).

(** [pdf.addImage(imageData, 'JPEG', x, y, w, h)] *)
Record addImage : Type := { imageData : image; x : jsnum; y : jsnum; w : jsnum; h : jsnum }.

Definition page := list addImage.

(** A jsPDF document: the finished pages and the page being drawn. *)
Record pdf : Type := { finished : list page; current : page }.

Definition new_jsPDF : pdf := {| finished := []; current := [] |}.
Definition pdf_addPage (d : pdf) : pdf :=
  {| finished := finished d ++ [current d]; current := [] |}.
Definition pdf_addImage (i : addImage) (d : pdf) : pdf :=
  {| finished := finished d; current := current d ++ [i] |}.
Definition pages (d : pdf) : list page := finished d ++ [current d].

(** The mutable state of one export, with the log of rasterizations and of
    the [contentStart]/[contentEnd] pair of every iteration. *)
Record state : Type := {
  doc : pdf;
  rasterized : list (call_site * container);
  bodyYPosition : jsnum;
  slices : list (jsnum * jsnum)
}.

Definition on_doc (f : pdf -> pdf) (s : state) : state :=
  {| doc := f (doc s); rasterized := rasterized s;
     bodyYPosition := bodyYPosition s; slices := slices s |}.

Definition log_raster (at_ : call_site) (c : container) (s : state) : state :=
  {| doc := doc s; rasterized := rasterized s ++ [(at_, c)];
     bodyYPosition := bodyYPosition s; slices := slices s |}.

Definition end_slice (contentStart contentEnd : jsnum) (s : state) : state :=
  {| doc := doc s; rasterized := rasterized s;
     bodyYPosition := contentEnd; slices := slices s ++ [(contentStart, contentEnd)] |}.

Inductive outcome : Type :=
| Threw (message : string)
| Saved (fileName : string) (document : list page).

Record result : Type := {
  res_outcome : outcome;
  res_rasterized : list (call_site * container);
  res_slices : list (jsnum * jsnum)
}.

(** [if (e) container.appendChild(e.cloneNode(true))] *)
Definition append_if (present : bool) (e : element) (l : list element) : list element :=
  if present then l ++ [e] else l.

Definition append_header (h : option headerEl) (l : list element) : list element :=
  match h with
  | Some e => l ++ [HeaderClone e]
  | None => l
  end.

Section WithPage.

(** [pdf.internal.pageSize] of the ['a4'] format in millimetres, and the
    rasterizer. *)
Variables pageWidth pageHeight : Q.
Variable html2canvas : container -> canvas.

Definition margin : jsnum := of_Z 10.
Definition usableWidth : jsnum := jsub (Fin pageWidth) (jmul margin (of_Z 2)).
Definition usableHeight : jsnum := jsub (Fin pageHeight) (jmul margin (of_Z 2)).

(** [(canvas.height * usableWidth) / canvas.width] *)
Definition heightMM (c : canvas) : jsnum :=
  jdiv (jmul (of_N (height c)) usableWidth) (of_N (width c)).

Definition headerContainer (wr : wrapper) : container :=
  {| styleWidth := offsetWidth wr;
     children := append_if (infoElement wr) InfoClone
                   (append_if (titleElement wr) TitleClone
                      (append_header (headerElement wr) [])) |}.

Definition bodyContainer (wr : wrapper) : container :=
  {| styleWidth := offsetWidth wr;
     children := append_if (bodyElement wr) BodyClone [] |}.

Definition footerContainer (wr : wrapper) : container :=
  {| styleWidth := offsetWidth wr; children := [FooterClone] |}.

(** The text written into the page counter of the cloned header. *)
Definition counter_text (pageNum : Z) (totalPages : jsint) : string :=
  (string_of_Z pageNum ++ " de " ++ int_toString totalPages)%string.

Definition headerClone (e : headerEl) (pageNum : Z) (totalPages : jsint) : headerEl :=
  match paginaActual e with
  | Some _ => {| paginaActual := Some (counter_text pageNum totalPages) |}
  | None => e
  end.

Definition headerContainerUpdated (wr : wrapper) (e : headerEl)
    (pageNum : Z) (totalPages : jsint) : container :=
  {| styleWidth := offsetWidth wr;
     children := append_if (infoElement wr) InfoClone
                   (append_if (titleElement wr) TitleClone
                      [HeaderClone (headerClone e pageNum totalPages)]) |}.

(** The values fixed before the page loop starts. *)
Record measures : Type := {
  headerHeightMM : jsnum;
  bodyCanvas : canvas;
  bodyHeightMM : jsnum;
  footerImgData : option image;
  footerHeightMM : jsnum
}.

Definition headerSpace (m : measures) : jsnum := jadd (headerHeightMM m) (of_Z 5).
Definition footerSpace (m : measures) : jsnum := jadd (footerHeightMM m) (of_Z 5).
Definition contentHeightPerPage (m : measures) : jsnum :=
  jsub (jsub usableHeight (headerSpace m)) (footerSpace m).
Definition totalPages (m : measures) : jsint :=
  jmax1 (jceil (jdiv (bodyHeightMM m) (contentHeightPerPage m))).

(** Header of one page: cloned with the counter updated, rasterized again
    and drawn at the top margin. *)
Definition draw_header (wr : wrapper) (m : measures) (pageNum : Z) (yPos : jsnum)
    (s : state) : state :=
  match headerElement wr with
  | Some e =>
      let c := headerContainerUpdated wr e pageNum (totalPages m) in
      on_doc (pdf_addImage {| imageData := RasterOf c; x := margin; y := yPos;
                              w := usableWidth; h := headerHeightMM m |})
             (log_raster (HeaderContainerUpdated pageNum) c s)
  | None => s
  end.

(** Body of one page: the part of the body canvas between [contentStart] and
    [contentEnd]; returns the state and the new [yPos]. *)
Definition draw_content (m : measures) (contentStart contentEnd yPos : jsnum)
    (s : state) : state * jsnum :=
  let contentHeightThisPage := jsub contentEnd contentStart in
  if jgt contentHeightThisPage (of_Z 0) then
    let sourceY := jmul (jdiv contentStart (bodyHeightMM m)) (of_N (height (bodyCanvas m))) in
    let sourceHeight :=
      jmul (jdiv contentHeightThisPage (bodyHeightMM m)) (of_N (height (bodyCanvas m))) in
    let contentHeightMMThisPage :=
      jdiv (jmul sourceHeight usableWidth) (of_N (width (bodyCanvas m))) in
    (on_doc (pdf_addImage {| imageData := BodyCrop sourceY sourceHeight; x := margin;
                             y := yPos; w := usableWidth; h := contentHeightMMThisPage |}) s,
     jadd yPos contentHeightMMThisPage)
  else (s, yPos).

(** Footer, on the last page only. *)
Definition draw_footer (m : measures) (pageNum : Z) (yPos : jsnum) (s : state) : state :=
  match footerImgData m with
  | Some data =>
      if int_eq pageNum (totalPages m) then
        on_doc (pdf_addImage {| imageData := data; x := margin; y := jadd yPos (of_Z 5);
                                w := usableWidth; h := footerHeightMM m |}) s
      else s
  | None => s
  end.

(** One iteration of the page loop. *)
Definition page_body (wr : wrapper) (m : measures) (pageNum : Z) (s : state) : state :=
  let s := if (1 <? pageNum)%Z then on_doc pdf_addPage s else s in
  let yPos := margin in
  let s := draw_header wr m pageNum yPos s in
  let yPos := jadd yPos (jadd (headerHeightMM m) (of_Z 5)) in
  let contentStart := bodyYPosition s in
  let contentEnd := jmin (jadd (bodyYPosition s) (contentHeightPerPage m)) (bodyHeightMM m) in
  let '(s, yPos) := draw_content m contentStart contentEnd yPos s in
  let s := end_slice contentStart contentEnd s in
  draw_footer m pageNum yPos s.

(** [for (pageNum = ...; pageNum <= totalPages; pageNum++)]; [None] when the
    fuel runs out before the loop condition fails. *)
Fixpoint page_loop (wr : wrapper) (m : measures) (fuel : nat) (pageNum : Z) (s : state)
    : option state :=
  if int_le pageNum (totalPages m) then
    match fuel with
    | O => None
    | S fuel' => page_loop wr m fuel' (pageNum + 1)%Z (page_body wr m pageNum s)
    end
  else Some s.

(** Rasterization of header, body and footer before the geometry is computed. *)
Definition measure (wr : wrapper) : measures * state :=
  let s := {| doc := new_jsPDF; rasterized := []; bodyYPosition := of_Z 0; slices := [] |} in
  let hc := headerContainer wr in
  let s := log_raster HeaderContainer hc s in
  let headerCanvas := html2canvas hc in
  let bc := bodyContainer wr in
  let s := log_raster BodyContainer bc s in
  let bodyCanvas := html2canvas bc in
  let '(footerImgData, footerHeightMM, s) :=
    if footerElement wr then
      let fc := footerContainer wr in
      (Some (RasterOf fc), heightMM (html2canvas fc), log_raster FooterContainer fc s)
    else (None, of_Z 0, s) in
  ({| headerHeightMM := heightMM headerCanvas;
      bodyCanvas := bodyCanvas;
      bodyHeightMM := heightMM bodyCanvas;
      footerImgData := footerImgData;
      footerHeightMM := footerHeightMM |}, s).

(** [comunicado.codigo || 'sin-codigo'] *)
Definition codigo_or_default (codigo : option string) : string :=
  match codigo with
  | Some EmptyString | None => "sin-codigo"%string
  | Some c => c
  end.

Definition threw (message : string) : result :=
  {| res_outcome := Threw message; res_rasterized := []; res_slices := [] |}.

(** The export of one comunicado, from the lookup of the rendered document
    to [pdf.save]. *)
Definition exportComunicadoPDF (fuel : nat) (dom : page_dom) (codigo : option string)
    : option result :=
  if negb (jsPDF_loaded dom) then
    Some (threw "jsPDF no se pudo cargar correctamente"%string)
  else
    match documentoElement dom with
    | None => Some (threw "No se pudo encontrar o renderizar el elemento del documento"%string)
    | Some d =>
        if negb (rendered d) then
          Some (threw "No se pudo encontrar o renderizar el elemento del documento"%string)
        else
          match documentoWrapper d with
          | None => Some (threw "No se encontró el wrapper del documento"%string)
          | Some wr =>
              let '(m, s) := measure wr in
              match page_loop wr m fuel 1 s with
              | None => None
              | Some s =>
                  Some {| res_outcome :=
                            Saved ("Comunicado-" ++ codigo_or_default codigo ++ ".pdf")%string
                                  (pages (doc s));
                          res_rasterized := rasterized s;
                          res_slices := slices s |}
              end
          end
    end.

End WithPage.

End ExportPdf.

(** ** Batch export: [ExportSystem.exportComunicadosPDF] and its caller *)

Module Batch.

Local Open Scope string_scope.

(** What the code of the batch path can throw. *)
Inductive exn : Type :=
| TypeError (message : string)
| Error (message : string).

(** A record of the [comunicados] store; a property the record lacks is
    [None]. *)
Record comunicado : Type := {
  codigo : option string;
  tipo : option string;
  departamento : option string;
  titulo : option string;
  contenido : option string
}.

(** The calls made on a jsPDF document. *)
Inductive op : Type :=
| SetFillColor (r g b : Z)
| SetTextColor (r g b : Z)
| SetDrawColor (r g b : Z)
| SetFontSize (size : Z)
| SetFont (family style : string)
| Rect (x y w h : Q) (style : string)
| Text (lines : list string) (x y : Q)
| Line (x1 y1 x2 y2 : Q).

Record pdf : Type := { finished : list (list op); current : list op }.

Definition new_jsPDF : pdf := {| finished := []; current := [] |}.
Definition addPage (d : pdf) : pdf :=
  {| finished := (finished d ++ [current d])%list; current := [] |}.
Definition call (o : op) (d : pdf) : pdf :=
  {| finished := finished d; current := (current d ++ [o])%list |}.
Definition calls (l : list op) (d : pdf) : pdf := fold_left (fun d o => call o d) l d.
Definition pages (d : pdf) : list (list op) := (finished d ++ [current d])%list.

(** What the user can observe of a run. *)
Inductive event : Type :=
| SaveFile (fileName : string) (document : list (list op))
| Wait (ms : Z)
| Notify (message kind : string).

(** Computations that log events and may throw; the events logged before a
    throw stay logged. *)
Definition M (A : Type) : Type := list event -> list event * (exn + A).

Definition ret {A} (a : A) : M A := fun log => (log, inr a).
Definition throw {A} (e : exn) : M A := fun log => (log, inl e).
Definition emit (ev : event) : M unit := fun log => ((log ++ [ev])%list, inr tt).
Definition bind {A B} (c : M A) (k : A -> M B) : M B :=
  fun log =>
    match c log with
    | (log', inl e) => (log', inl e)
    | (log', inr a) => k a log'
    end.
Definition lift {A} (r : exn + A) : M A :=
  match r with
  | inl e => throw e
  | inr a => ret a
  end.

Notation "x <- c ;; k" := (bind c (fun x => k))
  (at level 61, c at next level, right associativity).
Notation "c ;;; k" := (bind c (fun _ => k))
  (at level 61, right associativity).

(** [`${v}`] *)
Definition template (v : option string) : string :=
  match v with
  | Some s => s
  | None => "undefined"
  end.

(** [a === b] on properties that hold strings *)
Definition strict_eq (a b : option string) : bool :=
  match a, b with
  | Some x, Some y => String.eqb x y
  | None, None => true
  | _, _ => false
  end.

(** [hay.includes(needle)] *)
Fixpoint includes (hay needle : string) : bool :=
  match hay with
  | EmptyString => String.prefix needle EmptyString
  | String _ rest => String.prefix needle hay || includes rest needle
  end.

(** A string is truthy when it is not empty. *)
Definition truthy (s : string) : bool :=
  match s with
  | EmptyString => false
  | _ => true
  end.

Definition cannot_read (property : string) : exn :=
  TypeError ("Cannot read properties of undefined (reading '" ++ property ++ "')").

Section WithLibrary.

(** The page size of [new jsPDF()] in millimetres, the text splitter of
    jsPDF under the font style and size in force, the case conversions of
    strings and the date of the run. *)
Variables pageWidth pageHeight : Q.
Variable splitTextToSize : string -> Z -> option string -> Q -> list string.
Variables toUpperCase toLowerCase : string -> string.
Variable today : string.

Definition margin : Q := 20.
Definition maxWidth : Q := pageWidth - margin * 2.

(** One line of the content: a new page when the line would start below
    [pageHeight - 30]. *)
Definition put_line (st : pdf * Q) (line : string) : pdf * Q :=
  let '(doc, yPos) := st in
  let '(doc, yPos) :=
    if negb (Qle_bool yPos (pageHeight - 30)) then (addPage doc, margin) else (doc, yPos) in
  (call (Text [line] margin yPos) doc, yPos + 6).

(** The body of the loop up to [doc.save]: the document of one comunicado. *)
Definition render_comunicado (c : comunicado) : exn + pdf :=
  let doc := new_jsPDF in
  let yPos := margin in
  let doc := calls [SetFillColor 99 102 241; Rect 0 0 pageWidth 50 "F";
                    SetTextColor 255 255 255; SetFontSize 20; SetFont "helvetica" "bold";
                    Text ["Sistema Administrativo"] margin 30;
                    SetFontSize 12; SetFont "helvetica" "normal";
                    Text ["Comunicado Digital"] margin 40] doc in
  let yPos := 60 in
  let doc := calls [SetTextColor 0 0 0; SetFillColor 248 249 252;
                    Rect margin yPos maxWidth (pageHeight - yPos - 20) "F";
                    SetFontSize 10; SetTextColor 99 102 241; SetFont "courier" "bold";
                    Text ["Código: " ++ template (codigo c)] margin (yPos + 10);
                    SetTextColor 100 100 100; SetFont "helvetica" "normal"] doc in
  match tipo c with
  | None => inl (cannot_read "toUpperCase")
  | Some t =>
      let doc := call (Text ["Tipo: " ++ toUpperCase t ++ " | Departamento: "
                               ++ template (departamento c)] margin (yPos + 16)) doc in
      let yPos := yPos + 25 in
      let titleLines := splitTextToSize "bold" 16 (titulo c) maxWidth in
      let doc := calls [SetTextColor 0 0 0; SetFontSize 16; SetFont "helvetica" "bold";
                        Text titleLines margin yPos] doc in
      let yPos := yPos + (inject_Z (Z.of_nat (List.length titleLines)) * 7 + 10) in
      let doc := calls [SetDrawColor 200 200 200;
                        Line margin yPos (pageWidth - margin) yPos] doc in
      let yPos := yPos + 10 in
      let doc := calls [SetFontSize 11; SetFont "helvetica" "normal"] doc in
      let contentLines := splitTextToSize "normal" 11 (contenido c) maxWidth in
      let '(doc, yPos) := fold_left put_line contentLines (doc, yPos) in
      let footerY := pageHeight - 10 in
      inr (calls [SetFontSize 8; SetTextColor 150 150 150;
                  Text ["Generado el " ++ today ++ " - Sistema Administrativo"]
                       margin footerY] doc)
  end.

Definition file_name (c : comunicado) : string :=
  "Comunicado-" ++ template (codigo c) ++ ".pdf".

(** The [for] loop over the comunicados from position [index]; [total] is
    [comunicados.length]. *)
Fixpoint export_from (total : nat) (index : nat) (comunicados : list comunicado) : M unit :=
  match comunicados with
  | [] => ret tt
  | c :: rest =>
      doc <- lift (render_comunicado c) ;;
      emit (SaveFile (file_name c) (pages doc)) ;;;
      (if (Z.of_nat index <? Z.of_nat total - 1)%Z then emit (Wait 300) else ret tt) ;;;
      export_from total (S index) rest
  end.

(** [ExportSystem.exportComunicadosPDF(comunicados)] *)
Definition exportComunicadosPDF (jsPDF_loaded : bool) (comunicados : list comunicado)
    : M unit :=
  if negb jsPDF_loaded then throw (Error "jsPDF no se pudo cargar correctamente")
  else export_from (List.length comunicados) 0 comunicados.

(** The search filter of the caller:
    [titulo], [contenido] or [codigo] contains the search text. *)
Definition search_matches (search : string) (c : comunicado) : exn + bool :=
  match titulo c with
  | None => inl (cannot_read "toLowerCase")
  | Some t =>
      if includes (toLowerCase t) search then inr true
      else
        match contenido c with
        | None => inl (cannot_read "toLowerCase")
        | Some ct =>
            if includes (toLowerCase ct) search then inr true
            else
              match codigo c with
              | None => inl (cannot_read "toLowerCase")
              | Some cd => inr (includes (toLowerCase cd) search)
              end
        end
  end.

(** [Array.prototype.filter] with a predicate that may throw. *)
Fixpoint filter_throwing (f : comunicado -> exn + bool) (l : list comunicado)
    : exn + list comunicado :=
  match l with
  | [] => inr []
  | c :: rest =>
      match f c with
      | inl e => inl e
      | inr keep =>
          match filter_throwing f rest with
          | inl e => inl e
          | inr kept => inr (if keep then c :: kept else kept)
          end
      end
  end.

(** The session and the filter controls read by the caller. *)
Record session : Type := {
  isAdmin : bool;
  user_departamento : option string;
  filter_departamento : string;
  filter_tipo : string;
  search_comunicados : string
}.

(** [App.prototype.exportComunicadosPDF], on the records of the store. *)
Definition App_exportComunicadosPDF (s : session) (jsPDF_loaded : bool)
    (stored : list comunicado) : M unit :=
  let comunicados := stored in
  let comunicados :=
    if negb (isAdmin s) then
      filter (fun c => strict_eq (departamento c) (user_departamento s)
                       || strict_eq (tipo c) (Some "externo")) comunicados
    else comunicados in
  let filterDept := filter_departamento s in
  let filterTipo := filter_tipo s in
  let search := toLowerCase (search_comunicados s) in
  let comunicados :=
    if truthy filterDept then
      filter (fun c => strict_eq (departamento c) (Some filterDept)) comunicados
    else comunicados in
  let comunicados :=
    if truthy filterTipo then
      filter (fun c => strict_eq (tipo c) (Some filterTipo)) comunicados
    else comunicados in
  comunicados <- (if truthy search
                  then lift (filter_throwing (search_matches search) comunicados)
                  else ret comunicados) ;;
  if (List.length comunicados =? 0)%nat then
    emit (Notify "No hay comunicados para exportar" "info")
  else
    exportComunicadosPDF jsPDF_loaded comunicados ;;;
    emit (Notify (NilZero.string_of_uint (Nat.to_uint (List.length comunicados))
                  ++ " comunicado(s) exportado(s) a PDF") "success").

End WithLibrary.

(** The files saved in a log, in order. *)
Fixpoint saved_files (log : list event) : list string :=
  match log with
  | [] => []
  | SaveFile name _ :: rest => name :: saved_files rest
  | _ :: rest => saved_files rest
  end.

(** The notifications shown in a log, in order. *)
Fixpoint notifications (log : list event) : list string :=
  match log with
  | [] => []
  | Notify message _ :: rest => message :: notifications rest
  | _ :: rest => notifications rest
  end.

End Batch.

(** ** JavaScript strings *)

Module JsString.

(** A string is a sequence of UTF-16 code units. *)
Definition jsstring := list N.

(** A literal of ASCII characters. *)
Definition lit (s : string) : jsstring := map N_of_ascii (list_ascii_of_string s).

(** White space and line terminators: what [trim] strips and [\s] matches. *)
Definition is_space (c : N) : bool :=
  ((9 <=? c) && (c <=? 13) || (c =? 32) || (c =? 160) || (c =? 5760)
   || (8192 <=? c) && (c <=? 8202) || (c =? 8232) || (c =? 8233)
   || (c =? 8239) || (c =? 8287) || (c =? 12288) || (c =? 65279))%N.

Fixpoint trimStart (s : jsstring) : jsstring :=
  match s with
  | c :: rest => if is_space c then trimStart rest else s
  | [] => []
  end.

(** [s.trim()] *)
Definition trim (s : jsstring) : jsstring := rev (trimStart (rev (trimStart s))).

(** A string is truthy when it is not empty. *)
Definition truthy (s : jsstring) : bool :=
  match s with
  | [] => false
  | _ => true
  end.

(** [s.split('\n')]: the pieces between line feeds, at least one. *)
Fixpoint split_lines (s : jsstring) : list jsstring :=
  match s with
  | [] => [[]]
  | c :: rest =>
      if (c =? 10)%N then [] :: split_lines rest
      else
        match split_lines rest with
        | line :: lines => (c :: line) :: lines
        | [] => [[c]]
        end
  end.

(** [s.split('\n').filter(p => p.trim())] *)
Definition nonblank_lines (s : jsstring) : list jsstring :=
  filter (fun p => truthy (trim p)) (split_lines s).

Fixpoint starts_with (prefix s : jsstring) : bool :=
  match prefix, s with
  | [], _ => true
  | p :: prefix', c :: s' => (p =? c)%N && starts_with prefix' s'
  | _ :: _, [] => false
  end.

End JsString.

(** ** Regular expressions of the formatter *)

Module Regex.
Import JsString.

(** The pieces the patterns of the source are made of: the anchors, one
    character of a class, and one or more characters of a class. *)
Inductive piece : Type :=
| Bol
| Eol
| OneOf (f : N -> bool)
| ManyOf (f : N -> bool).

(** A pattern is a disjunction of sequences of pieces. *)
Definition regex := list (list piece).

(** Whether the pieces match at the current position; [at_start] tells that
    the position is the start of the input.  [ManyOf] is greedy and gives
    characters back when the rest does not match. *)
Fixpoint match_here (ps : list piece) (at_start : bool) (s : jsstring) {struct ps} : bool :=
  match ps with
  | [] => true
  | Bol :: ps' => at_start && match_here ps' at_start s
  | Eol :: ps' => negb (truthy s) && match_here ps' at_start s
  | OneOf f :: ps' =>
      match s with
      | c :: s' => f c && match_here ps' false s'
      | [] => false
      end
  | ManyOf f :: ps' =>
      (fix plus (s : jsstring) : bool :=
         match s with
         | c :: s' => f c && (plus s' || match_here ps' false s')
         | [] => false
         end) s
  end.

Definition match_at (r : regex) (at_start : bool) (s : jsstring) : bool :=
  existsb (fun ps => match_here ps at_start s) r.

(** Whether the pattern matches at a position after the start. *)
Fixpoint match_later (r : regex) (s : jsstring) : bool :=
  match s with
  | [] => false
  | _ :: s' => match_at r false s' || match_later r s'
  end.

(** [s.match(r)] is not [null]: the pattern matches at some position. *)
Definition matches (r : regex) (s : jsstring) : bool :=
  match_at r true s || match_later r s.

Definition chr (c : N) : piece := OneOf (N.eqb c).
Definition word (w : jsstring) : list piece := map chr w.

End Regex.

(** ** Layout measurer: [calcularPaginasComunicado] *)

Module Measurer.

(** [.comunicado-documento-wrapper]: the integer pixel sizes the DOM reports. *)
Record wrapperEl : Type := { offsetWidth : N; scrollWidth : N; scrollHeight : N }.

Record page_dom : Type := {
  wrapper : option wrapperEl;
  paginaElement : bool                 (* #comunicado-pagina-actual exists *)
}.

(** What a call leaves behind and returns. *)
Record measured : Type := {
  scaleFactor : jsnum;
  totalPages : jsint;
  paginaText : option string;          (* textContent of the counter *)
  dataset_totalPages : string
}.

(** [a || b] on pixel sizes *)
Definition or_else (a b : N) : N := if (a =? 0)%N then b else a.

(** [wrapper.offsetWidth || wrapper.scrollWidth || 800] *)
Definition wrapperWidth (wr : wrapperEl) : N :=
  or_else (or_else (offsetWidth wr) (scrollWidth wr)) 800.

Definition calcularPaginasComunicado (dom : page_dom) : option measured :=
  match wrapper dom with
  | None => None
  | Some wr =>
      let contentHeight := scrollHeight wr in
      let A4_HEIGHT_MM := of_Z 297 in
      let wrapperWidthMM := of_Z 210 in
      let scaleFactor := jdiv wrapperWidthMM (of_N (wrapperWidth wr)) in
      let contentHeightMM := jmul (of_N contentHeight) scaleFactor in
      let marginMM := of_Z 20 in
      let usableHeightMM := jsub A4_HEIGHT_MM marginMM in
      let totalPages := jmax1 (jceil (jdiv contentHeightMM usableHeightMM)) in
      Some {| scaleFactor := scaleFactor;
              totalPages := totalPages;
              paginaText := if paginaElement dom
                            then Some ("1 de " ++ int_toString totalPages)%string
                            else None;
              dataset_totalPages := int_toString totalPages |}
  end.

End Measurer.

(** ** Page estimator: [estimarPaginasComunicado] *)

Module Estimator.
Import JsString.

(** The controls of the form: the value of the textarea and whether the two
    elements of the indicator exist. *)
Record form : Type := {
  contenidoTextarea : option jsstring;
  paginasEstimadas : bool;
  numPaginas : bool
}.

(** What the call does to the indicator. *)
Inductive update : Type :=
| Hidden
| Shown (totalPages : jsint) (color fontWeight : string).

Section WithLayout.

(** [scrollHeight] of the off-screen [div] of 800px that holds one [p] per
    paragraph: the layout of the browser. *)
Variable scrollHeight_of : list jsstring -> N.

Definition estimate_pages (contentHeight : N) : jsint :=
  let A4_HEIGHT_MM := of_Z 297 in
  let wrapperWidth := of_Z 800 in
  let wrapperWidthMM := of_Z 210 in
  let scaleFactor := jdiv wrapperWidthMM wrapperWidth in
  let contentHeightMM := jmul (of_N contentHeight) scaleFactor in
  let headerHeightMM := of_Z 80 in
  let footerHeightMM := of_Z 30 in
  let marginMM := of_Z 20 in
  let usableHeightMM := jsub (jsub (jsub A4_HEIGHT_MM headerHeightMM) footerHeightMM) marginMM in
  jmax1 (jceil (jdiv contentHeightMM usableHeightMM)).

(** [totalPages > 1] *)
Definition more_than_one (n : jsint) : bool :=
  match n with
  | Fin z => (1 <? z)%Z
  | PInf => true
  | NInf | NaN => false
  end.

Definition estimarPaginasComunicado (f : form) : option update :=
  match contenidoTextarea f with
  | None => None
  | Some value =>
      if negb (paginasEstimadas f && numPaginas f) then None
      else
        let contenido := trim value in
        if negb (truthy contenido) then Some Hidden
        else
          let paragraphs := nonblank_lines contenido in
          let contentHeight := scrollHeight_of (map trim paragraphs) in
          let totalPages := estimate_pages contentHeight in
          if more_than_one totalPages
          then Some (Shown totalPages "#3b82f6" "600")
          else Some (Shown totalPages "#6b7280" "400")
  end.

End WithLayout.

End Estimator.

(** ** Content formatter: [formatComunicadoContent] *)

Module Formatter.
Import JsString Regex.

(** [A-Z], the accented capitals of the pattern and the white space. *)
Definition upper_or_space (c : N) : bool :=
  ((65 <=? c) && (c <=? 90) || (c =? 193) || (c =? 201) || (c =? 205)
   || (c =? 211) || (c =? 218) || (c =? 209))%N || is_space c.

Definition lower (c : N) : bool := ((97 <=? c) && (c <=? 122))%N.

(** [ARTICULO] and [ARTÍCULO] *)
Definition articulo : jsstring := lit "ARTICULO".
Definition articulo_acento : jsstring := lit "ART" ++ [205%N] ++ lit "CULO".

(** [/^[A-ZÁÉÍÓÚÑ\s]+$/] *)
Definition title_pattern : regex := [[Bol; ManyOf upper_or_space; Eol]].

(** [/^ARTICULO|^ARTÍCULO/] *)
Definition articulo_pattern : regex :=
  [Bol :: word articulo; Bol :: word articulo_acento].

(** [/^[a-z]\)\./] *)
Definition list_pattern : regex := [[Bol; OneOf lower; chr 41; chr 46]].

(** [div.textContent = text; return div.innerHTML]: the serialization of a
    text node, which escapes the ampersand, the angle brackets and the
    no-break space. *)
Fixpoint escapeHtml (text : jsstring) : jsstring :=
  match text with
  | [] => []
  | c :: rest =>
      (if (c =? 38)%N then lit "&amp;"
       else if (c =? 60)%N then lit "&lt;"
       else if (c =? 62)%N then lit "&gt;"
       else if (c =? 160)%N then lit "&nbsp;"
       else [c]) ++ escapeHtml rest
  end.

Definition quote : jsstring := [34%N].

(** [`<p class="${cls}">${inner}</p>`] *)
Definition p_element (cls inner : jsstring) : jsstring :=
  lit "<p class=" ++ quote ++ cls ++ quote ++ lit ">" ++ inner ++ lit "</p>".

Definition title_class : jsstring := lit "comunicado-paragraph-title".
Definition paragraph_class : jsstring := lit "comunicado-paragraph".

(** The callback of [paragraphs.map]. *)
Definition format_paragraph (p : jsstring) : jsstring :=
  let trimmed := trim p in
  if matches title_pattern trimmed || matches articulo_pattern trimmed then
    p_element title_class (escapeHtml trimmed)
  else if matches list_pattern trimmed then
    p_element paragraph_class (escapeHtml trimmed)
  else p_element paragraph_class (escapeHtml trimmed).

(** [content] is [None] for [null] and [undefined]. *)
Definition formatComunicadoContent (content : option jsstring) : jsstring :=
  match content with
  | None => []
  | Some s =>
      if negb (truthy s) then []
      else List.concat (map format_paragraph (nonblank_lines s))
  end.

End Formatter.

(** ** Vocabulary for the statements about the export *)

Module ExportSpec.
Import ExportPdf.

(** The page of a comunicado that is rendered and has its wrapper: the
    exports that reach the pagination. *)
Definition rendered_dom (wr : wrapper) : page_dom :=
  {| jsPDF_loaded := true;
     documentoElement := Some {| rendered := true; documentoWrapper := Some wr |} |}.

Definition is_footer_image (i : addImage) : bool :=
  match imageData i with
  | RasterOf c => match children c with [FooterClone] => true | _ => false end
  | BodyCrop _ _ => false
  end.

Definition is_body_crop (i : addImage) : bool :=
  match imageData i with
  | BodyCrop _ _ => true
  | RasterOf _ => false
  end.

(** The page counter shown by a header image, if the image is a header with
    a counter field. *)
Definition counter_of (i : addImage) : option string :=
  match imageData i with
  | RasterOf c =>
      match children c with
      | HeaderClone e :: _ => paginaActual e
      | _ => None
      end
  | BodyCrop _ _ => None
  end.

Definition has_footer (pg : page) : bool := existsb is_footer_image pg.

Definition raster_count (f : call_site -> bool) (l : list (call_site * container)) : nat :=
  List.length (filter (fun c => f (fst c)) l).

Definition at_body (c : call_site) : bool :=
  match c with BodyContainer => true | _ => false end.
Definition at_footer (c : call_site) : bool :=
  match c with FooterContainer => true | _ => false end.
Definition at_header_of_page (p : Z) (c : call_site) : bool :=
  match c with HeaderContainerUpdated q => (p =? q)%Z | _ => false end.




(** The rasterizations made before the page loop. *)
Definition initial_rasters (wr : wrapper) : list (call_site * container) :=
  [(HeaderContainer, headerContainer wr); (BodyContainer, bodyContainer wr)]
  ++ (if footerElement wr then [(FooterContainer, footerContainer wr)] else []).

Definition file_name (codigo : option string) : string :=
  ("Comunicado-" ++ codigo_or_default codigo ++ ".pdf")%string.



(** The footer is on the last page and on no other. *)
Definition footer_on_last_page_only (document : list page) : Prop :=
  document <> []
  /\ forall i pg, nth_error document i = Some pg ->
       has_footer pg = (S i =? List.length document)%nat.

(** The counter text in the words of the specification. *)
Definition counter_text_of_spec (p n : Z) : string :=
  (string_of_Z p ++ " of " ++ string_of_Z n)%string.

Section WithPage.

Variables pageWidth pageHeight : Q.

(** [contentEnd] of an iteration that starts at [pos]. *)
Definition next_position (m : measures) (pos : jsnum) : jsnum :=
  jmin (jadd pos (contentHeightPerPage pageHeight m)) (bodyHeightMM m).

(** The slices of [k] successive iterations from [pos]. *)
Fixpoint plan (m : measures) (k : nat) (pos : jsnum) : list (jsnum * jsnum) :=
  match k with
  | O => []
  | S k' => (pos, next_position m pos) :: plan m k' (next_position m pos)
  end.

(** The images one iteration draws on its page. *)
Definition page_images (wr : wrapper) (m : measures) (pageNum : Z) (pos : jsnum)
    : list addImage :=
  let blank := {| doc := new_jsPDF; rasterized := []; bodyYPosition := pos; slices := [] |} in
  current (doc (page_body pageWidth pageHeight wr m pageNum blank)).

(** The pages of [k] successive iterations from page [p] at [pos]. *)
Fixpoint gen_pages (wr : wrapper) (m : measures) (k : nat) (p : Z) (pos : jsnum)
    : list page :=
  match k with
  | O => []
  | S k' => page_images wr m p pos :: gen_pages wr m k' (p + 1)%Z (next_position m pos)
  end.

(** The rasterizations of [k] successive iterations from page [p]. *)
Fixpoint gen_rasters (wr : wrapper) (m : measures) (k : nat) (p : Z)
    : list (call_site * container) :=
  match k with
  | O => []
  | S k' =>
      match headerElement wr with
      | Some e => [(HeaderContainerUpdated p,
                    headerContainerUpdated wr e p (totalPages pageHeight m))]
      | None => []
      end ++ gen_rasters wr m k' (p + 1)%Z
  end.

(** The position after [k] successive iterations from [pos]. *)
Fixpoint position_after (m : measures) (k : nat) (pos : jsnum) : jsnum :=
  match k with
  | O => pos
  | S k' => position_after m k' (next_position m pos)
  end.

(** [k] iterations of the loop body from page [p]. *)
Fixpoint iterate (wr : wrapper) (m : measures) (k : nat) (p : Z) (s : state) : state :=
  match k with
  | O => s
  | S k' => iterate wr m k' (p + 1)%Z (page_body pageWidth pageHeight wr m p s)
  end.

End WithPage.

End ExportSpec.

(** ** Sample documents *)

Module Sample.
Import ExportPdf.

(** A rasterizer whose canvases are 190 pixels wide, so that a pixel of
    height is a millimetre on a page with 190 mm of usable width. *)
Definition raster (headerPx bodyPx footerPx : N) (c : container) : canvas :=
  match children c with
  | [BodyClone] => {| width := 190; height := bodyPx |}
  | [FooterClone] => {| width := 190; height := footerPx |}
  | _ => {| width := 190; height := headerPx |}
  end.

(** The document as [showComunicadoDetalle] renders it. *)
Definition comunicado_wrapper : wrapper :=
  {| offsetWidth := 95;
     headerElement := Some {| paginaActual := Some "1 de 1"%string |};
     titleElement := true; infoElement := true;
     bodyElement := true; footerElement := true |}.

(** The same document without its footer region. *)
Definition no_footer_wrapper : wrapper :=
  {| offsetWidth := 95;
     headerElement := Some {| paginaActual := Some "1 de 1"%string |};
     titleElement := true; infoElement := true;
     bodyElement := true; footerElement := false |}.

End Sample.

(** ** Vocabulary and samples for the batch export *)

Module BatchSpec.
Import Batch.

(** The records whose document is built without a throw. *)
Definition renders (render : comunicado -> exn + pdf) (c : comunicado) : Prop :=
  exists d, render c = inr d.

(** Failure isolation in the words of the specification: every record whose
    own export succeeds has its file among the saved ones. *)
Definition failure_isolated (render : comunicado -> exn + pdf)
    (comunicados : list comunicado) (log : list event) : Prop :=
  forall c, In c comunicados -> renders render c ->
            In (file_name c) (saved_files log).

(** An administrator with no filter set. *)
Definition admin_no_filter : session :=
  {| isAdmin := true; user_departamento := Some "ADM"%string;
     filter_departamento := ""%string; filter_tipo := ""%string;
     search_comunicados := ""%string |}.

(** A splitter that keeps each text on one line. *)
Definition one_line (style : string) (size : Z) (text : option string) (maxlen : Q)
    : list string := [template text].

Definition same (s : string) : string := s.

Definition record (code : string) (kind : option string) : comunicado :=
  {| codigo := Some code; tipo := kind; departamento := Some "ADM"%string;
     titulo := Some "Aviso"%string; contenido := Some "Texto"%string |}.

(** Three records; the second one has no [tipo]. *)
Definition three_records : list comunicado :=
  [record "A-1" (Some "interno"%string); record "B-2" None;
   record "C-3" (Some "externo"%string)].

End BatchSpec.

(** ** Vocabulary and samples for the estimator *)

Module EstimatorSpec.
Import JsString Estimator.

(** The form with its indicator, holding the given text. *)
Definition form_with (value : jsstring) : form :=
  {| contenidoTextarea := Some value; paginasEstimadas := true; numPaginas := true |}.

(** The paragraphs handed to the measurement. *)
Definition paragraphs_of (value : jsstring) : list jsstring :=
  map trim (nonblank_lines (trim value)).

(** The number shown for a text, if one is shown. *)
Definition shown_pages (layout : list jsstring -> N) (value : jsstring) : option jsint :=
  match estimarPaginasComunicado layout (form_with value) with
  | Some (Shown n _ _) => Some n
  | _ => None
  end.

(** Monotonicity in the words of the specification: of two texts with the
    same number of paragraphs the longer one is not estimated shorter. *)
Definition monotone_in_length (layout : list jsstring -> N) (v1 v2 : jsstring) : Prop :=
  List.length (paragraphs_of v1) = List.length (paragraphs_of v2) ->
  (List.length v1 <= List.length v2)%nat ->
  forall n1 n2, shown_pages layout v1 = Some (Fin n1) ->
                shown_pages layout v2 = Some (Fin n2) -> (n1 <= n2)%Z.

(** The lengths of the words of a paragraph, which spaces separate. *)
Fixpoint word_lengths (p : jsstring) (current : N) : list N :=
  match p with
  | [] => if (current =? 0)%N then [] else [current]
  | c :: rest =>
      if (c =? 32)%N
      then (if (current =? 0)%N then [] else [current]) ++ word_lengths rest 0
      else word_lengths rest (current + 1)
  end.

(** Lines filled word by word: a word goes to the next line when it does
    not fit behind the words already on the line.  The state is the number of
    lines begun and the room taken on the last one. *)
Definition place_word (capacity : N) (st : N * N) (len : N) : N * N :=
  let '(lines, used) := st in
  (if lines =? 0 then (1, len)
   else if used + 1 + len <=? capacity then (lines, used + 1 + len)
   else (lines + 1, len))%N.

Definition lines_of (capacity : N) (p : jsstring) : N :=
  N.max 1 (fst (fold_left (place_word capacity) (word_lengths p 0) (0, 0)%N)).

(** A layout of the off-screen [div] with characters of one width, 92 to a
    line, lines of 29px, 20px below each paragraph and 32px of padding above
    and below. *)
Definition wrap_layout (paragraphs : list jsstring) : N :=
  fold_left (fun acc p => acc + 29 * lines_of 92 p + 20)%N paragraphs 64%N.

(** A paragraph of [n] words of three letters. *)
Fixpoint words (n : nat) : jsstring :=
  match n with
  | O => []
  | S O => [97; 97; 97]%N
  | S n' => [97; 97; 97; 32]%N ++ words n'
  end.

(** [n] paragraphs of [k] words each, one per line of the text. *)
Fixpoint paragraphs (n k : nat) : jsstring :=
  match n with
  | O => []
  | S O => words k
  | S n' => words k ++ [10%N] ++ paragraphs n' k
  end.

(** Ten paragraphs of 24 words: a full line of 23 words and one word more,
    two lines each. *)
Definition ten_short : jsstring := paragraphs 10 24.

(** Nine paragraphs of 23 words and one of 46: eleven lines in all. *)
Definition ten_long : jsstring := paragraphs 9 23 ++ [10%N] ++ words 46.

End EstimatorSpec.
(** ** Binary floating point

    The numbers of the code are IEEE 754 doubles.  A finite double is kept
    as the rational it stands for, and an operation is the exact operation
    followed by the rounding to the nearest double, the even one of two
    equally near, with an infinity beyond the largest double.  The sign of a
    zero is not kept: a zero is the positive zero. *)

Module Binary64.

(** [floor (log2 q)] of a positive rational *)
Definition ilog2 (q : Q) : Z :=
  let g := (Z.log2 (Qnum q) - Z.log2 (Zpos (Qden q)))%Z in
  if Qle_bool (2 ^ g) q then g else (g - 1)%Z.

(** The exponent of the last place of the doubles around a positive [q]:
    53 bits of precision, and the spacing [2^-1074] of the subnormal numbers
    below [2^-1022]. *)
Definition expo (q : Q) : Z := Z.max (ilog2 q - 52) (-1074).

(** The integer nearest to [r >= 0], the even one of two equally near. *)
Definition nearest_even (r : Q) : Z :=
  let f := Qfloor r in
  match Qcompare (r - inject_Z f) (1 # 2) with
  | Lt => f
  | Gt => (f + 1)%Z
  | Eq => if Z.even f then f else (f + 1)%Z
  end.

(** The multiple of [2^expo q] nearest to a positive [q]. *)
Definition round_pos (q : Q) : Q :=
  inject_Z (nearest_even (q / 2 ^ expo q)) * 2 ^ expo q.

Definition round_Q (q : Q) : Q :=
  match Qcompare q 0 with
  | Eq => 0
  | Gt => round_pos q
  | Lt => - round_pos (- q)
  end.

(** The double nearest to [q]: what an operation with the exact result [q]
    returns. *)
Definition round (q : Q) : jsnum :=
  let r := Qred (round_Q (Qred q)) in
  if Qle_bool (2 ^ 1024) r then PInf
  else if Qle_bool r (- 2 ^ 1024) then NInf
  else Fin r.

Definition round_ext (x : jsnum) : jsnum :=
  match x with
  | Fin q => round q
  | _ => x
  end.

(** [a + b], [a - b], [a * b] and [a / b] on doubles *)
Definition fadd (x y : jsnum) : jsnum := round_ext (jadd x y).
Definition fsub (x y : jsnum) : jsnum := round_ext (jsub x y).
Definition fmul (x y : jsnum) : jsnum := round_ext (jmul x y).
Definition fdiv (x y : jsnum) : jsnum := round_ext (jdiv x y).

(** An integer as a number *)
Definition f_of_Z (z : Z) : jsnum := round (inject_Z z).
Definition f_of_N (n : N) : jsnum := f_of_Z (Z.of_N n).

(** [x <= y] on numbers; nothing compares with [NaN]. *)
Definition jle (x y : jsnum) : Prop :=
  match x, y with
  | NaN, _ | _, NaN => False
  | NInf, _ | _, PInf => True
  | Fin a, Fin b => a <= b
  | _, _ => False
  end.

End Binary64.

(** ** The export in binary floating point

    [ExportPdf] with the arithmetic of the doubles: the same pages, states
    and results, and every [+], [-], [*] and [/] of the source rounded.  The
    comparisons, [Math.min], [Math.max] and [Math.ceil] are exact on doubles.
    The crop of the body is known by the source rectangle handed to
    [drawImage]. *)

Module ExportPdf64.
Import Binary64.
Import ExportPdf.

Section WithPage.

Variables pageWidth pageHeight : Q.
Variable html2canvas : container -> canvas.

Definition margin : jsnum := f_of_Z 10.
Definition usableWidth : jsnum := fsub (round pageWidth) (fmul margin (f_of_Z 2)).
Definition usableHeight : jsnum := fsub (round pageHeight) (fmul margin (f_of_Z 2)).

(** [(canvas.height * usableWidth) / canvas.width] *)
Definition heightMM (c : canvas) : jsnum :=
  fdiv (fmul (f_of_N (height c)) usableWidth) (f_of_N (width c)).

Definition headerSpace (m : measures) : jsnum := fadd (headerHeightMM m) (f_of_Z 5).
Definition footerSpace (m : measures) : jsnum := fadd (footerHeightMM m) (f_of_Z 5).
Definition contentHeightPerPage (m : measures) : jsnum :=
  fsub (fsub usableHeight (headerSpace m)) (footerSpace m).
Definition totalPages (m : measures) : jsint :=
  jmax1 (jceil (fdiv (bodyHeightMM m) (contentHeightPerPage m))).

Definition draw_header (wr : wrapper) (m : measures) (pageNum : Z) (yPos : jsnum)
    (s : state) : state :=
  match headerElement wr with
  | Some e =>
      let c := headerContainerUpdated wr e pageNum (totalPages m) in
      on_doc (pdf_addImage {| imageData := RasterOf c; x := margin; y := yPos;
                              w := usableWidth; h := headerHeightMM m |})
             (log_raster (HeaderContainerUpdated pageNum) c s)
  | None => s
  end.

Definition draw_content (m : measures) (contentStart contentEnd yPos : jsnum)
    (s : state) : state * jsnum :=
  let contentHeightThisPage := fsub contentEnd contentStart in
  if jgt contentHeightThisPage (f_of_Z 0) then
    let sourceY := fmul (fdiv contentStart (bodyHeightMM m)) (f_of_N (height (bodyCanvas m))) in
    let sourceHeight :=
      fmul (fdiv contentHeightThisPage (bodyHeightMM m)) (f_of_N (height (bodyCanvas m))) in
    let contentHeightMMThisPage :=
      fdiv (fmul sourceHeight usableWidth) (f_of_N (width (bodyCanvas m))) in
    (on_doc (pdf_addImage {| imageData := BodyCrop sourceY sourceHeight; x := margin;
                             y := yPos; w := usableWidth; h := contentHeightMMThisPage |}) s,
     fadd yPos contentHeightMMThisPage)
  else (s, yPos).

Definition draw_footer (m : measures) (pageNum : Z) (yPos : jsnum) (s : state) : state :=
  match footerImgData m with
  | Some data =>
      if int_eq pageNum (totalPages m) then
        on_doc (pdf_addImage {| imageData := data; x := margin; y := fadd yPos (f_of_Z 5);
                                w := usableWidth; h := footerHeightMM m |}) s
      else s
  | None => s
  end.

(** One iteration of the page loop. *)
Definition page_body (wr : wrapper) (m : measures) (pageNum : Z) (s : state) : state :=
  let s := if (1 <? pageNum)%Z then on_doc pdf_addPage s else s in
  let yPos := margin in
  let s := draw_header wr m pageNum yPos s in
  let yPos := fadd yPos (fadd (headerHeightMM m) (f_of_Z 5)) in
  let contentStart := bodyYPosition s in
  let contentEnd := jmin (fadd (bodyYPosition s) (contentHeightPerPage m)) (bodyHeightMM m) in
  let '(s, yPos) := draw_content m contentStart contentEnd yPos s in
  let s := end_slice contentStart contentEnd s in
  draw_footer m pageNum yPos s.

Fixpoint page_loop (wr : wrapper) (m : measures) (fuel : nat) (pageNum : Z) (s : state)
    : option state :=
  if int_le pageNum (totalPages m) then
    match fuel with
    | O => None
    | S fuel' => page_loop wr m fuel' (pageNum + 1)%Z (page_body wr m pageNum s)
    end
  else Some s.

Definition measure (wr : wrapper) : measures * state :=
  let s := {| doc := new_jsPDF; rasterized := []; bodyYPosition := f_of_Z 0; slices := [] |} in
  let hc := headerContainer wr in
  let s := log_raster HeaderContainer hc s in
  let headerCanvas := html2canvas hc in
  let bc := bodyContainer wr in
  let s := log_raster BodyContainer bc s in
  let bodyCanvas := html2canvas bc in
  let '(footerImgData, footerHeightMM, s) :=
    if footerElement wr then
      let fc := footerContainer wr in
      (Some (RasterOf fc), heightMM (html2canvas fc), log_raster FooterContainer fc s)
    else (None, f_of_Z 0, s) in
  ({| headerHeightMM := heightMM headerCanvas;
      bodyCanvas := bodyCanvas;
      bodyHeightMM := heightMM bodyCanvas;
      footerImgData := footerImgData;
      footerHeightMM := footerHeightMM |}, s).

Definition exportComunicadoPDF (fuel : nat) (dom : page_dom) (codigo : option string)
    : option result :=
  if negb (jsPDF_loaded dom) then
    Some (threw "jsPDF no se pudo cargar correctamente"%string)
  else
    match documentoElement dom with
    | None => Some (threw "No se pudo encontrar o renderizar el elemento del documento"%string)
    | Some d =>
        if negb (rendered d) then
          Some (threw "No se pudo encontrar o renderizar el elemento del documento"%string)
        else
          match documentoWrapper d with
          | None => Some (threw "No se encontró el wrapper del documento"%string)
          | Some wr =>
              let '(m, s) := measure wr in
              match page_loop wr m fuel 1 s with
              | None => None
              | Some s =>
                  Some {| res_outcome :=
                            Saved ("Comunicado-" ++ codigo_or_default codigo ++ ".pdf")%string
                                  (pages (doc s));
                          res_rasterized := rasterized s;
                          res_slices := slices s |}
              end
          end
    end.

End WithPage.

End ExportPdf64.
(** ** Vocabulary for the export in binary floating point *)

Module ExportSpec64.
Import ExportPdf.

Section WithPage.

Variables pageWidth pageHeight : Q.

(** [contentEnd] of an iteration that starts at [pos]. *)
Definition next_position (m : measures) (pos : jsnum) : jsnum :=
  jmin (Binary64.fadd pos (ExportPdf64.contentHeightPerPage pageHeight m)) (bodyHeightMM m).

(** The slices of [k] successive iterations from [pos]. *)
Fixpoint plan (m : measures) (k : nat) (pos : jsnum) : list (jsnum * jsnum) :=
  match k with
  | O => []
  | S k' => (pos, next_position m pos) :: plan m k' (next_position m pos)
  end.

(** [k] iterations of the loop body from page [p]. *)
Fixpoint iterate (wr : wrapper) (m : measures) (k : nat) (p : Z) (s : state) : state :=
  match k with
  | O => s
  | S k' => iterate wr m k' (p + 1)%Z (ExportPdf64.page_body pageWidth pageHeight wr m p s)
  end.

End WithPage.


(** The images of a page that are not crops of the body. *)
Definition has_header (pg : page) : bool :=
  existsb (fun i => match ExportSpec.counter_of i with Some _ => true | None => false end) pg.

End ExportSpec64.
(** ** The layout measurer in binary floating point

    [Measurer.calcularPaginasComunicado] with the arithmetic of the doubles. *)

Module Measurer64.
Import Binary64.
Import Measurer.

Definition calcularPaginasComunicado (dom : page_dom) : option measured :=
  match wrapper dom with
  | None => None
  | Some wr =>
      let contentHeight := scrollHeight wr in
      let A4_HEIGHT_MM := f_of_Z 297 in
      let wrapperWidthMM := f_of_Z 210 in
      let scaleFactor := fdiv wrapperWidthMM (f_of_N (wrapperWidth wr)) in
      let contentHeightMM := fmul (f_of_N contentHeight) scaleFactor in
      let marginMM := f_of_Z 20 in
      let usableHeightMM := fsub A4_HEIGHT_MM marginMM in
      let totalPages := jmax1 (jceil (fdiv contentHeightMM usableHeightMM)) in
      Some {| scaleFactor := scaleFactor;
              totalPages := totalPages;
              paginaText := if paginaElement dom
                            then Some ("1 de " ++ int_toString totalPages)%string
                            else None;
              dataset_totalPages := int_toString totalPages |}
  end.

(** The pixel sizes of the DOM are 32-bit integers. *)
Definition dom_long (n : N) : Prop := (n < 2 ^ 31)%N.

End Measurer64.
(** ** The doubles of the kernel

    The arithmetic of [Binary64] next to the primitive doubles of Rocq, for
    the comparison of the two on expressions of the code. *)

Module Doubles.
Import Binary64.

(** An expression over integers. *)
Inductive expr : Type :=
| Int (z : Z)
| Add (a b : expr)
| Sub (a b : expr)
| Mul (a b : expr)
| Div (a b : expr).

(** Its value in [Binary64] *)
Fixpoint eval (e : expr) : jsnum :=
  match e with
  | Int z => f_of_Z z
  | Add a b => fadd (eval a) (eval b)
  | Sub a b => fsub (eval a) (eval b)
  | Mul a b => fmul (eval a) (eval b)
  | Div a b => fdiv (eval a) (eval b)
  end.

(** Its value as a primitive double; the integers are below [2^63]. *)
Fixpoint prim (e : expr) : PrimFloat.float :=
  match e with
  | Int z => PrimFloat.of_uint63 (Uint63.of_Z z)
  | Add a b => PrimFloat.add (prim a) (prim b)
  | Sub a b => PrimFloat.sub (prim a) (prim b)
  | Mul a b => PrimFloat.mul (prim a) (prim b)
  | Div a b => PrimFloat.div (prim a) (prim b)
  end.

(** The number a primitive double stands for. *)
Definition of_float (f : PrimFloat.float) : jsnum :=
  match FloatOps.Prim2SF f with
  | SpecFloat.S754_zero _ => Fin 0
  | SpecFloat.S754_infinity false => PInf
  | SpecFloat.S754_infinity true => NInf
  | SpecFloat.S754_nan => NaN
  | SpecFloat.S754_finite s m e =>
      Fin (Qred ((if s then - inject_Z (Z.pos m) else inject_Z (Z.pos m)) * 2 ^ e))
  end.

Definition same (x y : jsnum) : bool :=
  match x, y with
  | Fin a, Fin b => Qeq_bool a b
  | PInf, PInf | NInf, NInf | NaN, NaN => true
  | _, _ => false
  end.

Definition agree (e : expr) : bool := same (of_float (prim e)) (eval e).

(** [(px * (210 - 10 * 2)) / 570]: the height in millimetres of a canvas of
    570 pixels of width. *)
Definition mm (px : Z) : expr := Div (Mul (Int px) (Sub (Int 210) (Mul (Int 10) (Int 2)))) (Int 570).

(** [usableHeight - (header + 5) - (footer + 5)] *)
Definition content_height (headerPx footerPx : Z) : expr :=
  Sub (Sub (Sub (Int 297) (Mul (Int 10) (Int 2))) (Add (mm headerPx) (Int 5)))
      (Add (mm footerPx) (Int 5)).

(** [bodyHeightMM / contentHeightPerPage] *)
Definition quotient (headerPx bodyPx footerPx : Z) : expr :=
  Div (mm bodyPx) (content_height headerPx footerPx).

(** The end of the [k]-th slice while the sums stay below the body height. *)
Fixpoint slice_end (headerPx footerPx : Z) (k : nat) : expr :=
  match k with
  | O => Int 0
  | S k' => Add (slice_end headerPx footerPx k') (content_height headerPx footerPx)
  end.

(** [(scrollHeight * (210 / width)) / (297 - 20)] of the measurer. *)
Definition measured (width scrollHeight : Z) : expr :=
  Div (Mul (Int scrollHeight) (Div (Int 210) (Int width))) (Sub (Int 297) (Int 20)).

Definition samples : list expr :=
  [ mm 181; mm 1632; mm 76; mm 52; mm 4816; mm 61;
    content_height 181 76; content_height 52 61;
    quotient 181 1632 76; quotient 52 4816 61;
    slice_end 52 61 1; slice_end 52 61 2; slice_end 52 61 3; slice_end 52 61 4;
    slice_end 52 61 5; slice_end 52 61 6; slice_end 52 61 7;
    slice_end 181 76 1; slice_end 181 76 2; slice_end 181 76 3;
    measured 360 3324; measured 800 3324; measured 797 100000;
    Div (Int 1) (Int 3); Div (Int 2) (Int 3); Div (Int 1) (Int 10);
    Add (Div (Int 1) (Int 10)) (Div (Int 2) (Int 10));
    Mul (Div (Int 1) (Int 3)) (Int 3);
    Sub (Div (Int 1) (Int 3)) (Div (Int 1) (Int 3));
    Div (Int 1) (Int 0); Div (Int 0) (Int 0); Div (Sub (Int 0) (Int 1)) (Int 0);
    Add (Int 9007199254740992) (Int 1); Add (Int 9007199254740992) (Int 3);
    Div (Int 9007199254740993) (Int 7);
    Mul (Int 4611686018427387904) (Int 4611686018427387904) ].

End Doubles.
(** ** The formatter in the words of the specification

    What [formatComunicadoContent] returns, said without the functions of
    the embedding: the lines are told by the text they join to, the text of
    a line by the white space around it, the escape and the markup by their
    code units. *)

Module FormatterSpec.
Import JsString.

(** White space and line terminators. *)
Definition white (c : N) : Prop :=
  In c [9; 10; 11; 12; 13; 32; 160; 5760; 8192; 8193; 8194; 8195; 8196; 8197;
        8198; 8199; 8200; 8201; 8202; 8232; 8233; 8239; 8287; 12288; 65279]%N.

(** The capitals [A-Z] and [Á É Í Ó Ú Ñ]. *)
Definition capital (c : N) : Prop :=
  (65 <= c <= 90)%N \/ In c [193; 201; 205; 211; 218; 209]%N.

(** The capital letters of Latin script, the accented ones included:
    [A-Z], [À-Ö] and [Ø-Þ]. *)
Definition uppercase_letter (c : N) : Prop :=
  (65 <= c <= 90)%N \/ (192 <= c <= 214)%N \/ (216 <= c <= 222)%N.

(** The lines joined by line feeds. *)
Fixpoint join (lines : list jsstring) : jsstring :=
  match lines with
  | [] => []
  | [l] => l
  | l :: rest => l ++ [10%N] ++ join rest
  end.

(** [lines] are the lines of [s]. *)
Definition lines_of (s : jsstring) (lines : list jsstring) : Prop :=
  lines <> [] /\ join lines = s /\ Forall (fun l => ~ In 10%N l) lines.

Definition blank (l : jsstring) : Prop := forall c, In c l -> white c.

(** [t] is the line [l] without the white space at its ends. *)
Definition text_of (l t : jsstring) : Prop :=
  exists pre post,
    l = pre ++ t ++ post
    /\ blank pre /\ blank post
    /\ (forall c, hd_error t = Some c -> ~ white c)
    /\ (forall c, hd_error (rev t) = Some c -> ~ white c).

(** [&], [<], [>] and the no-break space as character references. *)
Definition escaped_char (c : N) : jsstring :=
  if (c =? 38)%N then [38; 97; 109; 112; 59]%N                 (* &amp; *)
  else if (c =? 60)%N then [38; 108; 116; 59]%N                (* &lt; *)
  else if (c =? 62)%N then [38; 103; 116; 59]%N                (* &gt; *)
  else if (c =? 160)%N then [38; 110; 98; 115; 112; 59]%N      (* &nbsp; *)
  else [c].

Definition escaped (t : jsstring) : jsstring := flat_map escaped_char t.

(** [<p class="comunicado-paragraph-title">] *)
Definition open_title : jsstring :=
  [60; 112; 32; 99; 108; 97; 115; 115; 61; 34;
   99; 111; 109; 117; 110; 105; 99; 97; 100; 111; 45;
   112; 97; 114; 97; 103; 114; 97; 112; 104; 45; 116; 105; 116; 108; 101; 34; 62]%N.

(** [<p class="comunicado-paragraph">] *)
Definition open_paragraph : jsstring :=
  [60; 112; 32; 99; 108; 97; 115; 115; 61; 34;
   99; 111; 109; 117; 110; 105; 99; 97; 100; 111; 45;
   112; 97; 114; 97; 103; 114; 97; 112; 104; 34; 62]%N.

(** [</p>] *)
Definition close_p : jsstring := [60; 47; 112; 62]%N.

(** [ARTICULO] and [ARTÍCULO] *)
Definition ARTICULO : jsstring := [65; 82; 84; 73; 67; 85; 76; 79]%N.
Definition ARTICULO_acento : jsstring := [65; 82; 84; 205; 67; 85; 76; 79]%N.

Definition starts_with_articulo (t : jsstring) : Prop :=
  (exists rest, t = ARTICULO ++ rest) \/ (exists rest, t = ARTICULO_acento ++ rest).

(** A title by the pattern of the code: the capitals of the pattern and
    white space only, or an article. *)
Definition titled (t : jsstring) : Prop :=
  (forall c, In c t -> capital c \/ white c) \/ starts_with_articulo t.

(** A title as the specification words it: uppercase letters, the accented
    ones included, and spaces only, or an article. *)
Definition titled_as_stated (t : jsstring) : Prop :=
  (forall c, In c t -> uppercase_letter c \/ white c) \/ starts_with_articulo t.

Section WithTitle.

Variable is_title : jsstring -> Prop.

(** [out] is the [p] element of the line [l]: its text escaped, under the
    title class exactly when the text is a title. *)
Definition element_of (l out : jsstring) : Prop :=
  exists t,
    text_of l t
    /\ ((is_title t /\ out = open_title ++ escaped t ++ close_p)
        \/ (~ is_title t /\ out = open_paragraph ++ escaped t ++ close_p)).

(** One element for each line that is not blank, in the order of the lines. *)
Inductive elements_of : list jsstring -> list jsstring -> Prop :=
| elements_nil : elements_of [] []
| elements_blank l lines outs :
    blank l -> elements_of lines outs -> elements_of (l :: lines) outs
| elements_line l lines out outs :
    ~ blank l -> element_of l out -> elements_of lines outs ->
    elements_of (l :: lines) (out :: outs).

(** [html] is the markup of the content [s]. *)
Definition markup_of (s html : jsstring) : Prop :=
  exists lines outs, lines_of s lines /\ elements_of lines outs /\ html = List.concat outs.

End WithTitle.

End FormatterSpec.

(** * The documents and the log of the batch export *)

Module BatchLayout.
Import Batch.

(** Every call made on a document, page after page. *)
Definition all_ops (d : pdf) : list op := List.concat (pages d).

(** The texts written by a list of calls, with their vertical position. *)
Definition text_ops (ops : list op) : list (list string * Q) :=
  flat_map (fun o => match o with
                     | Text lines _ y => [(lines, y)]
                     | _ => []
                     end) ops.

(** [e] between every two elements of [l]. *)
Fixpoint intersperse {A} (e : A) (l : list A) : list A :=
  match l with
  | [] => []
  | [a] => [a]
  | a :: rest => a :: e :: intersperse e rest
  end.

(** What a non-administrator may see: the comunicados of the department of
    the session and the external ones. *)
Definition visible (s : session) (c : comunicado) : Prop :=
  departamento c = user_departamento s \/ tipo c = Some "externo"%string.

(** The records the caller hands to the exporter: stored records that pass
    the rule of the session and the filters in force. *)
Definition allowed (s : session) (stored : list comunicado) (c : comunicado) : Prop :=
  In c stored
  /\ (isAdmin s = false -> visible s c)
  /\ (truthy (filter_departamento s) = true
      -> departamento c = Some (filter_departamento s))
  /\ (truthy (filter_tipo s) = true -> tipo c = Some (filter_tipo s)).

(** The decimal numeral of a length, as a template literal prints it. *)
Definition numeral (n : nat) : string := NilZero.string_of_uint (Nat.to_uint n).

(** A splitter that keeps a title on one line and breaks every other text
    into fifty lines. *)
Definition fifty_lines (style : string) (size : Z) (text : option string) (maxlen : Q)
    : list string :=
  if String.eqb style "bold" then [template text] else repeat (template text) 50.

(** A user of the department ADM with no filter set, and a store with a
    comunicado of another department. *)
Definition clerk : session :=
  {| isAdmin := false; user_departamento := Some "ADM"%string;
     filter_departamento := ""%string; filter_tipo := ""%string;
     search_comunicados := ""%string |}.

Definition mixed_store : list comunicado :=
  [BatchSpec.record "A-1" (Some "interno"%string);
   {| codigo := Some "X-9"%string; tipo := Some "interno"%string;
      departamento := Some "RH"%string; titulo := Some "Aviso"%string;
      contenido := Some "Texto"%string |};
   BatchSpec.record "C-3" (Some "externo"%string)].

End BatchLayout.

(** * Markup of the formatted content *)

Module FormatterMarkup.
Import JsString Formatter.

(** How many times the code unit [c] occurs in [s]. *)
Definition count (c : N) (s : jsstring) : nat := List.length (filter (N.eqb c) s).

(** The lines of a content that are not blank. *)
Definition paragraphs_of_content (content : option jsstring) : list jsstring :=
  match content with
  | None => []
  | Some s => nonblank_lines s
  end.

End FormatterMarkup.

(** * Filters of the list of solicitudes: [applySolicitudesFilters]

    The four filter controls of the page are read as strings, empty when a
    control is missing or not set.  A property a solicitud lacks is [None];
    the properties the filters read hold strings. *)

Module SolicitudFilters.
Import JsString.

Record solicitud : Type := {
  id : Z;
  estado : option jsstring;
  tipo : option jsstring;
  fecha : option jsstring
}.

Record controls : Type := {
  filterEstado : jsstring;
  filterTipo : jsstring;
  filterFechaInicio : jsstring;
  filterFechaFin : jsstring
}.

Definition str_eqb (a b : jsstring) : bool :=
  if list_eq_dec N.eq_dec a b then true else false.

(** [a <= b] on strings: the order of the code units, a prefix first. *)
Fixpoint str_le (a b : jsstring) : bool :=
  match a, b with
  | [], _ => true
  | _ :: _, [] => false
  | x :: a', y :: b' =>
      if (x <? y)%N then true
      else if (y <? x)%N then false
      else str_le a' b'
  end.

(** [v === text] for a property [v] *)
Definition is_string (v : option jsstring) (text : jsstring) : bool :=
  match v with
  | Some s => str_eqb s text
  | None => false
  end.

(** [v >= text] and [v <= text]; a missing property compares as [NaN]. *)
Definition at_least (v : option jsstring) (text : jsstring) : bool :=
  match v with
  | Some s => str_le text s
  | None => false
  end.

Definition at_most (v : option jsstring) (text : jsstring) : bool :=
  match v with
  | Some s => str_le s text
  | None => false
  end.

Definition applySolicitudesFilters (c : controls) (solicitudes : list solicitud)
    : list solicitud :=
  let filtered := solicitudes in
  let filtered :=
    if truthy (filterEstado c)
    then filter (fun s => is_string (estado s) (filterEstado c)) filtered
    else filtered in
  let filtered :=
    if truthy (filterTipo c)
    then filter (fun s => is_string (tipo s) (filterTipo c)) filtered
    else filtered in
  let filtered :=
    if truthy (filterFechaInicio c)
    then filter (fun s => at_least (fecha s) (filterFechaInicio c)) filtered
    else filtered in
  let filtered :=
    if truthy (filterFechaFin c)
    then filter (fun s => at_most (fecha s) (filterFechaFin c)) filtered
    else filtered in
  filtered.

(** *** Vocabulary *)

(** A solicitud passes the controls: every control that is set accepts it. *)
Definition passes (c : controls) (s : solicitud) : bool :=
  (negb (truthy (filterEstado c)) || is_string (estado s) (filterEstado c))
  && (negb (truthy (filterTipo c)) || is_string (tipo s) (filterTipo c))
  && (negb (truthy (filterFechaInicio c)) || at_least (fecha s) (filterFechaInicio c))
  && (negb (truthy (filterFechaFin c)) || at_most (fecha s) (filterFechaFin c)).

(** A solicitud made at 14:22 on the tenth of March, and the controls with
    that day as the last day. *)
Definition tenth_of_march : solicitud :=
  {| id := 7; estado := Some (lit "pendiente"); tipo := Some (lit "permiso");
     fecha := Some (lit "2025-03-10T14:22:05.123Z") |}.

Definition until_tenth : controls :=
  {| filterEstado := []; filterTipo := []; filterFechaInicio := [];
     filterFechaFin := lit "2025-03-10" |}.

End SolicitudFilters.

(** * Days of a request: [calculateDays]

    A date given as a string [YYYY-MM-DD] is taken apart and handed to the
    [Date] constructor as a local date; any other value goes to the [Date]
    constructor as it is.  [localTime] is that constructor on a year, a month
    index and a day: the time value of the local midnight, which depends on
    the time zone of the browser.  A value of the second kind is known by the
    time value [new Date(value)] has, [NaN] for an invalid date. *)

Module Days.

Inductive date_arg : Type :=
| IsoDay (year month day : Z)
| OtherValue (time : jsnum).

(** [Math.abs(a)] *)
Definition jabs (x : jsnum) : jsnum :=
  match x with
  | Fin a => Fin (Qabs a)
  | PInf | NInf => PInf
  | NaN => NaN
  end.

(** [n + 1] on the result of [Math.ceil] *)
Definition int_succ (n : jsint) : jsint :=
  match n with
  | Fin z => Fin (z + 1)%Z
  | PInf => PInf
  | NInf => NInf
  | NaN => NaN
  end.

Section WithClock.

Variable localTime : Z -> Z -> Z -> jsnum.

Definition date_of (d : date_arg) : jsnum :=
  match d with
  | IsoDay year month day => localTime year (month - 1) day
  | OtherValue time => time
  end.

Definition calculateDays (startDate endDate : date_arg) : jsint :=
  let start := date_of startDate in
  let end_ := date_of endDate in
  let diffTime := jabs (jsub end_ start) in
  let diffDays := int_succ (jceil (jdiv diffTime (of_Z (1000 * 60 * 60 * 24)))) in
  diffDays.

End WithClock.

(** Local midnights of a zone without daylight saving in March 2025, as the
    number of the day times 24 hours. *)
Definition march_2025 (year monthIndex day : Z) : jsnum :=
  of_Z ((20148 + day) * 86400000).

End Days.

(** * Personal codes: [generarCodigoPersonal], [verificarCodigoUnico],
      [generarCodigoUnico]

    [random] gives the successive results of [Math.random()]; a computation
    carries the number of results it has consumed.  The users are those
    [db.getAll('usuarios')] returns during the call. *)

Module PersonalCode.

Local Open Scope string_scope.

Definition caracteres : string :=
  "ABCDEFGHIJKLMNOPQRSTUVWXYZabcdefghijklmnopqrstuvwxyz0123456789!@#$%&*".

(** [s.charAt(i)]: the empty string when [i] is out of range. *)
Definition charAt (s : string) (i : Z) : string :=
  if (i <? 0)%Z then ""
  else match String.get (Z.to_nat i) s with
       | Some c => String c ""
       | None => ""
       end.

Record usuario : Type := { codigoPersonal : option string }.

Definition truthy (s : string) : bool :=
  match s with
  | EmptyString => false
  | _ => true
  end.

(** [!usuarios.some(u => u.codigoPersonal && u.codigoPersonal === codigo)] *)
Definition verificarCodigoUnico (usuarios : list usuario) (codigo : string) : bool :=
  negb (existsb (fun u => match codigoPersonal u with
                          | Some c => truthy c && String.eqb c codigo
                          | None => false
                          end) usuarios).

Section WithRandom.

Variable random : nat -> Q.

(** The [for] loop of [generarCodigoPersonal] with [n] turns to go. *)
Fixpoint append_chars (n : nat) (codigo : string) (used : nat) : string * nat :=
  match n with
  | O => (codigo, used)
  | S n' =>
      let index := Qfloor (random used * inject_Z (Z.of_nat (String.length caracteres))) in
      append_chars n' (codigo ++ charAt caracteres index) (S used)
  end.

Definition generarCodigoPersonal (used : nat) : string * nat := append_chars 4 "" used.

(** The [do ... while] loop; [None] when the fuel runs out before the loop
    ends, which 101 turns never do. *)
Fixpoint do_while (fuel : nat) (usuarios : list usuario) (intentos : Z) (used : nat)
    : option (string + string) :=
  match fuel with
  | O => None
  | S fuel' =>
      let '(codigo, used) := generarCodigoPersonal used in
      let intentos := (intentos + 1)%Z in
      if (100 <? intentos)%Z then
        Some (inl "No se pudo generar un código único después de 100 intentos")
      else if negb (verificarCodigoUnico usuarios codigo) then
        do_while fuel' usuarios intentos used
      else Some (inr codigo)
  end.

(** [generarCodigoUnico()]: the code, or the message of the error thrown. *)
Definition generarCodigoUnico (usuarios : list usuario) : option (string + string) :=
  do_while 101 usuarios 0 0.

(** *** Vocabulary *)

(** The candidate of turn [i], counted from 0. *)
Definition candidate (i : nat) : string := fst (generarCodigoPersonal (4 * i)).

End WithRandom.

(** Every character of [s] is one of [caracteres]. *)
Definition well_formed (s : string) : Prop :=
  String.length s = 4%nat
  /\ forall c, In c (list_ascii_of_string s) -> In c (list_ascii_of_string caracteres).

(** A generator that goes round the tenths, and two users who hold the
    first two candidates. *)
Definition tenths (k : nat) : Q := inject_Z (Z.of_nat (k mod 10)) / 10.

End PersonalCode.

(** * Session tokens: [Auth.generateToken], [Auth.validateToken],
      [Auth.isAuthenticated]

    A token is [btoa] of the JSON text of its payload.  [encode] is
    [btoa(JSON.stringify(payload))], which throws when the text has a
    character outside Latin-1 ([None]); [decode] is [JSON.parse(atob(token))],
    [None] when either throws.  The payloads of the model hold a whole number
    of milliseconds in [exp], or nothing; a property the user lacks is [None]
    and is left out of the JSON text.  Times are those of [Date.now()]. *)

Module AuthToken.

Record user : Type := {
  id : option Z;
  email : option string;
  rol : option string
}.

Record payload : Type := {
  payload_id : option Z;
  payload_email : option string;
  payload_rol : option string;
  exp : option Z
}.

(** [8 * 60 * 60 * 1000] *)
Definition tokenExpiry : Z := 8 * 60 * 60 * 1000.

Section WithCodec.

Variable encode : payload -> option string.
Variable decode : string -> option payload.

Definition generateToken (u : user) (now : Z) : option string :=
  encode {| payload_id := id u; payload_email := email u; payload_rol := rol u;
            exp := Some (now + tokenExpiry)%Z |}.

(** [payload.exp && payload.exp > Date.now()] decides; whatever is thrown
    is caught and gives [null]. *)
Definition validateToken (token : string) (now : Z) : option payload :=
  match decode token with
  | None => None
  | Some p =>
      match exp p with
      | None => None
      | Some e => if negb (e =? 0)%Z && (now <? e)%Z then Some p else None
      end
  end.

(** [localStorage.getItem('auth_token')] is [stored]. *)
Definition isAuthenticated (stored : option string) (now : Z) : bool :=
  match stored with
  | None | Some EmptyString => false
  | Some token =>
      match validateToken token now with
      | Some _ => true
      | None => false
      end
  end.

End WithCodec.

(** A codec for the samples: it encodes the payloads of the user 1, an
    administrator without email, as the decimal numeral of [exp], and throws
    on every other payload. *)
Definition sample_encode (p : payload) : option string :=
  match payload_id p, payload_email p, payload_rol p, exp p with
  | Some i, None, Some r, Some e =>
      if (i =? 1)%Z && String.eqb r "admin" then Some (string_of_Z e) else None
  | _, _, _, _ => None
  end.

Definition sample_decode (token : string) : option payload :=
  match NilZero.int_of_string token with
  | Some i => Some {| payload_id := Some 1%Z; payload_email := None;
                      payload_rol := Some "admin"%string; exp := Some (Z.of_int i) |}
  | None => None
  end.

End AuthToken.

(** * Reminders: [checkAdminReminders], [checkUserReminders]

    [localStorage] is a function from keys to the strings stored under them.
    [parseInt] and the parsing of a date string by [new Date] are those of
    the browser: [None] stands for [NaN], an invalid date.  A solicitud is a
    record of the store; a property it lacks is [None], its key [id] is a
    number. *)

Module Reminders.

Local Open Scope string_scope.

Definition storage : Type := string -> option string.

Definition getItem (key : string) (st : storage) : option string := st key.
Definition setItem (key value : string) (st : storage) : storage :=
  fun k => if String.eqb k key then Some value else st k.

Record solicitud : Type := {
  id : Z;
  usuarioId : option Z;
  estado : option string;
  tipo : option string;
  fechaActualizacion : option string
}.

(** [showNotification(message, type, duration)] *)
Record notification : Type := { message : string; kind : string; duration : Z }.

Definition is_string (v : option string) (text : string) : bool :=
  match v with
  | Some s => String.eqb s text
  | None => false
  end.

(** A stored string is truthy when it is there and not empty. *)
Definition truthy (v : option string) : bool :=
  match v with
  | None | Some EmptyString => false
  | Some _ => true
  end.

Definition numeral (n : nat) : string := NilZero.string_of_uint (Nat.to_uint n).

(** The members that an object literal inherits, as the engines print them
    in a template literal. *)
Definition inherited (name : string) : option string :=
  if existsb (String.eqb name)
       ["constructor"; "hasOwnProperty"; "isPrototypeOf"; "propertyIsEnumerable";
        "toLocaleString"; "toString"; "valueOf"; "__defineGetter__";
        "__defineSetter__"; "__lookupGetter__"; "__lookupSetter__"]
  then Some ("function " ++ (if String.eqb name "constructor" then "Object" else name)
             ++ "() { [native code] }")
  else if String.eqb name "__proto__" then Some "[object Object]"
  else None.

Section WithBrowser.

Variable parseInt : string -> option Z.
Variable parseDate : string -> option Z.

(** [(now - parseInt(lastReminder)) > 60 * 60 * 1000] *)
Definition hour_passed (now : Z) (lastReminder : option string) : bool :=
  match lastReminder with
  | Some s =>
      match parseInt s with
      | Some last => (60 * 60 * 1000 <? now - last)%Z
      | None => false
      end
  | None => false
  end.

Definition checkAdminReminders (solicitudes : list solicitud) (now : Z) (st : storage)
    : list notification * storage :=
  let pendientes := filter (fun s => is_string (estado s) "pendiente") solicitudes in
  if (0 <? List.length pendientes)%nat then
    let lastReminder := getItem "last-admin-reminder" st in
    if negb (truthy lastReminder) || hour_passed now lastReminder then
      ([if (List.length pendientes =? 1)%nat
        then {| message := "Tienes 1 solicitud pendiente de revisión";
                kind := "info"; duration := 5000 |}
        else {| message := "Tienes " ++ numeral (List.length pendientes)
                           ++ " solicitudes pendientes de revisión";
                kind := "info"; duration := 5000 |}],
       setItem "last-admin-reminder" (string_of_Z now) st)
    else ([], st)
  else ([], st).

(** [labels[tipo] || tipo] in a template literal.  [labels] is an object
    literal: a name it does not define is looked up among the members every
    object inherits, which are functions, and [__proto__], which is an
    object. *)
Definition getTipoLabel (tipo : option string) : string :=
  let key := match tipo with Some t => t | None => "undefined" end in
  if String.eqb key "permiso" then "permiso"
  else if String.eqb key "vacaciones" then "vacaciones"
  else if String.eqb key "otra" then "otra solicitud"
  else match inherited key with
       | Some text => text
       | None => key
       end.

(** [new Date(s.fechaActualizacion) > new Date(Date.now() - 24 * 60 * 60 * 1000)] *)
Definition updated_in_last_day (now : Z) (s : solicitud) : bool :=
  match fechaActualizacion s with
  | Some f =>
      truthy (Some f)
      && match parseDate f with
         | Some t => (now - 24 * 60 * 60 * 1000 <? t)%Z
         | None => false
         end
  | None => false
  end.

Definition reminderKey (s : solicitud) : string := "reminder-aprobada-" ++ string_of_Z (id s).

(** One turn of [aprobadas.forEach]; the solicitudes announced so far are
    kept next to the notifications. *)
Definition announce (acc : list (solicitud * notification) * storage) (s : solicitud)
    : list (solicitud * notification) * storage :=
  let '(shown, st) := acc in
  if negb (truthy (getItem (reminderKey s) st)) then
    ((shown ++ [(s, {| message := "Tu solicitud de " ++ getTipoLabel (tipo s)
                                  ++ " ha sido aprobada! 🎉";
                       kind := "success"; duration := 6000 |})])%list,
     setItem (reminderKey s) "true" st)
  else (shown, st).

Definition checkUserReminders (user_id : option Z) (solicitudes : list solicitud)
    (now : Z) (st : storage) : list (solicitud * notification) * storage :=
  let userSolicitudes :=
    filter (fun s => match usuarioId s, user_id with
                     | Some a, Some b => (a =? b)%Z
                     | None, None => true
                     | _, _ => false
                     end) solicitudes in
  let aprobadas :=
    filter (fun s => is_string (estado s) "aprobada" && updated_in_last_day now s)
           userSolicitudes in
  fold_left announce aprobadas ([], st).

(** *** Vocabulary: runs of checks *)

(** The checks of the administrator at the given times, one after the
    other; the result tells at which times a reminder was shown. *)
Fixpoint admin_run (checks : list (list solicitud * Z)) (st : storage) : list Z :=
  match checks with
  | [] => []
  | (solicitudes, now) :: rest =>
      let '(shown, st') := checkAdminReminders solicitudes now st in
      (map (fun _ => now) shown ++ admin_run rest st')%list
  end.

(** The checks of a user, one after the other; the result lists the keys of
    the solicitudes announced. *)
Fixpoint user_run (user_id : option Z) (checks : list (list solicitud * Z)) (st : storage)
    : list Z :=
  match checks with
  | [] => []
  | (solicitudes, now) :: rest =>
      let '(shown, st') := checkUserReminders user_id solicitudes now st in
      (map (fun sn => id (fst sn)) shown ++ user_run user_id rest st')%list
  end.

End WithBrowser.

(** Every two consecutive times of the list are more than an hour apart. *)
Fixpoint hour_apart (times : list Z) : Prop :=
  match times with
  | a :: (b :: _) as rest => (60 * 60 * 1000 < b - a)%Z /\ hour_apart rest
  | _ => True
  end.

(** The storage holds the mark of the solicitud with key [i]. *)
Definition marked (st : storage) (i : Z) : bool :=
  truthy (getItem ("reminder-aprobada-" ++ string_of_Z i) st).

(** [parseInt] on the decimal numerals. *)
Definition parse_decimal (s : string) : option Z :=
  option_map Z.of_int (NilZero.int_of_string s).

Definition empty_storage : storage := fun _ => None.

Definition pending (key : Z) : solicitud :=
  {| id := key; usuarioId := Some 4%Z; estado := Some "pendiente";
     tipo := Some "permiso"; fechaActualizacion := None |}.

Definition approved (key : Z) : solicitud :=
  {| id := key; usuarioId := Some 4%Z; estado := Some "aprobada";
     tipo := Some "vacaciones"; fechaActualizacion := Some "1000" |}.

End Reminders.

(** * Templates of requests: [Templates.saveTemplate], [getAll],
      [getByType], [deleteTemplate], [applyTemplateById]

    The templates are kept in [localStorage] under one key as a JSON text.
    [stringify] and [parse] are [JSON.stringify] and [JSON.parse] on lists of
    templates; [parse] is [None] when it throws or gives something else than
    a list of templates, and a call that meets it throws ([None]).  The time
    of [Date.now()] and the two time stamps are given to [saveTemplate]; the
    answer of the user to [confirm] is given to [deleteTemplate].  What the
    functions write into the page is left out. *)

Module TemplateStore.

Local Open Scope string_scope.

Record formData : Type := {
  form_tipo : option string;
  fields : list (string * string)
}.

Record template : Type := {
  id : Z;
  name : string;
  tipo : option string;
  data : formData;
  fechaCreacion : string;
  fechaActualizacion : string
}.

Section WithJSON.

Variable stringify : list template -> string.
Variable parse : string -> option (list template).

(** [stored ? JSON.parse(stored) : []] on [localStorage.getItem(storageKey)] *)
Definition getAll (stored : option string) : option (list template) :=
  match stored with
  | None | Some EmptyString => Some []
  | Some s => parse s
  end.

(** The template made and the text stored. *)
Definition saveTemplate (name : string) (formData : formData) (now : Z)
    (created updated : string) (stored : option string) : option (template * option string) :=
  match getAll stored with
  | None => None
  | Some templates =>
      let template := {| id := now; name := name; tipo := form_tipo formData;
                         data := formData; fechaCreacion := created;
                         fechaActualizacion := updated |} in
      Some (template, Some (stringify (templates ++ [template])))
  end.

Definition same_tipo (a b : option string) : bool :=
  match a, b with
  | Some x, Some y => String.eqb x y
  | None, None => true
  | _, _ => false
  end.

Definition getByType (tipo_ : option string) (stored : option string)
    : option (list template) :=
  match getAll stored with
  | None => None
  | Some templates => Some (filter (fun t => same_tipo (tipo t) tipo_) templates)
  end.

(** The text stored afterwards and the notifications shown. *)
Definition deleteTemplate (id_ : Z) (confirmed : bool) (stored : option string)
    : option (option string * list string) :=
  if negb confirmed then Some (stored, [])
  else
    match getAll stored with
    | None => None
    | Some all =>
        let templates := filter (fun t => negb (id t =? id_)%Z) all in
        Some (Some (stringify templates), ["Plantilla eliminada"])
    end.

(** The template applied, if one is found, and the notification shown. *)
Definition applyTemplateById (id_ : Z) (stored : option string)
    : option (option (template * string)) :=
  match getAll stored with
  | None => None
  | Some all =>
      match find (fun t => (id t =? id_)%Z) all with
      | Some t => Some (Some (t, "Plantilla " ++ String "034" (name t)
                                  ++ String "034" " aplicada"))
      | None => Some None
      end
  end.

End WithJSON.

(** A storage text for the samples: the decimal numeral of the number of
    templates, read back as that many copies of one template. *)
Definition sample_template : template :=
  {| id := 1700000000000; name := "Vacaciones de verano"; tipo := Some "vacaciones";
     data := {| form_tipo := Some "vacaciones"; fields := [("observaciones", "Playa")] |};
     fechaCreacion := "2023-11-14T22:13:20.000Z";
     fechaActualizacion := "2023-11-14T22:13:20.000Z" |}.

Definition sample_stringify (l : list template) : string :=
  NilZero.string_of_uint (Nat.to_uint (List.length l)).

Definition sample_parse (s : string) : option (list template) :=
  match NilZero.uint_of_string s with
  | Some n => Some (repeat sample_template (Nat.of_uint n))
  | None => None
  end.

End TemplateStore.

(** * Codes of the comunicados: [getCodigoConfig], [getSubcodigos],
      [generateComunicadoCode]

    The two tables of the class are objects used as maps: a list of keys and
    values, looked up by key.  The keys asked for are those of the forms, not
    names that every object inherits.  The year of [new Date()] and the
    comunicados the two queries of the database return are given to
    [generateComunicadoCode]. *)

Module ComunicadoCode.

Local Open Scope string_scope.

Record categoria : Type := {
  nombre : string;
  subcodigos : list (string * string)
}.

Record config : Type := {
  codigoBase : string;
  categorias : list (string * categoria)
}.

Record comunicado : Type := {
  codigo : option string;
  fecha : option string
}.

(** [obj[key]] *)
Fixpoint lookup {A} (key : string) (obj : list (string * A)) : option A :=
  match obj with
  | [] => None
  | (k, v) :: rest => if String.eqb k key then Some v else lookup key rest
  end.

Definition truthy (s : string) : bool :=
  match s with
  | EmptyString => false
  | _ => true
  end.

(** [String(n)] for a length *)
Definition numeral (n : nat) : string := NilZero.string_of_uint (Nat.to_uint n).

Fixpoint zeros (n : nat) : string :=
  match n with
  | O => ""
  | S n' => String "0" (zeros n')
  end.

(** [s.padStart(3, '0')] *)
Definition padStart3 (s : string) : string := zeros (3 - String.length s) ++ s.

(** What [getSubcodigos] returns when it does not return [null]. *)
Inductive subcodigoInfo : Type :=
| Subcodigo (subcodigo : string)
| RequiereSubcategoria (subcodigos : list (string * string)).

Section WithTables.

Variable codigosComunicados : list (string * config).
Variable mapeoDepartamentos : list (string * string).

Definition getCodigoConfig (departamento : string) : option config :=
  let deptKey :=
    match lookup departamento mapeoDepartamentos with
    | Some k => if truthy k then k else departamento
    | None => departamento
    end in
  lookup deptKey codigosComunicados.

Definition getSubcodigos (departamento categoria tipo : string) : option subcodigoInfo :=
  match getCodigoConfig departamento with
  | None => None
  | Some config =>
      match lookup categoria (categorias config) with
      | None => None
      | Some categoriaData =>
          match lookup tipo (subcodigos categoriaData) with
          | Some s =>
              if truthy s then Some (Subcodigo s)
              else Some (RequiereSubcategoria (subcodigos categoriaData))
          | None => Some (RequiereSubcategoria (subcodigos categoriaData))
          end
      end
  end.

(** [!subcategoria || !subcodigos[subcategoria]] decides; the subcódigo of
    the subcategory otherwise. *)
Definition subcodigo_of_subcategoria (subcodigos : list (string * string))
    (subcategoria : option string) : Batch.exn + string :=
  match subcategoria with
  | None => inl (Batch.Error "Se requiere una subcategoría para esta categoría")
  | Some sub =>
      if truthy sub then
        match lookup sub subcodigos with
        | Some s =>
            if truthy s then inr s
            else inl (Batch.Error "Se requiere una subcategoría para esta categoría")
        | None => inl (Batch.Error "Se requiere una subcategoría para esta categoría")
        end
      else inl (Batch.Error "Se requiere una subcategoría para esta categoría")
  end.

Definition includes_key (key : string) (obj : list (string * string)) : bool :=
  existsb (fun kv => String.eqb (fst kv) key) obj.

(** The part of [generateComunicadoCode] that finds the subcódigo. *)
Definition subcodigo_for (config : config) (departamento categoria tipo : string)
    (subcategoria : option string) : Batch.exn + string :=
  let subcodigoInfo :=
    if truthy tipo then getSubcodigos departamento categoria tipo else None in
  match subcodigoInfo with
  | None =>
      match lookup categoria (categorias config) with
      | None => inl (Batch.cannot_read "subcodigos")
      | Some categoriaData =>
          let subcodigos := subcodigos categoriaData in
          if (0 <? List.length subcodigos)%nat
             && negb (includes_key "interno" subcodigos)
             && negb (includes_key "externo" subcodigos)
          then subcodigo_of_subcategoria subcodigos subcategoria
          else inl (Batch.Error "No se pudo obtener la configuración de subcódigo")
      end
  | Some (RequiereSubcategoria subcodigos) =>
      subcodigo_of_subcategoria subcodigos subcategoria
  | Some (Subcodigo s) => inr s
  end.

(** [c.fecha.startsWith(year.toString())] under [filter], which throws on a
    comunicado without [fecha]. *)
Fixpoint count_of_year (year : string) (comunicados : list comunicado) : Batch.exn + nat :=
  match comunicados with
  | [] => inr 0%nat
  | c :: rest =>
      match fecha c with
      | None => inl (Batch.cannot_read "startsWith")
      | Some f =>
          match count_of_year year rest with
          | inl e => inl e
          | inr n => inr (if String.prefix year f then S n else n)
          end
      end
  end.

(** [c.codigo && c.codigo.startsWith(codigoBase)] *)
Definition matches_base (codigoBase : string) (c : comunicado) : bool :=
  match codigo c with
  | Some cd => truthy cd && String.prefix codigoBase cd
  | None => false
  end.

Definition generateComunicadoCode (departamento categoria tipo : string)
    (subcategoria : option string) (year : Z)
    (ofDepartamento allComunicados : list comunicado) : Batch.exn + string :=
  match getCodigoConfig departamento with
  | None =>
      match count_of_year (string_of_Z year) ofDepartamento with
      | inl e => inl e
      | inr n =>
          let nextNumber := padStart3 (numeral (n + 1)) in
          inr (departamento ++ "-" ++ string_of_Z year ++ "-" ++ nextNumber)
      end
  | Some config =>
      match subcodigo_for config departamento categoria tipo subcategoria with
      | inl e => inl e
      | inr subcodigo =>
          let codigoBase := codigoBase config ++ "-" ++ subcodigo in
          let matchingComunicados := filter (matches_base codigoBase) allComunicados in
          let nextNumber := padStart3 (numeral (List.length matchingComunicados + 1)) in
          inr (codigoBase ++ "-" ++ nextNumber)
      end
  end.

End WithTables.

(** *** Vocabulary and samples *)

(** The stored codes that start with [codigoBase] are numbered, with three
    digits or more, by numbers up to how many they are. *)
Definition numbered_up_to_count (codigoBase : string) (comunicados : list comunicado)
    : Prop :=
  forall c, In c (filter (matches_base codigoBase) comunicados) ->
    exists k, (k <= List.length (filter (matches_base codigoBase) comunicados))%nat
              /\ codigo c = Some (codigoBase ++ "-" ++ padStart3 (numeral k)).

Definition gerencia : list (string * config) :=
  [("GG", {| codigoBase := "DG-100";
             categorias :=
               [("memorando", {| nombre := "Memorando";
                                 subcodigos := [("interno", "2.1"); ("externo", "2.2")] |})]
          |})].

Definition mapeo : list (string * string) := [("GG", "GG")].

Definition two_memos : list comunicado :=
  [{| codigo := Some "DG-100-2.1-002"; fecha := Some "2025-02-01T10:00:00.000Z" |};
   {| codigo := Some "DG-100-2.2-001"; fecha := Some "2025-01-20T10:00:00.000Z" |};
   {| codigo := Some "DG-100-2.1-001"; fecha := Some "2025-01-15T10:00:00.000Z" |}].

End ComunicadoCode.

(** * The search of the batch caller *)

Module BatchSearch.
Import Batch.

(** The session may see the comunicado and the filters that are set accept
    it. *)
Definition passes_filters (s : session) (c : comunicado) : bool :=
  (negb (negb (isAdmin s))
   || (strict_eq (departamento c) (user_departamento s)
       || strict_eq (tipo c) (Some "externo"%string)))
  && (negb (truthy (filter_departamento s))
      || strict_eq (departamento c) (Some (filter_departamento s)))
  && (negb (truthy (filter_tipo s))
      || strict_eq (tipo c) (Some (filter_tipo s))).

(** A comunicado as the form of the application stores it: with [asunto],
    and without [titulo]. *)
Definition from_the_form : comunicado :=
  {| codigo := Some "DG-100-2.1-001"%string; tipo := Some "interno"%string;
     departamento := Some "ADM"%string; titulo := None;
     contenido := Some "Texto"%string |}.

Definition searching (text : string) : session :=
  {| isAdmin := true; user_departamento := Some "ADM"%string;
     filter_departamento := ""%string; filter_tipo := ""%string;
     search_comunicados := text |}.

End BatchSearch.

(** * Properties *)

(** ** Facts about the numbers *)

Section NumFacts.

Lemma Qis_zero_false (a : Q) : ~ a == 0 -> Qis_zero a = false.
Proof.
  intros H. unfold Qis_zero. destruct (Qeq_bool a 0) eqn:E; [|reflexivity].
  apply Qeq_bool_eq in E. contradiction.
Qed.

Lemma Qis_zero_true (a : Q) : a == 0 -> Qis_zero a = true.
Proof. intros H. unfold Qis_zero. now apply Qeq_eq_bool. Qed.

Lemma Qle_bool_true (a b : Q) : a <= b -> Qle_bool a b = true.
Proof. intros H. now apply Qle_bool_iff. Qed.

Lemma jdiv_Fin (a b : Q) : ~ b == 0 -> jdiv (Fin a) (Fin b) = Fin (a / b).
Proof. intros H. simpl. now rewrite Qis_zero_false. Qed.


End NumFacts.

(** ** The page loop *)

Section LoopFacts.
Import ExportPdf ExportSpec.

Variables pageWidth pageHeight : Q.
Variable html2canvas : container -> canvas.

Let page_body := page_body pageWidth pageHeight.
Let page_loop := page_loop pageWidth pageHeight.
Let totalPages := totalPages pageHeight.
Let next_position := next_position pageHeight.
Let page_images := page_images pageWidth pageHeight.
Let gen_pages := gen_pages pageWidth pageHeight.
Let gen_rasters := gen_rasters pageHeight.
Let plan := plan pageHeight.
Let iterate := iterate pageWidth pageHeight.

(** The loop body changes each component of the state independently. *)
Lemma page_body_fields wr m p s :
  bodyYPosition (page_body wr m p s) = next_position m (bodyYPosition s)
  /\ slices (page_body wr m p s)
     = slices s ++ [(bodyYPosition s, next_position m (bodyYPosition s))]
  /\ rasterized (page_body wr m p s) = rasterized s ++ gen_rasters wr m 1 p
  /\ doc (page_body wr m p s)
     = (let d := if (1 <? p)%Z then pdf_addPage (doc s) else doc s in
        {| finished := finished d;
           current := current d ++ page_images wr m p (bodyYPosition s) |}).
Proof.
  subst page_body page_images next_position gen_rasters.
  destruct s as [[fin cur] r b sl].
  unfold ExportPdf.page_body, ExportSpec.page_images, ExportSpec.next_position,
    ExportSpec.gen_rasters, ExportPdf.page_body, draw_header, draw_content, draw_footer.
  destruct (headerElement wr) as [e|], (footerImgData m) as [f|],
    (int_eq p (ExportPdf.totalPages pageHeight m)), (1 <? p)%Z;
  unfold on_doc, log_raster, end_slice, pdf_addImage, pdf_addPage, new_jsPDF;
  cbn [doc rasterized bodyYPosition slices finished current];
  match goal with
  | |- context [jgt ?a ?b] => destruct (jgt a b)
  end;
  cbn [doc rasterized bodyYPosition slices finished current app];
  rewrite ?app_nil_r, <- ?app_assoc; cbn [app]; repeat split; reflexivity.
Qed.


Lemma iterate_slices wr m k : forall p s,
  slices (iterate wr m k p s) = slices s ++ plan m k (bodyYPosition s).
Proof.
  induction k as [|k IH]; intros p s; simpl.
  - now rewrite app_nil_r.
  - subst iterate; simpl. fold (ExportSpec.iterate pageWidth pageHeight wr m k).
    rewrite IH. destruct (page_body_fields wr m p s) as (Hb & Hs & _).
    fold page_body. rewrite Hb, Hs, <- app_assoc. reflexivity.
Qed.

Lemma iterate_rasterized wr m k : forall p s,
  rasterized (iterate wr m k p s) = rasterized s ++ gen_rasters wr m k p.
Proof.
  induction k as [|k IH]; intros p s.
  - simpl. now rewrite app_nil_r.
  - change (iterate wr m (S k) p s) with (iterate wr m k (p + 1)%Z (page_body wr m p s)).
    rewrite IH. destruct (page_body_fields wr m p s) as (_ & _ & Hr & _).
    rewrite Hr, <- app_assoc. f_equal.
    subst gen_rasters. simpl. now rewrite app_nil_r.
Qed.

(** After the first page every iteration opens a page of its own. *)
Lemma iterate_pages_later wr m k : forall p s, (1 < p)%Z ->
  pages (doc (iterate wr m k p s))
  = pages (doc s) ++ gen_pages wr m k p (bodyYPosition s).
Proof.
  induction k as [|k IH]; intros p s Hp.
  - simpl. now rewrite app_nil_r.
  - change (iterate wr m (S k) p s) with (iterate wr m k (p + 1)%Z (page_body wr m p s)).
    rewrite IH by lia.
    destruct (page_body_fields wr m p s) as (Hb & _ & _ & Hd).
    rewrite Hb, Hd. apply Z.ltb_lt in Hp. rewrite Hp.
    unfold pages, pdf_addPage. cbn [finished current app].
    rewrite <- app_assoc. reflexivity.
Qed.

(** The first iteration draws on the page the document is created with. *)
Lemma iterate_pages_first wr m k s :
  pages (doc (iterate wr m (S k) 1 s))
  = finished (doc s)
    ++ (current (doc s) ++ page_images wr m 1 (bodyYPosition s))
    :: gen_pages wr m k 2 (next_position m (bodyYPosition s)).
Proof.
  change (iterate wr m (S k) 1 s) with (iterate wr m k 2 (page_body wr m 1 s)).
  rewrite iterate_pages_later by lia.
  destruct (page_body_fields wr m 1 s) as (Hb & _ & _ & Hd).
  rewrite Hb, Hd. unfold pages. cbn [Z.ltb Z.compare finished current].
  rewrite <- app_assoc. reflexivity.
Qed.

(** With a finite page count the loop runs once per page and stops. *)
Lemma page_loop_finite wr m n : totalPages m = Fin n ->
  forall k fuel p s, (p + Z.of_nat k = n + 1)%Z -> (k <= fuel)%nat ->
  page_loop wr m fuel p s = Some (iterate wr m k p s).
Proof.
  intros Hn. induction k as [|k IH]; intros fuel p s Hp Hf.
  - destruct fuel; simpl; subst page_loop totalPages; simpl;
      rewrite Hn; simpl; replace (p <=? n)%Z with false
        by (symmetry; apply Z.leb_gt; lia); reflexivity.
  - destruct fuel as [|fuel]; [lia|].
    subst page_loop totalPages. simpl. rewrite Hn. simpl.
    replace (p <=? n)%Z with true by (symmetry; apply Z.leb_le; lia).
    apply IH; lia.
Qed.


End LoopFacts.

(** ** The export as a whole *)

Section ExportFacts.
Import ExportPdf ExportSpec.

Variables pageWidth pageHeight : Q.
Variable html2canvas : container -> canvas.

Let measure := measure pageWidth html2canvas.
Let totalPages := totalPages pageHeight.
Let exportComunicadoPDF := exportComunicadoPDF pageWidth pageHeight html2canvas.
Let gen_pages := gen_pages pageWidth pageHeight.
Let gen_rasters := gen_rasters pageHeight.
Let plan := plan pageHeight.
Let contentHeightPerPage := contentHeightPerPage pageHeight.

Lemma measure_state wr :
  snd (measure wr)
  = {| doc := new_jsPDF; rasterized := initial_rasters wr;
       bodyYPosition := Fin 0; slices := [] |}.
Proof.
  subst measure. unfold ExportPdf.measure, initial_rasters.
  destruct (footerElement wr); reflexivity.
Qed.

Lemma measure_footer wr :
  footerImgData (fst (measure wr))
  = if footerElement wr then Some (RasterOf (footerContainer wr)) else None.
Proof.
  subst measure. unfold ExportPdf.measure. destruct (footerElement wr); reflexivity.
Qed.

Lemma totalPages_ge_1 m n : totalPages m = Fin n -> (1 <= n)%Z.
Proof.
  subst totalPages. unfold ExportPdf.totalPages.
  destruct (jceil _) as [z| | |]; simpl; intros H; inversion H; lia.
Qed.

(** A rendered document with a finite page count is exported in full as
    soon as the fuel covers its pages. *)
Lemma export_finite wr codigo n :
  totalPages (fst (measure wr)) = Fin n ->
  forall fuel, (Z.to_nat n <= fuel)%nat ->
  exportComunicadoPDF fuel (rendered_dom wr) codigo
  = Some {| res_outcome :=
              Saved (file_name codigo) (gen_pages wr (fst (measure wr)) (Z.to_nat n) 1 (Fin 0));
            res_rasterized :=
              initial_rasters wr ++ gen_rasters wr (fst (measure wr)) (Z.to_nat n) 1;
            res_slices := plan (fst (measure wr)) (Z.to_nat n) (Fin 0) |}.
Proof.
  intros Hn fuel Hf. pose proof (totalPages_ge_1 _ Hn) as H1.
  subst exportComunicadoPDF. unfold ExportPdf.exportComunicadoPDF, rendered_dom.
  cbn [jsPDF_loaded documentoElement rendered documentoWrapper negb].
  pose proof (measure_state wr) as Hs. subst measure.
  destruct (ExportPdf.measure pageWidth html2canvas wr) as [m s] eqn:Em.
  cbn [fst snd] in *. subst s.
  rewrite (@page_loop_finite pageWidth pageHeight wr m n Hn (Z.to_nat n)) by lia.
  destruct (Z.to_nat n) as [|k] eqn:Ek; [lia|].
  rewrite iterate_pages_first, iterate_slices, iterate_rasterized.
  reflexivity.
Qed.


End ExportFacts.

(** ** The pagination plan *)

Section PlanFacts.
Import ExportPdf ExportSpec.

Variable pageHeight : Q.

Let totalPages := totalPages pageHeight.
Let contentHeightPerPage := contentHeightPerPage pageHeight.
Let next_position := next_position pageHeight.
Let position_after := position_after pageHeight.
Let plan := plan pageHeight.


Lemma plan_length m k : forall pos, List.length (plan m k pos) = k.
Proof. induction k as [|k IH]; intros pos; simpl; [|rewrite IH]; reflexivity. Qed.


End PlanFacts.

(** ** What one iteration draws *)

Section PageFacts.
Import ExportPdf ExportSpec.

Variables pageWidth pageHeight : Q.

Let page_images := page_images pageWidth pageHeight.
Let gen_pages := gen_pages pageWidth pageHeight.
Let totalPages := totalPages pageHeight.
Let next_position := next_position pageHeight.
Let position_after := position_after pageHeight.

Variable wr : wrapper.
Variable m : measures.

(** The footer image is the raster of the footer region, as [measure] sets it. *)
Hypothesis Hfooter :
  footerImgData m
  = if footerElement wr then Some (RasterOf (footerContainer wr)) else None.

Ltac open_page_images :=
  subst page_images; unfold ExportSpec.page_images, ExportPdf.page_body,
    draw_header, draw_content, draw_footer;
  rewrite Hfooter;
  unfold on_doc, log_raster, end_slice, pdf_addImage, pdf_addPage, new_jsPDF;
  cbn [doc rasterized bodyYPosition slices finished current].

Ltac page_cases p :=
  destruct (headerElement wr) as [e|], (footerElement wr),
    (int_eq p (ExportPdf.totalPages pageHeight m)), (1 <? p)%Z;
  cbn [doc rasterized bodyYPosition slices finished current];
  match goal with
  | |- context [jgt ?a ?b] => destruct (jgt a b) eqn:E
  end;
  cbn [doc rasterized bodyYPosition slices finished current app].


(** The footer is drawn exactly on the page whose number is [totalPages],
    when the document has a footer region. *)
Lemma page_images_footer p pos :
  has_footer (page_images wr m p pos)
  = footerElement wr && int_eq p (totalPages m).
Proof.
  open_page_images. subst totalPages.
  unfold has_footer, is_footer_image, headerContainerUpdated, footerContainer.
  page_cases p; destruct (titleElement wr), (infoElement wr); reflexivity.
Qed.

(** With a header region the first image of the page is the header,
    rasterized again with the counter of this page and drawn at full height. *)
Lemma page_images_header e p pos :
  headerElement wr = Some e ->
  exists rest,
    page_images wr m p pos
    = {| imageData := RasterOf (headerContainerUpdated wr e p (totalPages m));
         x := margin; y := margin; w := usableWidth pageWidth;
         h := headerHeightMM m |} :: rest.
Proof.
  intros He. open_page_images. rewrite He. subst totalPages.
  destruct (footerElement wr), (int_eq p (ExportPdf.totalPages pageHeight m)), (1 <? p)%Z;
  cbn [doc rasterized bodyYPosition slices finished current];
  match goal with
  | |- context [jgt ?a ?b] => destruct (jgt a b) eqn:E
  end;
  cbn [doc rasterized bodyYPosition slices finished current app];
  eexists; reflexivity.
Qed.

(** Without a header region no page carries a header image. *)
Lemma page_images_no_header p pos :
  headerElement wr = None ->
  forall i, In i (page_images wr m p pos) -> counter_of i = None.
Proof.
  intros He. open_page_images. rewrite He.
  destruct (footerElement wr), (int_eq p (ExportPdf.totalPages pageHeight m)), (1 <? p)%Z;
  cbn [doc rasterized bodyYPosition slices finished current];
  match goal with
  | |- context [jgt ?a ?b] => destruct (jgt a b) eqn:E
  end;
  cbn [doc rasterized bodyYPosition slices finished current app];
  intros i Hi; simpl in Hi; intuition; subst; reflexivity.
Qed.

Lemma gen_pages_length k : forall p pos, List.length (gen_pages wr m k p pos) = k.
Proof. induction k as [|k IH]; intros p pos; simpl; [|rewrite IH]; reflexivity. Qed.

(** Page [i] of a run is what iteration [p + i] draws at its position. *)
Lemma gen_pages_nth k : forall i p pos, (i < k)%nat ->
  nth_error (gen_pages wr m k p pos) i
  = Some (page_images wr m (p + Z.of_nat i) (position_after m i pos)).
Proof.
  induction k as [|k IH]; intros i p pos Hi; [lia|].
  destruct i as [|i].
  - simpl. now rewrite Z.add_0_r.
  - simpl nth_error. subst gen_pages. rewrite IH by lia.
    replace (p + 1 + Z.of_nat i)%Z with (p + Z.of_nat (S i))%Z by lia.
    reflexivity.
Qed.

End PageFacts.
(** ** Rounding to a double *)

Section RoundingFacts.
Import Binary64.

Lemma pow2_pos (e : Z) : 0 < 2 ^ e.
Proof. apply Qpower_0_lt. reflexivity. Qed.

Lemma pow2_add (a b : Z) : 2 ^ (a + b) == 2 ^ a * 2 ^ b.
Proof. apply Qpower_plus. intros H; discriminate H. Qed.

Lemma pow2_le (a b : Z) : (a <= b)%Z -> 2 ^ a <= 2 ^ b.
Proof. intros H. apply Qpower_le_compat_l; [exact H | discriminate]. Qed.

Lemma pow2_lt_inv (a b : Z) : 2 ^ a < 2 ^ b -> (a < b)%Z.
Proof.
  intros H. destruct (Z_lt_le_dec a b) as [L|L]; [exact L|].
  apply pow2_le in L. lra.
Qed.

Lemma pow2_Z (a : Z) : (0 <= a)%Z -> inject_Z (2 ^ a) == 2 ^ a.
Proof. intros H. rewrite Zpower_Qpower by exact H. reflexivity. Qed.

(** On an integer [nearest_even] is the integer itself. *)
Lemma nearest_even_Z (r : Q) (n : Z) : r == inject_Z n -> nearest_even r = n.
Proof.
  intros E. unfold nearest_even.
  assert (Qfloor r = n) as F by (rewrite E; apply Qfloor_Z).
  rewrite F.
  assert (r - inject_Z n < 1 # 2) as L by (rewrite E; lra).
  rewrite Qlt_alt in L. rewrite L. reflexivity.
Qed.

Lemma nearest_even_range (r : Q) :
  (Qfloor r <= nearest_even r <= Qfloor r + 1)%Z.
Proof.
  unfold nearest_even.
  destruct (Qcompare _ _); [destruct (Z.even _)| |]; lia.
Qed.

Lemma nearest_even_mono (r1 r2 : Q) : r1 <= r2 -> (nearest_even r1 <= nearest_even r2)%Z.
Proof.
  intros H. pose proof (Qfloor_resp_le _ _ H) as F.
  destruct (Z.eq_dec (Qfloor r1) (Qfloor r2)) as [E|N].
  - unfold nearest_even. rewrite <- E.
    destruct (Qcompare_spec (r1 - inject_Z (Qfloor r1)) (1 # 2)) as [E1|L1|G1];
    destruct (Qcompare_spec (r2 - inject_Z (Qfloor r1)) (1 # 2)) as [E2|L2|G2];
      try destruct (Z.even (Qfloor r1)); try lia; lra.
  - pose proof (nearest_even_range r1). pose proof (nearest_even_range r2). lia.
Qed.

Lemma nearest_even_ge (r : Q) (n : Z) : inject_Z n <= r -> (n <= nearest_even r)%Z.
Proof.
  intros H. pose proof (nearest_even_mono H) as M.
  rewrite (@nearest_even_Z (inject_Z n) n) in M by reflexivity. exact M.
Qed.

Lemma nearest_even_le (r : Q) (n : Z) : r <= inject_Z n -> (nearest_even r <= n)%Z.
Proof.
  intros H. pose proof (nearest_even_mono H) as M.
  rewrite (@nearest_even_Z (inject_Z n) n) in M by reflexivity. exact M.
Qed.

(** [ilog2] brackets a positive rational between two powers of two. *)
Lemma ilog2_spec (q : Q) : 0 < q -> 2 ^ ilog2 q <= q /\ q < 2 ^ (ilog2 q + 1).
Proof.
  intros Hq. destruct q as [n d]. unfold ilog2. cbn [Qnum Qden].
  assert (0 < n)%Z as Hn.
  { unfold Qlt in Hq. cbn in Hq. lia. }
  set (a := Z.log2 n). set (b := Z.log2 (Z.pos d)).
  assert (0 <= a)%Z as Ha by apply Z.log2_nonneg.
  assert (0 <= b)%Z as Hb by apply Z.log2_nonneg.
  destruct (Z.log2_spec n Hn) as (La & Ua). fold a in La, Ua.
  destruct (Z.log2_spec (Z.pos d) (Pos2Z.is_pos d)) as (Lb & Ub). fold b in Lb, Ub.
  assert (n # d == inject_Z n / inject_Z (Z.pos d)) as Eq by apply Qmake_Qdiv.
  assert (0 < inject_Z (Z.pos d)) as Hd.
  { change 0 with (inject_Z 0). rewrite <- Zlt_Qlt. apply Pos2Z.is_pos. }
  assert (inject_Z n < 2 ^ (a + 1)) as Un.
  { rewrite <- pow2_Z by lia. rewrite <- Zlt_Qlt.
    replace (a + 1)%Z with (Z.succ a) by lia. exact Ua. }
  assert (2 ^ a <= inject_Z n) as Ln.
  { rewrite <- pow2_Z by lia. rewrite <- Zle_Qle. exact La. }
  assert (inject_Z (Z.pos d) < 2 ^ (b + 1)) as Ud.
  { rewrite <- pow2_Z by lia. rewrite <- Zlt_Qlt.
    replace (b + 1)%Z with (Z.succ b) by lia. exact Ub. }
  assert (2 ^ b <= inject_Z (Z.pos d)) as Ld.
  { rewrite <- pow2_Z by lia. rewrite <- Zle_Qle. exact Lb. }
  (* the quotient lies strictly between 2^(a-b-1) and 2^(a-b+1) *)
  assert (2 ^ (a - b - 1) < (n # d)) as Lo.
  { rewrite Eq. apply Qlt_shift_div_l; [exact Hd|].
    apply Qlt_le_trans with (2 ^ (a - b - 1) * 2 ^ (b + 1)).
    - apply Qmult_lt_l; [apply pow2_pos | exact Ud].
    - rewrite <- pow2_add. replace (a - b - 1 + (b + 1))%Z with a by lia. exact Ln. }
  assert ((n # d) < 2 ^ (a - b + 1)) as Hi.
  { rewrite Eq. apply Qlt_shift_div_r; [exact Hd|].
    apply Qlt_le_trans with (2 ^ (a + 1)); [exact Un|].
    replace (a + 1)%Z with (a - b + 1 + b)%Z by lia. rewrite pow2_add.
    apply Qmult_le_l; [apply pow2_pos | exact Ld]. }
  destruct (Qle_bool (2 ^ (a - b)) (n # d)) eqn:E.
  - apply Qle_bool_iff in E. split; [exact E | exact Hi].
  - assert (~ 2 ^ (a - b) <= (n # d)) as E'.
    { intros L. apply Qle_bool_iff in L. congruence. }
    apply Qnot_le_lt in E'. split; [apply Qlt_le_weak; exact Lo|].
    replace (a - b - 1 + 1)%Z with (a - b)%Z by lia. exact E'.
Qed.

Lemma ilog2_unique (q : Q) (k : Z) : 2 ^ k <= q -> q < 2 ^ (k + 1) -> ilog2 q = k.
Proof.
  intros L U.
  assert (0 < q) as Hq by (pose proof (pow2_pos k); lra).
  destruct (ilog2_spec Hq) as (L' & U').
  assert (2 ^ k < 2 ^ (ilog2 q + 1)) as A by lra.
  assert (2 ^ ilog2 q < 2 ^ (k + 1)) as B by lra.
  apply pow2_lt_inv in A, B. lia.
Qed.

Lemma ilog2_mono (a b : Q) : 0 < a -> a <= b -> (ilog2 a <= ilog2 b)%Z.
Proof.
  intros Ha Hab. destruct (ilog2_spec Ha) as (La & _).
  assert (0 < b) as Hb by lra.
  destruct (ilog2_spec Hb) as (_ & Ub).
  assert (2 ^ ilog2 a < 2 ^ (ilog2 b + 1)) as A by lra.
  apply pow2_lt_inv in A. lia.
Qed.

End RoundingFacts.

Section RoundFacts.
Import Binary64.

Lemma expo_ge (q : Q) : (-1074 <= expo q)%Z.
Proof. unfold expo. lia. Qed.

(** A positive rational scaled by its exponent is below [2^53]. *)
Lemma scaled_lt (q : Q) : 0 < q -> q / 2 ^ expo q < inject_Z (2 ^ 53).
Proof.
  intros Hq. destruct (ilog2_spec Hq) as (_ & U).
  apply Qlt_shift_div_r; [apply pow2_pos|].
  rewrite pow2_Z by lia. rewrite <- pow2_add.
  apply Qlt_le_trans with (2 ^ (ilog2 q + 1)); [exact U|].
  apply pow2_le. unfold expo. lia.
Qed.

(** Above the subnormal range it is at least [2^52]. *)
Lemma scaled_ge (q : Q) : 0 < q -> (-1074 < expo q)%Z -> inject_Z (2 ^ 52) <= q / 2 ^ expo q.
Proof.
  intros Hq He. destruct (ilog2_spec Hq) as (L & _).
  apply Qle_shift_div_l; [apply pow2_pos|].
  rewrite pow2_Z by lia. rewrite <- pow2_add.
  apply Qle_trans with (2 ^ ilog2 q); [|exact L].
  apply pow2_le. unfold expo in *. lia.
Qed.

Lemma scaled_pos (q : Q) : 0 < q -> 0 < q / 2 ^ expo q.
Proof.
  intros Hq. apply Qlt_shift_div_l; [apply pow2_pos|]. lra.
Qed.

Lemma round_pos_nonneg (q : Q) : 0 < q -> 0 <= round_pos q.
Proof.
  intros Hq. unfold round_pos. apply Qmult_le_0_compat.
  - change 0 with (inject_Z 0). rewrite <- Zle_Qle.
    apply nearest_even_ge. apply Qlt_le_weak. now apply scaled_pos.
  - apply Qlt_le_weak, pow2_pos.
Qed.

Lemma round_pos_le_pow (q : Q) : 0 < q -> round_pos q <= 2 ^ (expo q + 53).
Proof.
  intros Hq. unfold round_pos.
  rewrite Z.add_comm, pow2_add. apply Qmult_le_compat_r; [|apply Qlt_le_weak, pow2_pos].
  rewrite <- (@pow2_Z 53) by lia. rewrite <- Zle_Qle.
  apply nearest_even_le. apply Qlt_le_weak. now apply scaled_lt.
Qed.

Lemma round_pos_ge_pow (q : Q) :
  0 < q -> (-1074 < expo q)%Z -> 2 ^ (expo q + 52) <= round_pos q.
Proof.
  intros Hq He. unfold round_pos.
  rewrite Z.add_comm, pow2_add. apply Qmult_le_compat_r; [|apply Qlt_le_weak, pow2_pos].
  rewrite <- (@pow2_Z 52) by lia. rewrite <- Zle_Qle.
  apply nearest_even_ge. now apply scaled_ge.
Qed.

(** Rounding keeps the order of the positive rationals. *)
Lemma round_pos_mono (a b : Q) : 0 < a -> a <= b -> round_pos a <= round_pos b.
Proof.
  intros Ha Hab. assert (0 < b) as Hb by lra.
  pose proof (ilog2_mono Ha Hab) as Hk.
  destruct (Z.eq_dec (expo a) (expo b)) as [E|N].
  - unfold round_pos. rewrite E.
    apply Qmult_le_compat_r; [|apply Qlt_le_weak, pow2_pos].
    rewrite <- Zle_Qle. apply nearest_even_mono.
    apply Qmult_le_compat_r; [exact Hab|].
    apply Qlt_le_weak, Qinv_lt_0_compat, pow2_pos.
  - assert (expo a < expo b)%Z as L by (unfold expo in *; lia).
    apply Qle_trans with (2 ^ (expo a + 53)); [now apply round_pos_le_pow|].
    apply Qle_trans with (2 ^ (expo b + 52)).
    + apply pow2_le. lia.
    + apply round_pos_ge_pow; [exact Hb|]. pose proof (expo_ge a). lia.
Qed.

Lemma round_Q_mono (a b : Q) : a <= b -> round_Q a <= round_Q b.
Proof.
  intros Hab. unfold round_Q.
  destruct (Qcompare_spec a 0) as [Ea|La|Ga];
  destruct (Qcompare_spec b 0) as [Eb|Lb|Gb]; try lra.
  - now apply round_pos_nonneg.
  - assert (0 <= round_pos (- a)) by (apply round_pos_nonneg; lra). lra.
  - assert (round_pos (- b) <= round_pos (- a)) by (apply round_pos_mono; lra). lra.
  - assert (0 <= round_pos (- a)) by (apply round_pos_nonneg; lra).
    assert (0 <= round_pos b) by (apply round_pos_nonneg; lra). lra.
  - now apply round_pos_mono.
Qed.

(** A multiple [n * 2^e] of a power of two with [n] of at most 53 bits, and
    of exactly 53 bits above the subnormal range, is a double: rounding
    leaves it as it is. *)
Lemma round_pos_grid (y : Q) (n e : Z) :
  y == inject_Z n * 2 ^ e ->
  (0 < n <= 2 ^ 53)%Z -> (-1074 <= e)%Z -> ((-1074 < e)%Z -> (2 ^ 52 <= n)%Z) ->
  round_pos y == y.
Proof.
  intros Ey Hn He Hnorm.
  assert (0 < 2 ^ e) as Hp by apply pow2_pos.
  assert (0 < inject_Z n) as Hn0.
  { change 0 with (inject_Z 0). rewrite <- Zlt_Qlt. lia. }
  assert (0 < y) as Hy.
  { rewrite Ey. apply Qmult_lt_0_compat; assumption. }
  destruct (Z.eq_dec n (2 ^ 53)) as [E53|N53].
  - (* the next power of two *)
    assert (y == 2 ^ (e + 53)) as Ey'.
    { rewrite Ey, E53, pow2_Z by lia. rewrite Z.add_comm, pow2_add. reflexivity. }
    assert (ilog2 y = (e + 53)%Z) as Hk.
    { apply ilog2_unique; rewrite Ey'; [apply Qle_refl|].
      replace (e + 53 + 1)%Z with (e + 53 + 1)%Z by lia.
      rewrite (pow2_add (e + 53) 1). pose proof (pow2_pos (e + 53)).
      change (2 ^ 1) with 2. lra. }
    assert (expo y = (e + 1)%Z) as Hx by (unfold expo; rewrite Hk; lia).
    unfold round_pos. rewrite Hx.
    rewrite (@nearest_even_Z _ (2 ^ 52)).
    + rewrite Ey', pow2_Z by lia. rewrite <- pow2_add. 
      replace (52 + (e + 1))%Z with (e + 53)%Z by lia. reflexivity.
    + rewrite Ey', pow2_Z by lia.
      replace (e + 53)%Z with (52 + (e + 1))%Z by lia. rewrite pow2_add.
      field. pose proof (pow2_pos (e + 1)). lra.
  - assert (expo y = e) as Hx.
    { destruct (Z_lt_le_dec n (2 ^ 52)) as [Lt|Ge].
      - (* subnormal *)
        assert (e = (-1074)%Z) as E1 by lia.
        destruct (ilog2_spec Hy) as (L & _).
        assert (y < 2 ^ (e + 52)) as U.
        { rewrite Ey, Z.add_comm, pow2_add. apply Qmult_lt_compat_r; [exact Hp|].
          rewrite <- (@pow2_Z 52) by lia. rewrite <- Zlt_Qlt. exact Lt. }
        assert (2 ^ ilog2 y < 2 ^ (e + 52)) as A by lra.
        apply pow2_lt_inv in A. unfold expo. lia.
      - assert (ilog2 y = (e + 52)%Z) as Hk.
        { apply ilog2_unique; rewrite Ey.
          - rewrite Z.add_comm, pow2_add. apply Qmult_le_compat_r; [|lra].
            rewrite <- (@pow2_Z 52) by lia. rewrite <- Zle_Qle. exact Ge.
          - replace (e + 52 + 1)%Z with (53 + e)%Z by lia. rewrite pow2_add.
            apply Qmult_lt_compat_r; [exact Hp|].
            rewrite <- (@pow2_Z 53) by lia. rewrite <- Zlt_Qlt. lia. }
        unfold expo. rewrite Hk. lia. }
    unfold round_pos. rewrite Hx.
    rewrite (@nearest_even_Z _ n).
    + symmetry. exact Ey.
    + rewrite Ey. field. lra.
Qed.



(** Rounding keeps the order. *)
Lemma round_mono (a b : Q) : a <= b -> jle (round a) (round b).
Proof.
  intros Hab.
  assert (Qred (round_Q (Qred a)) <= Qred (round_Q (Qred b))) as M.
  { pose proof (Qred_correct (round_Q (Qred a))) as Ea.
    pose proof (Qred_correct (round_Q (Qred b))) as Eb.
    assert (round_Q (Qred a) <= round_Q (Qred b)).
    { apply round_Q_mono. pose proof (Qred_correct a). pose proof (Qred_correct b). lra. }
    lra. }
  unfold round. pose proof (pow2_pos 1024) as P.
  destruct (Qle_bool (2 ^ 1024) (Qred (round_Q (Qred a)))) eqn:A1;
  destruct (Qle_bool (2 ^ 1024) (Qred (round_Q (Qred b)))) eqn:B1;
  destruct (Qle_bool (Qred (round_Q (Qred a))) (- 2 ^ 1024)) eqn:A2;
  destruct (Qle_bool (Qred (round_Q (Qred b))) (- 2 ^ 1024)) eqn:B2;
  cbn [jle]; try exact I; try exact M;
  repeat match goal with
  | H : Qle_bool _ _ = true |- _ => apply Qle_bool_iff in H
  | H : Qle_bool ?x ?y = false |- _ =>
      assert (~ x <= y) by (intros L; apply Qle_bool_iff in L; congruence); clear H
  end; lra.
Qed.


(** A rational between two doubles rounds to a double between them. *)
Lemma round_between (lo hi q : Q) :
  round lo = Fin lo -> round hi = Fin hi -> lo <= q -> q <= hi ->
  exists r, round q = Fin r /\ lo <= r /\ r <= hi.
Proof.
  intros Hlo Hhi L U.
  pose proof (round_mono L) as M1. pose proof (round_mono U) as M2.
  rewrite Hlo in M1. rewrite Hhi in M2.
  destruct (round q) as [r| | |]; cbn [jle] in *; try contradiction.
  exists r. repeat split; assumption.
Qed.

Lemma Qred_inject_Z (n : Z) : Qred (inject_Z n) = inject_Z n.
Proof.
  unfold inject_Z, Qred.
  pose proof (Z.ggcd_gcd n 1) as G. pose proof (Z.ggcd_correct_divisors n 1) as D.
  destruct (Z.ggcd n 1) as (g & aa & bb). cbn [fst snd] in *.
  rewrite Z.gcd_1_r in G. subst g. destruct D as (Da & Db).
  rewrite Z.mul_1_l in Da, Db. subst aa bb. reflexivity.
Qed.

(** The integers of at most 53 bits are doubles. *)
Lemma round_small_Z (n : Z) : (Z.abs n < 2 ^ 53)%Z -> round (inject_Z n) = Fin (inject_Z n).
Proof.
  intros Hn.
  assert (forall m, (0 < m < 2 ^ 53)%Z -> round_pos (inject_Z m) == inject_Z m) as Pos.
  { intros m Hm.
    pose proof (Z.log2_spec m (proj1 Hm)) as (L & U).
    pose proof (Z.log2_nonneg m) as K0.
    assert (Z.log2 m < 53)%Z as K1.
    { apply Z.log2_lt_pow2; lia. }
    apply (@round_pos_grid _ (m * 2 ^ (52 - Z.log2 m)) (Z.log2 m - 52)).
    - rewrite inject_Z_mult, pow2_Z by lia.
      rewrite <- Qmult_assoc, <- pow2_add.
      replace (52 - Z.log2 m + (Z.log2 m - 52))%Z with 0%Z by lia.
      change (2 ^ 0) with 1. ring.
    - split; [apply Z.mul_pos_pos; [lia | apply Z.pow_pos_nonneg; lia]|].
      replace (2 ^ 53)%Z with (2 ^ Z.succ (Z.log2 m) * 2 ^ (52 - Z.log2 m))%Z.
      + apply Z.mul_le_mono_nonneg_r; [apply Z.pow_nonneg; lia | lia].
      + rewrite <- Z.pow_add_r by lia. f_equal. lia.
    - lia.
    - intros _. replace (2 ^ 52)%Z with (2 ^ Z.log2 m * 2 ^ (52 - Z.log2 m))%Z.
      + apply Z.mul_le_mono_nonneg_r; [apply Z.pow_nonneg; lia | lia].
      + rewrite <- Z.pow_add_r by lia. f_equal. lia. }
  assert (round_Q (inject_Z n) == inject_Z n) as E.
  { unfold round_Q.
    destruct (Qcompare_spec (inject_Z n) 0) as [E0|L0|G0].
    - symmetry. exact E0.
    - change 0 with (inject_Z 0) in L0. rewrite <- Zlt_Qlt in L0.
      rewrite <- inject_Z_opp. rewrite Pos by lia.
      rewrite inject_Z_opp. ring.
    - change 0 with (inject_Z 0) in G0. rewrite <- Zlt_Qlt in G0.
      apply Pos. lia. }
  unfold round. rewrite Qred_inject_Z.
  rewrite (Qred_complete _ _ E), Qred_inject_Z.
  assert (inject_Z (Z.abs n) < 2 ^ 1024) as B.
  { apply Qlt_le_trans with (2 ^ 53).
    - rewrite <- (@pow2_Z 53) by lia. rewrite <- Zlt_Qlt. exact Hn.
    - apply pow2_le. lia. }
  assert (- inject_Z (Z.abs n) <= inject_Z n /\ inject_Z n <= inject_Z (Z.abs n)) as (B1 & B2).
  { rewrite <- inject_Z_opp. rewrite <- !Zle_Qle. lia. }
  destruct (Qle_bool (2 ^ 1024) (inject_Z n)) eqn:A1.
  { apply Qle_bool_iff in A1. lra. }
  destruct (Qle_bool (inject_Z n) (- 2 ^ 1024)) eqn:A2.
  { apply Qle_bool_iff in A2. lra. }
  reflexivity.
Qed.

End RoundFacts.

(** On the expressions the export and the measurer evaluate on the sample
    documents, and on a few others, the arithmetic of [Binary64] returns the
    double that the primitive operations of the kernel return. *)
Lemma binary64_agrees_with_primitive_doubles :
  forallb Doubles.agree Doubles.samples = true.
Proof. vm_compute. reflexivity. Qed.

(** ** The page loop in binary floating point *)

Section LoopFacts64.
Import ExportPdf ExportSpec.

Variables pageWidth pageHeight : Q.
Variable html2canvas : container -> canvas.

Let page_body := ExportPdf64.page_body pageWidth pageHeight.
Let page_loop := ExportPdf64.page_loop pageWidth pageHeight.
Let totalPages := ExportPdf64.totalPages pageHeight.
Let next_position := ExportSpec64.next_position pageHeight.
Let plan := ExportSpec64.plan pageHeight.
Let iterate := ExportSpec64.iterate pageWidth pageHeight.
Let measure := ExportPdf64.measure pageWidth html2canvas.
Let exportComunicadoPDF := ExportPdf64.exportComunicadoPDF pageWidth pageHeight html2canvas.













Section ValidGeometry64.
Import Binary64.

Variables (m : measures) (h C : Q).
Hypothesis Hb : bodyHeightMM m = Fin h.
Hypothesis Hc : ExportPdf64.contentHeightPerPage pageHeight m = Fin C.
Hypothesis Hh : round h = Fin h.
Hypothesis HC : 0 < C.



End ValidGeometry64.

End LoopFacts64.

(** ** Page count *)



(** ** Slices *)

Section Slices.
Import ExportPdf ExportSpec Binary64.

Variables pageWidth pageHeight : Q.
Variable html2canvas : container -> canvas.

Let measure := ExportPdf64.measure pageWidth html2canvas.
Let totalPages := ExportPdf64.totalPages pageHeight.
Let contentHeightPerPage := ExportPdf64.contentHeightPerPage pageHeight.
Let exportComunicadoPDF := ExportPdf64.exportComunicadoPDF pageWidth pageHeight html2canvas.



End Slices.




(** ** Rasterizations *)

Section RasterFacts.
Import ExportPdf ExportSpec.

Variable pageHeight : Q.
Let gen_rasters := gen_rasters pageHeight.

Lemma raster_count_app f l1 l2 :
  raster_count f (l1 ++ l2) = (raster_count f l1 + raster_count f l2)%nat.
Proof. unfold raster_count. now rewrite filter_app, length_app. Qed.

Lemma gen_rasters_no_body wr m k : forall p,
  raster_count at_body (gen_rasters wr m k p) = 0%nat
  /\ raster_count at_footer (gen_rasters wr m k p) = 0%nat.
Proof.
  induction k as [|k IH]; intros p; [split; reflexivity|].
  subst gen_rasters. simpl. rewrite !raster_count_app.
  destruct (IH (p + 1)%Z) as (Hb & Hf). rewrite Hb, Hf.
  destruct (headerElement wr); split; reflexivity.
Qed.

(** The header of page [q] is rasterized once, in the iteration of page [q]. *)
Lemma gen_rasters_header wr m e q k : headerElement wr = Some e ->
  forall p,
  raster_count (at_header_of_page q) (gen_rasters wr m k p)
  = if ((p <=? q) && (q <? p + Z.of_nat k))%Z then 1%nat else 0%nat.
Proof.
  intros He. induction k as [|k IH]; intros p.
  - simpl. destruct (p <=? q)%Z eqn:E1, (q <? p + 0)%Z eqn:E2; try reflexivity.
    apply Z.leb_le in E1. apply Z.ltb_lt in E2. lia.
  - subst gen_rasters. simpl ExportSpec.gen_rasters. rewrite He, raster_count_app, IH.
    unfold raster_count. cbn [filter fst at_header_of_page].
    destruct (q =? p)%Z eqn:Eq.
    + apply Z.eqb_eq in Eq. subst q. cbn [List.length].
      replace (p + 1 <=? p)%Z with false by (symmetry; apply Z.leb_gt; lia).
      replace (p <=? p)%Z with true by (symmetry; apply Z.leb_le; lia).
      replace (p <? p + Z.of_nat (S k))%Z with true by (symmetry; apply Z.ltb_lt; lia).
      reflexivity.
    + apply Z.eqb_neq in Eq. cbn [List.length Nat.add].
      destruct (p + 1 <=? q)%Z eqn:E1, (p <=? q)%Z eqn:E2,
        (q <? p + 1 + Z.of_nat k)%Z eqn:E3, (q <? p + Z.of_nat (S k))%Z eqn:E4;
      try reflexivity;
      rewrite ?Z.leb_le, ?Z.leb_gt, ?Z.ltb_lt, ?Z.ltb_ge in *; lia.
Qed.

Lemma initial_rasters_count wr :
  raster_count at_body (initial_rasters wr) = 1%nat
  /\ raster_count at_footer (initial_rasters wr) = (if footerElement wr then 1 else 0)%nat
  /\ forall q, raster_count (at_header_of_page q) (initial_rasters wr) = 0%nat.
Proof. unfold initial_rasters. destruct (footerElement wr); repeat split. Qed.

End RasterFacts.

(** ** Geometry, footer and header *)

Section Assembly.
Import ExportPdf ExportSpec.

Variables pageWidth pageHeight : Q.
Variable html2canvas : container -> canvas.

Let measure := measure pageWidth html2canvas.
Let totalPages := totalPages pageHeight.
Let contentHeightPerPage := contentHeightPerPage pageHeight.
Let exportComunicadoPDF := exportComunicadoPDF pageWidth pageHeight html2canvas.


(** With an infinite page count the loop never ends. *)
Lemma page_loop_infinite wr m : totalPages m = PInf ->
  forall fuel p s, page_loop pageWidth pageHeight wr m fuel p s = None.
Proof.
  intros Hn. induction fuel as [|fuel IH]; intros p s; simpl;
    fold totalPages; rewrite Hn; simpl; [reflexivity | apply IH].
Qed.

(** A content height per page of zero under an empty body: the page count
    is [NaN], the loop does not run and the blank first page is saved. *)
Lemma zero_content_height_empty_body wr codigo h C :
  bodyHeightMM (fst (measure wr)) = Fin h ->
  contentHeightPerPage (fst (measure wr)) = Fin C ->
  C == 0 -> h == 0 ->
  forall fuel,
  exportComunicadoPDF fuel (rendered_dom wr) codigo
  = Some {| res_outcome := Saved (file_name codigo) [[]];
            res_rasterized := initial_rasters wr;
            res_slices := [] |}.
Proof.
  intros Hb Hc HC0 Hh0 fuel.
  assert (totalPages (fst (measure wr)) = NaN) as Ht.
  { subst totalPages contentHeightPerPage. unfold ExportPdf.totalPages.
    rewrite Hb, Hc. simpl. rewrite (Qis_zero_true HC0).
    unfold inf_of_sign. rewrite (Qis_zero_true Hh0). reflexivity. }
  subst exportComunicadoPDF. unfold ExportPdf.exportComunicadoPDF, rendered_dom.
  cbn [jsPDF_loaded documentoElement rendered documentoWrapper negb].
  pose proof (measure_state pageWidth html2canvas wr) as Hs. subst measure.
  destruct (ExportPdf.measure pageWidth html2canvas wr) as [m s].
  cbn [fst snd] in *. subst s.
  destruct fuel; simpl; fold totalPages; rewrite Ht; reflexivity.
Qed.

(** A content height per page of zero under a body of positive height: the
    page count is [Infinity] and the export never ends. *)
Lemma zero_content_height_never_ends wr codigo h C :
  bodyHeightMM (fst (measure wr)) = Fin h ->
  contentHeightPerPage (fst (measure wr)) = Fin C ->
  C == 0 -> 0 < h ->
  forall fuel, exportComunicadoPDF fuel (rendered_dom wr) codigo = None.
Proof.
  intros Hb Hc HC0 Hpos fuel.
  assert (totalPages (fst (measure wr)) = PInf) as Ht.
  { subst totalPages contentHeightPerPage. unfold ExportPdf.totalPages.
    rewrite Hb, Hc. simpl. rewrite (Qis_zero_true HC0).
    unfold inf_of_sign. rewrite Qis_zero_false by lra.
    unfold Qis_neg. rewrite Qle_bool_true by lra. reflexivity. }
  subst exportComunicadoPDF. unfold ExportPdf.exportComunicadoPDF, rendered_dom.
  cbn [jsPDF_loaded documentoElement rendered documentoWrapper negb].
  subst measure.
  destruct (ExportPdf.measure pageWidth html2canvas wr) as [m s].
  cbn [fst] in *. rewrite (page_loop_infinite wr m Ht). reflexivity.
Qed.


(** C4 (amended).  In every export with a finite page count, a document
    that has a footer region gets the footer on its last page and on no other
    page, and a document without a footer region gets it on no page. *)
Theorem footer_on_last_page (wr : wrapper) (codigo : option string) (n : Z) :
  totalPages (fst (measure wr)) = Fin n ->
  forall fuel, (Z.to_nat n <= fuel)%nat ->
  exists r document,
    exportComunicadoPDF fuel (rendered_dom wr) codigo = Some r
    /\ res_outcome r = Saved (file_name codigo) document
    /\ Z.of_nat (List.length document) = n
    /\ (footerElement wr = true -> footer_on_last_page_only document)
    /\ (footerElement wr = false -> forall pg, In pg document -> has_footer pg = false).
Proof.
  intros Ht fuel Hf.
  subst measure totalPages contentHeightPerPage exportComunicadoPDF.
  pose proof (totalPages_ge_1 pageHeight _ Ht) as H1.
  pose proof (export_finite pageWidth pageHeight html2canvas wr codigo Ht Hf) as E.
  pose proof (measure_footer pageWidth html2canvas wr) as Hfoot.
  eexists; eexists. split; [exact E|]. split; [reflexivity|].
  assert (forall i pg,
            nth_error (gen_pages pageWidth pageHeight wr (fst (ExportPdf.measure pageWidth html2canvas wr))
                         (Z.to_nat n) 1 (Fin 0)) i = Some pg ->
            has_footer pg = footerElement wr && (1 + Z.of_nat i =? n)%Z) as Hpg.
  { intros i pg Hi.
    assert (nth_error (gen_pages pageWidth pageHeight wr (fst (ExportPdf.measure pageWidth html2canvas wr))
                         (Z.to_nat n) 1 (Fin 0)) i <> None) as Hne
      by (rewrite Hi; discriminate).
    apply nth_error_Some in Hne. rewrite gen_pages_length in Hne.
    rewrite gen_pages_nth in Hi by exact Hne. inversion Hi; subst pg.
    rewrite (page_images_footer pageWidth pageHeight wr _ Hfoot).
    rewrite Ht. reflexivity. }
  rewrite gen_pages_length. split; [lia|]. split.
  - intros Hfe. split.
    + intros Hnil. apply (f_equal (@List.length _)) in Hnil.
      rewrite gen_pages_length in Hnil. simpl in Hnil. lia.
    + intros i pg Hi. rewrite (Hpg i pg Hi), Hfe, gen_pages_length. cbn [andb].
      destruct (Z.eqb_spec (1 + Z.of_nat i) n) as [Ez|Ez],
        (Nat.eqb_spec (S i) (Z.to_nat n)) as [En|En]; try reflexivity; lia.
  - intros Hfe pg Hin. apply In_nth_error in Hin. destruct Hin as (i & Hi).
    rewrite (Hpg i pg Hi), Hfe. reflexivity.
Qed.

(** C5 (amended).  When the document has a header region with a page-counter
    field and the page count [n] is finite, every page [p] of [1..n] starts
    with the header rasterized again for that page, with the counter text
    ["p de n"], drawn whole at the header height; the header of each page is
    rasterized once in the loop, the body is rasterized once in the export
    and the footer once when the document has one. *)
Theorem header_regenerated_per_page (wr : wrapper) (codigo : option string)
    (e : headerEl) (old : string) (n : Z) :
  headerElement wr = Some e ->
  paginaActual e = Some old ->
  totalPages (fst (measure wr)) = Fin n ->
  forall fuel, (Z.to_nat n <= fuel)%nat ->
  exists r document,
    exportComunicadoPDF fuel (rendered_dom wr) codigo = Some r
    /\ res_outcome r = Saved (file_name codigo) document
    /\ (forall p, (1 <= p <= n)%Z ->
        exists img rest,
          nth_error document (Z.to_nat (p - 1)) = Some (img :: rest)
          /\ counter_of img = Some (string_of_Z p ++ " de " ++ string_of_Z n)%string
          /\ is_body_crop img = false
          /\ ExportPdf.h img = headerHeightMM (fst (measure wr))
          /\ raster_count (at_header_of_page p) (res_rasterized r) = 1%nat)
    /\ raster_count at_body (res_rasterized r) = 1%nat
    /\ raster_count at_footer (res_rasterized r)
       = (if footerElement wr then 1 else 0)%nat.
Proof.
  intros He Hold Ht fuel Hf.
  subst measure totalPages contentHeightPerPage exportComunicadoPDF.
  pose proof (totalPages_ge_1 pageHeight _ Ht) as H1.
  pose proof (export_finite pageWidth pageHeight html2canvas wr codigo Ht Hf) as E.
  pose proof (measure_footer pageWidth html2canvas wr) as Hfoot.
  destruct (initial_rasters_count wr) as (Ib & If & Ih).
  destruct (gen_rasters_no_body pageHeight wr (fst (ExportPdf.measure pageWidth html2canvas wr)) (Z.to_nat n) 1)
    as (Gb & Gf).
  eexists; eexists. split; [exact E|]. split; [reflexivity|].
  cbn [res_rasterized]. rewrite !raster_count_app.
  split; [|split].
  - intros p Hp.
    rewrite gen_pages_nth by lia.
    replace (1 + Z.of_nat (Z.to_nat (p - 1)))%Z with p by lia.
    destruct (page_images_header pageWidth pageHeight wr (fst (ExportPdf.measure pageWidth html2canvas wr)) Hfoot
                p (position_after pageHeight (fst (ExportPdf.measure pageWidth html2canvas wr)) (Z.to_nat (p - 1)) (Fin 0))
                He) as (rest & Epg).
    rewrite Epg. eexists; eexists. split; [reflexivity|].
    split; [|split; [|split]].
    + unfold counter_of. cbn [imageData]. unfold headerContainerUpdated.
      cbn [children]. rewrite Ht.
      destruct (titleElement wr), (infoElement wr); cbn [append_if app];
        unfold headerClone; rewrite Hold; reflexivity.
    + reflexivity.
    + reflexivity.
    + rewrite raster_count_app, Ih, (gen_rasters_header pageHeight wr (fst (ExportPdf.measure pageWidth html2canvas wr)) p (Z.to_nat n) He).
      replace (1 <=? p)%Z with true by (symmetry; apply Z.leb_le; lia).
      replace (p <? 1 + Z.of_nat (Z.to_nat n))%Z with true
        by (symmetry; apply Z.ltb_lt; lia).
      reflexivity.
  - rewrite Ib, Gb. reflexivity.
  - rewrite If, Gf. apply Nat.add_0_r.
Qed.

End Assembly.



(** Two pages, the footer on the second one only. *)
Lemma footer_on_last_page_witness :
  exists r document,
    ExportPdf.exportComunicadoPDF 210 297 (Sample.raster 62 300 15) 2
      (ExportSpec.rendered_dom Sample.comunicado_wrapper) None = Some r
    /\ ExportPdf.res_outcome r = ExportPdf.Saved "Comunicado-sin-codigo.pdf" document
    /\ ExportSpec.footer_on_last_page_only document.
Proof.
  destruct (@footer_on_last_page 210 297 (Sample.raster 62 300 15)
              Sample.comunicado_wrapper None 2 ltac:(reflexivity) 2%nat (Nat.le_refl _))
    as (r & document & E & Ho & _ & Hf & _).
  exists r, document. repeat split; try assumption; apply Hf; reflexivity.
Defined.

(** A document without footer region: no page of the export has a footer,
    the last one included. *)
Lemma footer_on_last_page_counterexample :
  exists r document,
    ExportPdf.exportComunicadoPDF 210 297 (Sample.raster 62 300 15) 2
      (ExportSpec.rendered_dom Sample.no_footer_wrapper) None = Some r
    /\ ExportPdf.res_outcome r = ExportPdf.Saved "Comunicado-sin-codigo.pdf" document
    /\ ~ ExportSpec.footer_on_last_page_only document.
Proof.
  eexists; eexists. split; [vm_compute; reflexivity|]. split; [reflexivity|].
  intros (_ & H). specialize (H 1%nat _ eq_refl). vm_compute in H. discriminate H.
Qed.

(** The two pages of the sample carry the counters of their own. *)
Lemma header_regenerated_per_page_witness :
  exists r document,
    ExportPdf.exportComunicadoPDF 210 297 (Sample.raster 62 300 15) 2
      (ExportSpec.rendered_dom Sample.comunicado_wrapper) None = Some r
    /\ ExportPdf.res_outcome r = ExportPdf.Saved "Comunicado-sin-codigo.pdf" document
    /\ ExportSpec.raster_count ExportSpec.at_body (ExportPdf.res_rasterized r) = 1%nat.
Proof.
  destruct (@header_regenerated_per_page 210 297 (Sample.raster 62 300 15)
              Sample.comunicado_wrapper None _ _ 2 eq_refl eq_refl
              ltac:(reflexivity) 2%nat (Nat.le_refl _))
    as (r & document & E & Ho & _ & Hb & _).
  exists r, document. repeat split; assumption.
Defined.

(** The counter of the first page of the sample reads ["1 de 2"], which is
    not the text ["1 of 2"] of the specification. *)
Lemma header_regenerated_per_page_counterexample :
  exists r document img rest,
    ExportPdf.exportComunicadoPDF 210 297 (Sample.raster 62 300 15) 2
      (ExportSpec.rendered_dom Sample.comunicado_wrapper) None = Some r
    /\ ExportPdf.res_outcome r = ExportPdf.Saved "Comunicado-sin-codigo.pdf" document
    /\ nth_error document 0 = Some (img :: rest)
    /\ ExportSpec.counter_of img = Some "1 de 2"%string
    /\ ExportSpec.counter_of img <> Some (ExportSpec.counter_text_of_spec 1 2).
Proof.
  eexists; eexists; eexists; eexists.
  split; [vm_compute; reflexivity|]. split; [reflexivity|].
  split; [reflexivity|]. split; [reflexivity|].
  vm_compute. discriminate.
Qed.

(** ** Batch export *)

Section BatchFacts.
Import Batch BatchSpec.

Variables pageWidth pageHeight : Q.
Variable splitTextToSize : string -> Z -> option string -> Q -> list string.
Variables toUpperCase toLowerCase : string -> string.
Variable today : string.

Let render := render_comunicado pageWidth pageHeight splitTextToSize toUpperCase today.
Let export_from := export_from pageWidth pageHeight splitTextToSize toUpperCase today.
Let exportComunicadosPDF :=
  exportComunicadosPDF pageWidth pageHeight splitTextToSize toUpperCase today.
Let App_exportComunicadosPDF :=
  App_exportComunicadosPDF pageWidth pageHeight splitTextToSize toUpperCase toLowerCase today.

Let renders := renders render.

Lemma saved_files_app l1 l2 : saved_files (l1 ++ l2) = saved_files l1 ++ saved_files l2.
Proof.
  induction l1 as [|ev l1 IH]; [reflexivity|].
  destruct ev; simpl; rewrite IH; reflexivity.
Qed.

Lemma notifications_app l1 l2 :
  notifications (l1 ++ l2) = notifications l1 ++ notifications l2.
Proof.
  induction l1 as [|ev l1 IH]; [reflexivity|].
  destruct ev; simpl; rewrite IH; reflexivity.
Qed.

(** One turn of the loop on a record that renders: its file is saved, no
    notification is shown, and the loop goes on. *)
Lemma export_from_step total index c rest log d :
  render c = inr d ->
  exists log',
    export_from total index (c :: rest) log = export_from total (S index) rest log'
    /\ saved_files log' = saved_files log ++ [file_name c]
    /\ notifications log' = notifications log.
Proof.
  intros Hr. subst export_from render. cbn [Batch.export_from].
  unfold bind at 1. rewrite Hr. cbn [lift ret].
  unfold bind at 1. unfold emit at 1.
  unfold bind at 1.
  destruct (Z.of_nat index <? Z.of_nat total - 1)%Z.
  - unfold emit at 1. eexists. split; [reflexivity|].
    rewrite !saved_files_app, !notifications_app. simpl.
    rewrite !app_nil_r. split; reflexivity.
  - unfold ret at 1. eexists. split; [reflexivity|].
    rewrite !saved_files_app, !notifications_app. simpl.
    rewrite !app_nil_r. split; reflexivity.
Qed.

(** The loop over records that all render saves one file per record. *)
Lemma export_from_all total : forall cs index log,
  Forall renders cs ->
  exists log',
    export_from total index cs log = (log', inr tt)
    /\ saved_files log' = saved_files log ++ map file_name cs
    /\ notifications log' = notifications log.
Proof.
  induction cs as [|c cs IH]; intros index log Hall.
  - exists log. simpl. rewrite app_nil_r. repeat split.
  - inversion Hall as [|? ? (d & Hd) Hrest]; subst.
    destruct (@export_from_step total index c cs log d Hd) as (log1 & E1 & S1 & N1).
    destruct (IH (S index) log1 Hrest) as (log2 & E2 & S2 & N2).
    exists log2. rewrite E1, E2, S2, S1, N2, N1, <- app_assoc. repeat split.
Qed.

(** The loop stops at the first record that does not render. *)
Lemma export_from_failure total : forall before index log c after e,
  Forall renders before -> render c = inl e ->
  exists log',
    export_from total index (before ++ c :: after) log = (log', inl e)
    /\ saved_files log' = saved_files log ++ map file_name before
    /\ notifications log' = notifications log.
Proof.
  induction before as [|b before IH]; intros index log c after e Hall Hc.
  - exists log. subst export_from render. cbn [app Batch.export_from].
    unfold bind at 1. rewrite Hc. simpl. rewrite app_nil_r. repeat split.
  - inversion Hall as [|? ? (d & Hd) Hrest]; subst.
    destruct (@export_from_step total index b (before ++ c :: after) log d Hd)
      as (log1 & E1 & S1 & N1).
    destruct (IH (S index) log1 c after e Hrest Hc) as (log2 & E2 & S2 & N2).
    exists log2. cbn [app]. rewrite E1, E2, S2, S1, N2, N1, <- app_assoc. repeat split.
Qed.

(** C6 (amended).  The batch exporter exports the records strictly in order
    and has no handler around an item: when no record fails, every record
    gets its file [Comunicado-<codigo>.pdf]; when a record fails, the records
    before it have their files, the exception of the failed record leaves the
    exporter and no later record is exported. *)
Theorem batch_stops_at_first_failure (cs : list comunicado) :
  (Forall renders cs ->
   exists log,
     exportComunicadosPDF true cs [] = (log, inr tt)
     /\ saved_files log = map file_name cs)
  /\ (forall before c after e,
       cs = before ++ c :: after -> Forall renders before -> render c = inl e ->
       exists log,
         exportComunicadosPDF true cs [] = (log, inl e)
         /\ saved_files log = map file_name before).
Proof.
  split.
  - intros Hall.
    destruct (export_from_all (List.length cs) 0 [] Hall) as (log & E & S & _).
    exists log. split; [exact E | exact S].
  - intros before c after e Hcs Hall Hc.
    destruct (@export_from_failure (List.length cs) before 0%nat [] c after e Hall Hc)
      as (log & E & S & N).
    exists log. split; [subst cs; exact E | exact S].
Qed.

Section Caller.

(** The lower case of the empty string is the empty string. *)
Hypothesis toLowerCase_empty : toLowerCase "" = ""%string.

(** For an administrator with no filter the caller hands every stored
    record to the exporter and notifies after it returns. *)
Lemma App_export_no_filter cs log :
  cs <> [] ->
  App_exportComunicadosPDF admin_no_filter true cs log
  = match exportComunicadosPDF true cs log with
    | (log', inl e) => (log', inl e)
    | (log', inr _) =>
        (log' ++ [Notify (NilZero.string_of_uint (Nat.to_uint (List.length cs))
                          ++ " comunicado(s) exportado(s) a PDF") "success"],
         inr tt)
    end.
Proof.
  intros Hne. subst App_exportComunicadosPDF exportComunicadosPDF.
  unfold Batch.App_exportComunicadosPDF, admin_no_filter.
  cbn [isAdmin negb filter_departamento filter_tipo search_comunicados truthy].
  rewrite toLowerCase_empty. cbn [truthy].
  unfold bind at 1. cbn [ret].
  destruct cs as [|c cs]; [contradiction|]. cbn [List.length Nat.eqb].
  unfold bind. destruct (Batch.exportComunicadosPDF _ _ _ _ _ _ _ _) as [log' [e|[]]];
    reflexivity.
Qed.

(** The exception of a failed record leaves the caller as well, which
    shows no notification. *)
Lemma App_export_failure_unreported before c after e :
  Forall renders before -> render c = inl e ->
  exists log,
    App_exportComunicadosPDF admin_no_filter true (before ++ c :: after) [] = (log, inl e)
    /\ notifications log = [].
Proof.
  intros Hall Hc.
  destruct (@export_from_failure (List.length (before ++ c :: after)) before 0%nat []
              c after e Hall Hc) as (log & E & _ & N).
  exists log. split; [|exact N].
  rewrite App_export_no_filter by (destruct before; discriminate).
  subst exportComunicadosPDF export_from. unfold Batch.exportComunicadosPDF.
  cbn [negb]. rewrite E. reflexivity.
Qed.

End Caller.

End BatchFacts.

(** Of three records the second one has no [tipo]: the first file is saved,
    the [TypeError] leaves the exporter and its caller. *)
Lemma batch_stops_at_first_failure_witness :
  exists log,
    Batch.exportComunicadosPDF 210 297 BatchSpec.one_line BatchSpec.same "1/1/2026"
      true BatchSpec.three_records [] = (log, inl (Batch.cannot_read "toUpperCase"))
    /\ Batch.saved_files log = ["Comunicado-A-1.pdf"%string].
Proof.
  destruct (@batch_stops_at_first_failure 210 297 BatchSpec.one_line BatchSpec.same
              "1/1/2026" BatchSpec.three_records) as (_ & H).
  destruct (H [BatchSpec.record "A-1" (Some "interno"%string)]
              (BatchSpec.record "B-2" None)
              [BatchSpec.record "C-3" (Some "externo"%string)]
              (Batch.cannot_read "toUpperCase") eq_refl)
    as (log & E & S).
  - repeat constructor. eexists. reflexivity.
  - reflexivity.
  - exists log. split; [exact E | exact S].
Defined.

(** The third record would export on its own, but its file is never saved,
    and the caller shows no notification at all. *)
Lemma batch_failure_counterexample :
  let render := Batch.render_comunicado 210 297 BatchSpec.one_line BatchSpec.same "1/1/2026" in
  let run := Batch.App_exportComunicadosPDF 210 297 BatchSpec.one_line BatchSpec.same
               BatchSpec.same "1/1/2026" BatchSpec.admin_no_filter true
               BatchSpec.three_records [] in
  ~ BatchSpec.failure_isolated render BatchSpec.three_records (fst run)
  /\ Batch.notifications (fst run) = [].
Proof.
  split; [|vm_compute; reflexivity].
  intros H.
  specialize (H (BatchSpec.record "C-3" (Some "externo"%string))).
  assert (In "Comunicado-C-3.pdf"%string ["Comunicado-A-1.pdf"%string]) as Hin.
  { apply H.
    - right; right; left; reflexivity.
    - eexists. reflexivity. }
  destruct Hin as [Hin|[]]. discriminate Hin.
Qed.

(** ** Layout measurer *)

Section MeasurerFacts.
Import Measurer Binary64.

Lemma or_else_nonzero a b : (b <> 0)%N -> (or_else a b <> 0)%N.
Proof.
  intros Hb. unfold or_else. destruct (N.eqb_spec a 0); assumption.
Qed.

Lemma wrapperWidth_nonzero wr : (wrapperWidth wr <> 0)%N.
Proof. apply or_else_nonzero. discriminate. Qed.

Lemma of_N_positive n : (n <> 0)%N -> 0 < inject_Z (Z.of_N n).
Proof.
  intros Hn. change 0 with (inject_Z 0). rewrite <- Zlt_Qlt. lia.
Qed.

Lemma wrapperWidth_long wr :
  Measurer64.dom_long (offsetWidth wr) -> Measurer64.dom_long (scrollWidth wr) ->
  Measurer64.dom_long (wrapperWidth wr).
Proof.
  unfold Measurer64.dom_long, wrapperWidth, or_else. intros H1 H2.
  destruct (offsetWidth wr =? 0)%N.
  - destruct (scrollWidth wr =? 0)%N; [reflexivity | assumption].
  - destruct (offsetWidth wr =? 0)%N; [reflexivity | assumption].
Qed.

(** A pixel size is a double. *)
Lemma f_of_N_long (n : N) :
  Measurer64.dom_long n -> f_of_N n = Fin (inject_Z (Z.of_N n)).
Proof.
  intros Hn. unfold f_of_N, f_of_Z. apply round_small_Z.
  unfold Measurer64.dom_long in Hn.
  assert (Z.of_N n < 2 ^ 31)%Z by (change (2 ^ 31)%Z with (Z.of_N (2 ^ 31)); lia).
  assert (2 ^ 31 < 2 ^ 53)%Z by reflexivity. lia.
Qed.

(** C8.  The pixel width of the measurer is [offsetWidth], else
    [scrollWidth], else 800, whichever is the first that is not zero, so
    the divisor of the scale factor is never zero.  For the pixel sizes the
    DOM reports, which are 32-bit integers, the scale factor is the double
    nearest to [210 / pixelWidth], a positive number, and the page count is a
    number that is at least 1. *)
Theorem calcularPaginas_zero_width_fallback (wr : wrapperEl) (counter : bool) :
  Measurer64.dom_long (offsetWidth wr) ->
  Measurer64.dom_long (scrollWidth wr) ->
  Measurer64.dom_long (scrollHeight wr) ->
  wrapperWidth wr
  = (if (offsetWidth wr =? 0)%N
     then if (scrollWidth wr =? 0)%N then 800%N else scrollWidth wr
     else offsetWidth wr)
  /\ (0 < wrapperWidth wr)%N
  /\ exists r q n,
       Measurer64.calcularPaginasComunicado {| wrapper := Some wr; paginaElement := counter |}
       = Some r
       /\ scaleFactor r = round (210 / inject_Z (Z.of_N (wrapperWidth wr)))
       /\ scaleFactor r = Fin q
       /\ 0 < q
       /\ totalPages r = Fin n
       /\ (1 <= n)%Z.
Proof.
  intros Lo Ls Lh.
  pose proof (wrapperWidth_nonzero wr) as Hw.
  pose proof (of_N_positive Hw) as Hpos.
  pose proof (wrapperWidth_long wr Lo Ls) as Lw.
  split; [|split].
  - unfold wrapperWidth, or_else.
    destruct (N.eqb_spec (offsetWidth wr) 0) as [E|E].
    + destruct (N.eqb_spec (scrollWidth wr) 0) as [E'|E']; [reflexivity|].
      destruct (N.eqb_spec (scrollWidth wr) 0); [contradiction|reflexivity].
    + destruct (N.eqb_spec (offsetWidth wr) 0); [contradiction|reflexivity].
  - lia.
  - unfold Measurer64.calcularPaginasComunicado. cbn [wrapper paginaElement].
    set (w := inject_Z (Z.of_N (wrapperWidth wr))) in *.
    set (H := inject_Z (Z.of_N (scrollHeight wr))).
    assert (w < inject_Z (2 ^ 31)) as Uw.
    { subst w. rewrite <- Zlt_Qlt. unfold Measurer64.dom_long in Lw.
      change (2 ^ 31)%Z with (Z.of_N (2 ^ 31)). lia. }
    assert (1 <= w) as Lw1.
    { subst w. change 1 with (inject_Z 1). rewrite <- Zle_Qle. lia. }
    assert (0 <= H /\ H < inject_Z (2 ^ 31)) as (LH & UH).
    { subst H. split.
      - change 0 with (inject_Z 0). rewrite <- Zle_Qle. lia.
      - rewrite <- Zlt_Qlt. unfold Measurer64.dom_long in Lh.
        change (2 ^ 31)%Z with (Z.of_N (2 ^ 31)). lia. }
    (* the scale factor *)
    assert (fdiv (f_of_Z 210) (f_of_N (wrapperWidth wr)) = round (210 / w)) as Esf.
    { rewrite (f_of_N_long Lw). fold w.
      change (f_of_Z 210) with (Fin (inject_Z 210)).
      unfold fdiv. rewrite (@jdiv_Fin (inject_Z 210) w) by lra. reflexivity. }
    destruct (@round_between (105 # 1073741824) 210 (210 / w)) as (q & Eq & Lq & Uq).
    { vm_compute. reflexivity. }
    { vm_compute. reflexivity. }
    { apply Qle_shift_div_l; [lra|].
      assert ((105 # 1073741824) * inject_Z (2 ^ 31) == 210) as E by reflexivity.
      assert (0 < (105 # 1073741824)) as P by reflexivity.
      assert ((105 # 1073741824) * w <= (105 # 1073741824) * inject_Z (2 ^ 31)).
      { apply Qmult_le_l; [exact P | lra]. }
      lra. }
    { apply Qle_shift_div_r; lra. }
    assert (0 < q) as Pq.
    { assert (0 < (105 # 1073741824)) as P by reflexivity. lra. }
    (* the height in millimetres *)
    assert (exists c, fmul (f_of_N (scrollHeight wr)) (Fin q) = Fin c
                      /\ 0 <= c /\ c <= inject_Z (2 ^ 31 * 210)) as (c & Ec & Lc & Uc).
    { rewrite (f_of_N_long Lh). fold H. unfold fmul. cbn [jmul round_ext].
      apply round_between.
      - vm_compute. reflexivity.
      - apply round_small_Z. reflexivity.
      - apply Qmult_le_0_compat; lra.
      - rewrite inject_Z_mult. change (inject_Z 210) with 210.
        apply Qle_trans with (inject_Z (2 ^ 31) * q).
        + apply Qmult_le_compat_r; lra.
        + apply Qmult_le_l; [reflexivity | exact Uq]. }
    (* the quotient by the usable height *)
    assert (exists d, fdiv (Fin c) (fsub (f_of_Z 297) (f_of_Z 20)) = Fin d /\ 0 <= d)
      as (d & Ed & Ld).
    { change (fsub (f_of_Z 297) (f_of_Z 20)) with (Fin (inject_Z 277)).
      unfold fdiv. rewrite (@jdiv_Fin c (inject_Z 277)) by (intros Hz; discriminate Hz).
      cbn [round_ext].
      destruct (@round_between 0 (inject_Z (2 ^ 31 * 210)) (c / inject_Z 277))
        as (d & Ed & Ld & _).
      - vm_compute. reflexivity.
      - apply round_small_Z. reflexivity.
      - apply Qle_shift_div_l; [reflexivity | lra].
      - apply Qle_shift_div_r; [reflexivity|].
        assert (inject_Z (2 ^ 31 * 210) * 1 <= inject_Z (2 ^ 31 * 210) * inject_Z 277).
        { apply Qmult_le_l; [reflexivity | discriminate]. }
        lra.
      - exists d. split; assumption. }
    eexists; exists q; exists (Z.max 1 (Qceiling d)).
    split; [reflexivity|]. cbn [scaleFactor totalPages].
    rewrite Esf. split; [reflexivity|]. split; [exact Eq|]. split; [exact Pq|].
    rewrite Eq, Ec, Ed. cbn [jceil jmax1]. split; [reflexivity | lia].
Qed.

End MeasurerFacts.

(** A wrapper that reports no width and a content of 3324 pixels: the
    width falls back to 800 pixels. *)
Lemma calcularPaginas_zero_width_fallback_witness :
  Measurer.wrapperWidth
    {| Measurer.offsetWidth := 0; Measurer.scrollWidth := 0; Measurer.scrollHeight := 3324 |}
  = 800%N
  /\ exists r n,
       Measurer64.calcularPaginasComunicado
         {| Measurer.wrapper :=
              Some {| Measurer.offsetWidth := 0; Measurer.scrollWidth := 0;
                      Measurer.scrollHeight := 3324 |};
            Measurer.paginaElement := true |} = Some r
       /\ Measurer.totalPages r = Fin n /\ (1 <= n)%Z.
Proof.
  destruct (@calcularPaginas_zero_width_fallback
              {| Measurer.offsetWidth := 0; Measurer.scrollWidth := 0;
                 Measurer.scrollHeight := 3324 |} true)
    as (Ew & _ & r & q & n & Er & _ & _ & _ & En & Hn).
  - reflexivity.
  - reflexivity.
  - reflexivity.
  - split; [exact Ew|]. exists r, n. repeat split; assumption.
Defined.

(** ** Page estimator *)

Section EstimatorFacts.
Import JsString Estimator EstimatorSpec.

Variable layout : list jsstring -> N.

(** The estimate is the page formula applied to the measured height with
    the scale 210/800 and 167 mm of content per page. *)
Lemma estimate_pages_formula (contentHeight : N) :
  estimate_pages contentHeight
  = Fin (Z.max 1 (Qceiling (inject_Z (Z.of_N contentHeight)
                            * (inject_Z 210 / inject_Z 800)
                            / (inject_Z 297 + - inject_Z 80 + - inject_Z 30 + - inject_Z 20)))).
Proof.
  unfold estimate_pages, of_N, of_Z.
  rewrite (@jdiv_Fin (inject_Z 210) (inject_Z 800)) by (vm_compute; intros Hz; discriminate Hz).
  cbn [jmul jsub jadd jneg].
  rewrite jdiv_Fin by (vm_compute; intros Hz; discriminate Hz).
  reflexivity.
Qed.

Lemma estimate_pages_mono (h1 h2 : N) : (h1 <= h2)%N ->
  exists n1 n2, estimate_pages h1 = Fin n1 /\ estimate_pages h2 = Fin n2
                /\ (1 <= n1)%Z /\ (n1 <= n2)%Z.
Proof.
  intros Hle. rewrite !estimate_pages_formula.
  eexists; eexists. split; [reflexivity|]. split; [reflexivity|].
  split; [lia|].
  apply Z.max_le_compat_l, Qceiling_resp_le.
  apply Qmult_le_compat_r; [|vm_compute; discriminate].
  apply Qmult_le_compat_r; [|vm_compute; discriminate].
  rewrite <- Zle_Qle. lia.
Qed.

Lemma shown_pages_estimate (value : jsstring) : truthy (trim value) = true ->
  shown_pages layout value = Some (estimate_pages (layout (paragraphs_of value))).
Proof.
  intros Ht. unfold shown_pages, estimarPaginasComunicado, form_with.
  cbn [contenidoTextarea paginasEstimadas numPaginas andb negb].
  rewrite Ht. cbn [negb]. fold (paragraphs_of value).
  destruct (more_than_one _); reflexivity.
Qed.

(** C9 (amended).  For two texts that are not blank, when the height
    measured for the first is at most the height measured for the second,
    the page estimate of the first is at most that of the second; both are
    numbers and at least 1. *)
Theorem estimate_monotone_in_height (v1 v2 : jsstring) :
  truthy (trim v1) = true -> truthy (trim v2) = true ->
  (layout (paragraphs_of v1) <= layout (paragraphs_of v2))%N ->
  exists n1 n2,
    shown_pages layout v1 = Some (Fin n1)
    /\ shown_pages layout v2 = Some (Fin n2)
    /\ (1 <= n1)%Z /\ (n1 <= n2)%Z.
Proof.
  intros H1 H2 Hle.
  destruct (estimate_pages_mono Hle) as (n1 & n2 & E1 & E2 & L1 & L2).
  exists n1, n2. rewrite !shown_pages_estimate, E1, E2 by assumption.
  repeat split; assumption.
Qed.

End EstimatorFacts.

(** Ten paragraphs in eleven lines against ten paragraphs of two lines. *)
Lemma estimate_monotone_in_height_witness :
  exists n1 n2,
    EstimatorSpec.shown_pages EstimatorSpec.wrap_layout EstimatorSpec.ten_long = Some (Fin n1)
    /\ EstimatorSpec.shown_pages EstimatorSpec.wrap_layout EstimatorSpec.ten_short
       = Some (Fin n2)
    /\ (n1 <= n2)%Z.
Proof.
  destruct (@estimate_monotone_in_height EstimatorSpec.wrap_layout
              EstimatorSpec.ten_long EstimatorSpec.ten_short)
    as (n1 & n2 & E1 & E2 & _ & L).
  - reflexivity.
  - reflexivity.
  - vm_compute. discriminate.
  - exists n1, n2. repeat split; assumption.
Defined.

(** Both texts have ten paragraphs and the second is the longer one, 1011
    code units against 959, yet it is estimated at one page and the first at
    two: its words fill eleven lines, those of the first twenty. *)
Lemma estimate_monotone_counterexample :
  ~ EstimatorSpec.monotone_in_length EstimatorSpec.wrap_layout
      EstimatorSpec.ten_short EstimatorSpec.ten_long.
Proof.
  intros H.
  assert (2 <= 1)%Z as Habs; [|lia].
  apply H.
  - vm_compute. reflexivity.
  - vm_compute. repeat constructor.
  - vm_compute. reflexivity.
  - vm_compute. reflexivity.
Qed.

(** ** Content formatter *)

Section FormatterFacts.
Import JsString Regex Formatter.

(** A pattern that starts every alternative with [^] matches at the start
    of the input or nowhere. *)
Lemma match_at_anchored (r : regex) :
  Forall (fun ps => exists ps', ps = Bol :: ps') r ->
  forall s, match_at r false s = false.
Proof.
  intros Hr s. unfold match_at.
  induction Hr as [|ps r (ps' & E) _ IHr]; [reflexivity|].
  subst ps. simpl. exact IHr.
Qed.

Lemma match_later_anchored (r : regex) :
  Forall (fun ps => exists ps', ps = Bol :: ps') r ->
  forall s, match_later r s = false.
Proof.
  intros Hr. induction s as [|c s IH]; [reflexivity|].
  simpl. now rewrite IH, match_at_anchored.
Qed.

(** One or more characters of a class up to the end of the input. *)
Lemma match_plus_to_end (f : N -> bool) (at_start : bool) (s : jsstring) :
  match_here [ManyOf f; Eol] at_start s = truthy s && forallb f s.
Proof.
  cbn [match_here]. induction s as [|c s IH]; [reflexivity|].
  rewrite IH. cbn [truthy forallb andb].
  destruct (f c); [|reflexivity]. cbn [andb].
  destruct s as [|d s]; [reflexivity|].
  cbn [truthy negb andb forallb]. now rewrite orb_false_r.
Qed.

(** A word matches where the input starts with it. *)
Lemma match_word (w : jsstring) : forall at_start s,
  match_here (word w) at_start s = starts_with w s.
Proof.
  induction w as [|p w IH]; intros at_start s; [reflexivity|].
  cbn [word map match_here chr starts_with]. fold (word w).
  destruct s as [|c s]; [reflexivity|]. rewrite IH. reflexivity.
Qed.

Lemma matches_title_pattern (s : jsstring) :
  matches title_pattern s = truthy s && forallb upper_or_space s.
Proof.
  unfold matches. rewrite match_later_anchored, orb_false_r.
  - unfold match_at, title_pattern. cbn [existsb]. rewrite orb_false_r.
    change (match_here [Bol; ManyOf upper_or_space; Eol] true s)
      with (true && match_here [ManyOf upper_or_space; Eol] true s).
    rewrite match_plus_to_end. reflexivity.
  - repeat constructor. eexists. reflexivity.
Qed.

Lemma matches_articulo_pattern (s : jsstring) :
  matches articulo_pattern s
  = starts_with articulo s || starts_with articulo_acento s.
Proof.
  unfold matches. rewrite match_later_anchored, orb_false_r.
  - unfold match_at, articulo_pattern. cbn [existsb]. rewrite orb_false_r.
    change (match_here (Bol :: word articulo) true s)
      with (true && match_here (word articulo) true s).
    change (match_here (Bol :: word articulo_acento) true s)
      with (true && match_here (word articulo_acento) true s).
    rewrite !match_word. reflexivity.
  - repeat constructor; eexists; reflexivity.
Qed.

End FormatterFacts.

Section FormatterSpecFacts.
Import JsString Regex Formatter FormatterSpec.

Lemma is_space_white (c : N) : is_space c = true <-> white c.
Proof.
  unfold white, is_space. cbn [In]. split.
  - intros H.
    repeat match type of H with
    | (_ || _)%bool = true => apply orb_true_iff in H; destruct H as [H|H]
    | (_ && _)%bool = true => apply andb_true_iff in H; destruct H as [? ?]
    end;
    repeat match goal with
    | H : (_ && _)%bool = true |- _ => apply andb_true_iff in H; destruct H as [? ?]
    | H : (_ <=? _)%N = true |- _ => apply N.leb_le in H
    | H : (_ =? _)%N = true |- _ => apply N.eqb_eq in H
    end; lia.
  - intros H.
    repeat match type of H with
    | _ \/ _ => destruct H as [H|H]
    | False => contradiction
    end; subst c; reflexivity.
Qed.

Lemma is_space_not_white (c : N) : is_space c = false <-> ~ white c.
Proof.
  rewrite <- is_space_white. destruct (is_space c); split; congruence.
Qed.

Lemma forallb_space_blank (l : jsstring) : forallb is_space l = true <-> blank l.
Proof.
  unfold blank. rewrite forallb_forall. split; intros H c Hc.
  - apply is_space_white, H, Hc.
  - apply is_space_white, H, Hc.
Qed.

Lemma upper_or_space_capital (c : N) : upper_or_space c = true <-> capital c \/ white c.
Proof.
  unfold upper_or_space. rewrite orb_true_iff, is_space_white.
  assert (((65 <=? c) && (c <=? 90) || (c =? 193) || (c =? 201) || (c =? 205)
           || (c =? 211) || (c =? 218) || (c =? 209))%N = true <-> capital c) as E.
  { unfold capital. cbn [In]. split.
    - intros H.
      repeat match type of H with
      | (_ || _)%bool = true => apply orb_true_iff in H; destruct H as [H|H]
      end;
      repeat match goal with
      | H : (_ && _)%bool = true |- _ => apply andb_true_iff in H; destruct H as [? ?]
      | H : (_ <=? _)%N = true |- _ => apply N.leb_le in H
      | H : (_ =? _)%N = true |- _ => apply N.eqb_eq in H
      end; lia.
    - intros [H|H].
      + destruct H as (H1 & H2). apply N.leb_le in H1, H2. now rewrite H1, H2.
      + repeat match type of H with
        | _ \/ _ => destruct H as [H|H]
        | False => contradiction
        end; subst c; reflexivity. }
  rewrite E. reflexivity.
Qed.

(** *** Lines *)

Lemma split_lines_not_nil (s : jsstring) : split_lines s <> [].
Proof.
  destruct s as [|c s]; cbn; [discriminate|].
  destruct (c =? 10)%N; [discriminate|]. destruct (split_lines s); discriminate.
Qed.

Lemma split_lines_join (s : jsstring) : join (split_lines s) = s.
Proof.
  induction s as [|c s IH]; [reflexivity|].
  cbn [split_lines]. destruct (N.eqb_spec c 10) as [E|N].
  - subst c. pose proof (split_lines_not_nil s) as Hn.
    destruct (split_lines s) as [|l ls]; [contradiction|].
    change (join ([] :: l :: ls)) with ([] ++ [10%N] ++ join (l :: ls)).
    rewrite IH. reflexivity.
  - pose proof (split_lines_not_nil s) as Hn.
    destruct (split_lines s) as [|l ls]; [contradiction|].
    destruct ls as [|l' ls].
    + cbn in *. now rewrite IH.
    + change (join ((c :: l) :: l' :: ls)) with ((c :: l) ++ [10%N] ++ join (l' :: ls)).
      change (join (l :: l' :: ls)) with (l ++ [10%N] ++ join (l' :: ls)) in IH.
      cbn [app]. cbn [app] in IH. now rewrite IH.
Qed.

Lemma split_lines_no_feed (s : jsstring) : Forall (fun l => ~ In 10%N l) (split_lines s).
Proof.
  induction s as [|c s IH]; [repeat constructor; intros []|].
  cbn [split_lines]. destruct (N.eqb_spec c 10) as [E|N].
  - constructor; [intros []|exact IH].
  - destruct (split_lines s) as [|l ls].
    + repeat constructor. intros [H|[]]. congruence.
    + inversion IH as [|? ? Hl Hls]; subst. constructor; [|exact Hls].
      intros [H|H]; [congruence | contradiction].
Qed.

Lemma split_lines_of (s : jsstring) : lines_of s (split_lines s).
Proof.
  split; [apply split_lines_not_nil|].
  split; [apply split_lines_join | apply split_lines_no_feed].
Qed.

(** *** The text of a line *)

Lemma trimStart_split (l : jsstring) :
  exists pre, l = pre ++ trimStart l /\ blank pre
    /\ (forall c, hd_error (trimStart l) = Some c -> ~ white c).
Proof.
  induction l as [|c l (pre & E & Hpre & Hhd)].
  - exists []. repeat split; [intros c []|discriminate].
  - cbn [trimStart]. destruct (is_space c) eqn:Ec.
    + exists (c :: pre). repeat split.
      * cbn. now rewrite <- E.
      * intros d [Hd|Hd]; [subst d; now apply is_space_white | now apply Hpre].
      * exact Hhd.
    + exists []. repeat split; [intros d []|].
      intros d Hd. cbn in Hd. inversion Hd; subst d. now apply is_space_not_white.
Qed.

Lemma trimStart_nil (l : jsstring) : trimStart l = [] <-> blank l.
Proof.
  induction l as [|c l IH]; cbn [trimStart].
  - split; [intros _ c []|reflexivity].
  - destruct (is_space c) eqn:Ec.
    + rewrite IH. split; intros H d.
      * intros [Hd|Hd]; [subst d; now apply is_space_white | now apply H].
      * intros Hd. apply H. now right.
    + split; [discriminate|]. intros H. exfalso.
      apply is_space_not_white in Ec. apply Ec, H. now left.
Qed.

Lemma blank_rev (l : jsstring) : blank (rev l) <-> blank l.
Proof.
  unfold blank. split; intros H c Hc; apply H.
  - now apply in_rev in Hc.
  - now apply in_rev.
Qed.

Lemma blank_app (a b : jsstring) : blank (a ++ b) <-> blank a /\ blank b.
Proof.
  unfold blank. split.
  - intros H. split; intros c Hc; apply H, in_or_app; auto.
  - intros (Ha & Hb) c Hc. apply in_app_or in Hc. destruct Hc; auto.
Qed.

(** [trim] takes the white space off both ends. *)
Lemma trim_text_of (l : jsstring) : text_of l (trim l).
Proof.
  unfold trim.
  destruct (trimStart_split l) as (pre & El & Hpre & Hhd).
  destruct (trimStart_split (rev (trimStart l))) as (post & Er & Hpost & Hlast).
  set (u := trimStart l) in *. set (w := trimStart (rev u)) in *.
  assert (u = rev w ++ rev post) as Eu.
  { rewrite <- rev_app_distr, <- Er. symmetry. apply rev_involutive. }
  exists pre, (rev post). repeat split.
  - rewrite <- Eu. exact El.
  - exact Hpre.
  - now apply blank_rev.
  - intros c Hc. apply Hhd. rewrite Eu.
    destruct (rev w); [discriminate|]. exact Hc.
  - intros c Hc. rewrite rev_involutive in Hc. now apply Hlast.
Qed.

Lemma trim_truthy (l : jsstring) : truthy (trim l) = true <-> ~ blank l.
Proof.
  unfold trim.
  destruct (trimStart_split l) as (pre & El & Hpre & Hhd).
  set (u := trimStart l) in *.
  assert (trimStart (rev u) = [] <-> blank l) as E.
  { rewrite trimStart_nil, blank_rev. split.
    - intros Hu. rewrite El. apply blank_app. split; assumption.
    - intros Hl. rewrite El in Hl. apply blank_app in Hl. apply Hl. }
  destruct (trimStart (rev u)) as [|c w] eqn:Ew.
  - cbn. split; [discriminate|]. intros H. exfalso. apply H, E. reflexivity.
  - split.
    + intros _ Hb. apply E in Hb. discriminate.
    + intros _. cbn [rev]. destruct (rev w); reflexivity.
Qed.

(** *** Escape, markup and class *)

Lemma escapeHtml_escaped (t : jsstring) : escapeHtml t = escaped t.
Proof.
  induction t as [|c t IH]; [reflexivity|].
  cbn [escapeHtml escaped flat_map]. unfold escaped in IH. rewrite IH.
  unfold escaped_char.
  destruct (c =? 38)%N; [reflexivity|]. destruct (c =? 60)%N; [reflexivity|].
  destruct (c =? 62)%N; [reflexivity|]. destruct (c =? 160)%N; reflexivity.
Qed.

Lemma starts_with_prefix (w t : jsstring) :
  starts_with w t = true <-> exists rest, t = w ++ rest.
Proof.
  revert t. induction w as [|p w IH]; intros t.
  - cbn. split; [intros _; now exists t | reflexivity].
  - destruct t as [|c t]; cbn [starts_with].
    + split; [discriminate | intros (rest & E); discriminate].
    + rewrite andb_true_iff, N.eqb_eq, IH. split.
      * intros (E & rest & Er). subst. now exists rest.
      * intros (rest & E). inversion E; subst. split; [reflexivity | now exists rest].
Qed.

Lemma is_title_titled (t : jsstring) :
  t <> [] ->
  (matches title_pattern t || matches articulo_pattern t = true <-> titled t).
Proof.
  intros Ht. rewrite matches_title_pattern, matches_articulo_pattern.
  assert (truthy t = true) as Tt by (destruct t; [contradiction | reflexivity]).
  rewrite Tt. cbn [andb]. unfold titled, starts_with_articulo.
  rewrite !orb_true_iff, forallb_forall, !starts_with_prefix.
  split.
  - intros [H|H]; [left | right; exact H].
    intros c Hc. apply upper_or_space_capital, H, Hc.
  - intros [H|H]; [left | right; exact H].
    intros c Hc. apply upper_or_space_capital, H, Hc.
Qed.

(** The callback builds the element of a line that is not blank. *)
Lemma format_paragraph_element (l : jsstring) :
  ~ blank l -> element_of titled l (format_paragraph l).
Proof.
  intros Hl. exists (trim l). split; [apply trim_text_of|].
  assert (trim l <> []) as Ht.
  { apply trim_truthy in Hl. destruct (trim l); [discriminate Hl | discriminate]. }
  unfold format_paragraph.
  destruct (matches title_pattern (trim l) || matches articulo_pattern (trim l)) eqn:E.
  - left. split; [now apply is_title_titled|].
    rewrite escapeHtml_escaped. reflexivity.
  - right. split.
    + intros T. apply (is_title_titled Ht) in T. congruence.
    + rewrite escapeHtml_escaped.
      destruct (matches list_pattern (trim l)); reflexivity.
Qed.

Lemma nonblank_elements (lines : list jsstring) :
  elements_of titled lines
    (map format_paragraph (filter (fun p => truthy (trim p)) lines)).
Proof.
  induction lines as [|l lines IH]; [constructor|].
  cbn [filter]. destruct (truthy (trim l)) eqn:E.
  - cbn [map]. apply elements_line; [now apply trim_truthy| |exact IH].
    apply format_paragraph_element. now apply trim_truthy.
  - apply elements_blank; [|exact IH].
    destruct (forallb is_space l) eqn:B; [now apply forallb_space_blank|].
    exfalso. assert (~ blank l) as Nb.
    { intros Hb. apply forallb_space_blank in Hb. congruence. }
    apply trim_truthy in Nb. congruence.
Qed.

End FormatterSpecFacts.

Section FormatterTheorems.
Import JsString Regex Formatter FormatterSpec.

(** A line without white space is its own text. *)
Lemma text_of_no_white (l t : jsstring) :
  (forall c, In c l -> ~ white c) -> text_of l t -> t = l.
Proof.
  intros Hl (pre & post & E & Hpre & Hpost & _).
  assert (pre = []) as P.
  { destruct pre as [|c pre]; [reflexivity|]. exfalso.
    apply (Hl c); [rewrite E; now left | apply Hpre; now left]. }
  assert (post = []) as Q.
  { destruct post as [|c post]; [reflexivity|]. exfalso.
    apply (Hl c); [|apply Hpost; now left].
    rewrite E. apply in_or_app. right. apply in_or_app. right. now left. }
  subst pre post. cbn in E. now rewrite app_nil_r in E.
Qed.

(** C10 (amended).  The formatter returns the empty string for [null] and
    for the empty string.  Otherwise its result is the markup of the
    content: one [p] element for each line that is not blank, in order, and
    nothing for the blank lines; the element holds the text of the line
    without the white space at its ends, HTML-escaped, under the class
    [comunicado-paragraph-title] exactly when that text consists of the
    capitals [A-Z], [Á É Í Ó Ú Ñ] and white space only or starts with
    ARTICULO or ARTÍCULO, and under the class [comunicado-paragraph]
    otherwise. *)
Theorem formatComunicadoContent_spec :
  formatComunicadoContent None = []
  /\ formatComunicadoContent (Some []) = []
  /\ forall c s, markup_of titled (c :: s) (formatComunicadoContent (Some (c :: s))).
Proof.
  split; [reflexivity|]. split; [reflexivity|].
  intros c s. exists (split_lines (c :: s)).
  exists (map format_paragraph (nonblank_lines (c :: s))).
  split; [apply split_lines_of|]. split; [apply nonblank_elements | reflexivity].
Qed.

End FormatterTheorems.

(** The line [ÜBER] consists of uppercase letters only, the first of them
    accented, and gets the class of a paragraph: the pattern of the code
    knows the accented capitals of Spanish and no others. *)
Lemma formatComunicadoContent_counterexample :
  ~ FormatterSpec.markup_of FormatterSpec.titled_as_stated [220; 66; 69; 82]%N
      (Formatter.formatComunicadoContent (Some [220; 66; 69; 82]%N)).
Proof.
  intros (lines & outs & (Hne & Hj & Hnf) & Hel & Hout).
  assert (forall c, In c [220; 66; 69; 82]%N -> ~ FormatterSpec.white c) as Hw.
  { intros c Hc Hwc. unfold FormatterSpec.white in Hwc. cbn [In] in Hc, Hwc.
    repeat match goal with H : _ \/ _ |- _ => destruct H end; subst; try discriminate;
      contradiction. }
  destruct lines as [|l [|l' ls]]; [contradiction| |].
  - cbn in Hj. subst l.
    inversion Hel as [|? ? ? Hb _|? ? out outs' Hb He Hrest]; subst.
    + apply (Hw 220%N); [now left | apply Hb; now left].
    + inversion Hrest; subst. destruct He as (t & Ht & Hcls).
      apply (text_of_no_white Hw) in Ht. subst t.
      destruct Hcls as [(_ & Eo)|(Hn & _)].
      * subst out. vm_compute in Hout. discriminate Hout.
      * apply Hn. left. intros c Hc. left. unfold FormatterSpec.uppercase_letter.
        cbn [In] in Hc.
        repeat match goal with H : _ \/ _ |- _ => destruct H end; subst; try contradiction; lia.
  - assert (In 10%N [220; 66; 69; 82]%N) as H10.
    { rewrite <- Hj. change (FormatterSpec.join (l :: l' :: ls))
        with (l ++ [10%N] ++ FormatterSpec.join (l' :: ls)).
      apply in_or_app. right. now left. }
    cbn [In] in H10.
    repeat match goal with H : _ \/ _ |- _ => destruct H end; try discriminate; contradiction.
Qed.

(** ** The documents of the batch export *)

Section BatchLayoutFacts.
Import Batch BatchSpec BatchLayout.

Variables pageWidth pageHeight : Q.
Variable splitTextToSize : string -> Z -> option string -> Q -> list string.
Variables toUpperCase toLowerCase : string -> string.
Variable today : string.

Lemma all_ops_call o d : all_ops (call o d) = all_ops d ++ [o].
Proof.
  unfold all_ops, pages, call. cbn [finished current].
  rewrite !concat_app. cbn [List.concat]. rewrite !app_nil_r, app_assoc. reflexivity.
Qed.

Lemma all_ops_addPage d : all_ops (addPage d) = all_ops d.
Proof.
  unfold all_ops, pages, addPage. cbn [finished current].
  rewrite !concat_app. cbn [List.concat]. rewrite !app_nil_r. reflexivity.
Qed.

Lemma all_ops_calls l : forall d, all_ops (calls l d) = all_ops d ++ l.
Proof.
  induction l as [|o l IH]; intros d.
  - cbn. now rewrite app_nil_r.
  - unfold calls in *. cbn [fold_left]. rewrite IH, all_ops_call, <- app_assoc.
    reflexivity.
Qed.

Lemma text_ops_app a b : text_ops (a ++ b) = text_ops a ++ text_ops b.
Proof. unfold text_ops. apply flat_map_app. Qed.

(** The content lines are written one by one, in order, each between the
    top margin and [pageHeight - 30], whatever pages they land on. *)
Lemma put_lines_ops lines : forall d y d' y',
  50 <= pageHeight -> margin <= y ->
  fold_left (put_line pageHeight) lines (d, y) = (d', y') ->
  exists ys,
    List.length ys = List.length lines
    /\ Forall (fun y => margin <= y /\ y <= pageHeight - 30) ys
    /\ all_ops d'
       = all_ops d ++ map (fun ly => Text [fst ly] margin (snd ly)) (combine lines ys).
Proof.
  unfold margin.
  induction lines as [|line lines IH]; intros d y d' y' Hp Hy E.
  - cbn in E. inversion E; subst. exists []. cbn. rewrite app_nil_r. repeat split.
    constructor.
  - cbn [fold_left] in E. unfold put_line at 2 in E.
    destruct (Qle_bool y (pageHeight - 30)) eqn:Ey; cbn [negb] in E.
    + apply Qle_bool_iff in Ey.
      destruct (IH _ _ _ _ Hp (ltac:(unfold margin in *; lra) : 20 <= y + 6) E)
        as (ys & Hl & Hb & Ho).
      exists (y :: ys). split; [cbn; now rewrite Hl|]. split.
      * constructor; [split; assumption | exact Hb].
      * rewrite Ho, all_ops_call, <- app_assoc. reflexivity.
    + destruct (IH _ _ _ _ Hp (ltac:(unfold margin; lra) : 20 <= margin + 6) E)
        as (ys & Hl & Hb & Ho).
      exists (margin :: ys). split; [cbn; now rewrite Hl|]. split.
      * constructor; [unfold margin; split; lra | exact Hb].
      * rewrite Ho, all_ops_call, all_ops_addPage, <- app_assoc. reflexivity.
Qed.

Lemma text_ops_lines lines : forall ys,
  List.length ys = List.length lines ->
  text_ops (map (fun ly => Text [fst ly] margin (snd ly)) (combine lines ys))
  = combine (map (fun l => [l]) lines) ys.
Proof.
  induction lines as [|l lines IH]; intros [|y ys] Hl; try discriminate Hl;
    [reflexivity|].
  cbn. f_equal. apply IH. now inversion Hl.
Qed.

(** X4.  The texts of the document of one comunicado, from the first page to the
    last: the banner, the code, the type and department, the title, every
    line of the content once and in order, each written between the top
    margin and [pageHeight - 30], and the footer at [pageHeight - 10]. *)
Theorem batch_document_texts (c : comunicado) (d : pdf) :
  50 <= pageHeight ->
  render_comunicado pageWidth pageHeight splitTextToSize toUpperCase today c = inr d ->
  exists t ys,
    tipo c = Some t
    /\ List.length ys
       = List.length (splitTextToSize "normal"%string 11%Z (contenido c)
                        (maxWidth pageWidth))
    /\ Forall (fun y => margin <= y /\ y <= pageHeight - 30) ys
    /\ text_ops (all_ops d)
       = [(["Sistema Administrativo"%string], 30);
          (["Comunicado Digital"%string], 40);
          ([("Código: " ++ template (codigo c))%string], 70);
          ([("Tipo: " ++ toUpperCase t ++ " | Departamento: "
               ++ template (departamento c))%string], 76);
          (splitTextToSize "bold"%string 16%Z (titulo c) (maxWidth pageWidth), 85)]
         ++ combine (map (fun l => [l])
                       (splitTextToSize "normal"%string 11%Z (contenido c)
                          (maxWidth pageWidth))) ys
         ++ [([("Generado el " ++ today ++ " - Sistema Administrativo")%string],
              pageHeight - 10)].
Proof.
  intros Hp E. unfold render_comunicado in E. cbv zeta in E.
  destruct (tipo c) as [t|] eqn:Et; [|discriminate E].
  destruct (fold_left (put_line pageHeight) _ _) as [d1 y1] eqn:Ef in E.
  injection E as Ed. subst d.
  exists t.
  apply put_lines_ops in Ef; [|exact Hp|].
  2:{ unfold margin.
      assert (0 <= inject_Z (Z.of_nat (List.length
                (splitTextToSize "bold"%string 16%Z (titulo c) (maxWidth pageWidth))))) as Hn
        by (change 0 with (inject_Z 0); rewrite <- Zle_Qle; lia).
      lra. }
  destruct Ef as (ys & Hl & Hb & Ho).
  exists ys. split; [reflexivity|]. split; [exact Hl|]. split; [exact Hb|].
  rewrite !all_ops_call, Ho, !all_ops_calls, all_ops_call, !all_ops_calls.
  rewrite !text_ops_app, text_ops_lines by exact Hl.
  rewrite <- !app_assoc. reflexivity.
Qed.


(** *** The log of a batch *)

Let render := render_comunicado pageWidth pageHeight splitTextToSize toUpperCase today.
Let export_from := export_from pageWidth pageHeight splitTextToSize toUpperCase today.

Lemma intersperse_cons {A} (e a b : A) l :
  intersperse e (a :: b :: l) = a :: e :: intersperse e (b :: l).
Proof. reflexivity. Qed.

(** The loop on records that all render logs one save per record and a
    wait of 300 ms after every save but the last. *)
Lemma export_from_waits total : forall cs docs index log,
  Forall2 (fun c d => render c = inr d) cs docs ->
  (index + List.length cs = total)%nat ->
  export_from total index cs log
  = (log ++ intersperse (Wait 300)
              (map (fun cd => SaveFile (file_name (fst cd)) (pages (snd cd)))
                   (combine cs docs)),
     inr tt).
Proof.
  induction cs as [|c cs IH]; intros docs index log Hall Hn.
  - inversion Hall; subst. cbn. now rewrite app_nil_r.
  - inversion Hall as [|? d ? docs' Hd Hrest]; subst.
    subst export_from render. cbn [Batch.export_from].
    unfold bind at 1. rewrite Hd. cbn [lift ret].
    unfold bind at 1. unfold emit at 1. unfold bind at 1.
    destruct cs as [|c' cs].
    + inversion Hrest; subst. cbn [List.length] in *.
      replace (Z.of_nat index <? Z.of_nat (index + 1) - 1)%Z with false
        by (symmetry; apply Z.ltb_ge; lia).
      reflexivity.
    + inversion Hrest as [|? d' ? docs'' Hd' Hrest']; subst.
      cbn [List.length] in *.
      replace (Z.of_nat index <? Z.of_nat (index + S (S (List.length cs))) - 1)%Z
        with true by (symmetry; apply Z.ltb_lt; lia).
      unfold emit at 1.
      rewrite (IH (d' :: docs'') (S index) _ Hrest) by (cbn [List.length]; lia).
      cbn [combine map]. rewrite intersperse_cons, <- !app_assoc. reflexivity.
Qed.

(** X5.  A batch in which every comunicado renders logs the saves in the order
    of the records, with a wait of 300 ms between two consecutive saves and
    none after the last. *)
Theorem batch_waits_between_saves (cs : list comunicado) (docs : list pdf)
    (log : list event) :
  Forall2 (fun c d =>
             render_comunicado pageWidth pageHeight splitTextToSize toUpperCase today c
             = inr d) cs docs ->
  exportComunicadosPDF pageWidth pageHeight splitTextToSize toUpperCase today true cs log
  = (log ++ intersperse (Wait 300)
              (map (fun cd => SaveFile (file_name (fst cd)) (pages (snd cd)))
                   (combine cs docs)),
     inr tt).
Proof.
  intros Hall. unfold exportComunicadosPDF. cbn [negb].
  apply (@export_from_waits (List.length cs) cs docs 0%nat log Hall). reflexivity.
Qed.

(** Whatever the outcome, the loop appends to the log, saves files for a
    front part of its records only and notifies nothing; when it returns
    normally it has saved a file for every record. *)
Lemma export_from_log total : forall cs index log log' res,
  export_from total index cs log = (log', res) ->
  exists done rest events,
    cs = done ++ rest /\ log' = log ++ events
    /\ saved_files events = map file_name done
    /\ notifications events = []
    /\ (forall u, res = inr u -> rest = []).
Proof.
  induction cs as [|c cs IH]; intros index log log' res E.
  - cbn in E. inversion E; subst. exists [], [], [].
    repeat split; auto. symmetry. apply app_nil_r.
  - subst export_from. cbn [Batch.export_from] in E.
    unfold bind at 1 in E.
    destruct (render_comunicado pageWidth pageHeight splitTextToSize toUpperCase today c)
      as [e|d] eqn:Hd; cbn [lift throw ret] in E.
    + inversion E; subst. exists [], (c :: cs), [].
      repeat split; [symmetry; apply app_nil_r|]. intros u Hu. discriminate Hu.
    + unfold bind at 1 in E. unfold emit at 1 in E. unfold bind at 1 in E.
      destruct (Z.of_nat index <? Z.of_nat total - 1)%Z.
      * unfold emit at 1 in E.
        destruct (IH _ _ _ _ E) as (done & rest & events & Hcs & Hlog & Hs & Hn & Hr).
        exists (c :: done), rest,
          (SaveFile (file_name c) (pages d) :: Wait 300 :: events).
        subst cs log'. rewrite <- !app_assoc. cbn. rewrite Hs, Hn. repeat split.
        exact Hr.
      * unfold ret at 1 in E.
        destruct (IH _ _ _ _ E) as (done & rest & events & Hcs & Hlog & Hs & Hn & Hr).
        exists (c :: done), rest, (SaveFile (file_name c) (pages d) :: events).
        subst cs log'. rewrite <- !app_assoc. cbn. rewrite Hs, Hn. repeat split.
        exact Hr.
Qed.

Lemma filter_throwing_incl f : forall l kept,
  filter_throwing f l = inr kept -> incl kept l.
Proof.
  induction l as [|c l IH]; intros kept E.
  - cbn in E. inversion E. intros x [].
  - cbn in E. destruct (f c) as [e|keep]; [discriminate E|].
    destruct (filter_throwing f l) as [e|kept'] eqn:Ef; [discriminate E|].
    inversion E; subst. specialize (IH kept' eq_refl).
    destruct keep; intros x Hx.
    + destruct Hx as [Hx|Hx]; [now left | right; now apply IH].
    + right. now apply IH.
Qed.

Lemma strict_eq_true a b : strict_eq a b = true -> a = b.
Proof.
  destruct a as [x|], b as [y|]; cbn; intros H; try discriminate H; [|reflexivity].
  apply String.eqb_eq in H. now subst.
Qed.

Lemma allowed_filtered s stored :
  Forall (allowed s stored)
    (let comunicados :=
       if negb (isAdmin s) then
         filter (fun c => strict_eq (departamento c) (user_departamento s)
                          || strict_eq (tipo c) (Some "externo"%string)) stored
       else stored in
     let comunicados :=
       if truthy (filter_departamento s) then
         filter (fun c => strict_eq (departamento c) (Some (filter_departamento s)))
                comunicados
       else comunicados in
     if truthy (filter_tipo s) then
       filter (fun c => strict_eq (tipo c) (Some (filter_tipo s))) comunicados
     else comunicados).
Proof.
  cbv zeta. apply Forall_forall. intros c Hc. unfold allowed, visible.
  destruct (truthy (filter_tipo s)) eqn:Et;
    [apply filter_In in Hc; destruct Hc as (Hc & Ht); apply strict_eq_true in Ht|];
  (destruct (truthy (filter_departamento s)) eqn:Ed;
    [apply filter_In in Hc; destruct Hc as (Hc & Hd); apply strict_eq_true in Hd|]);
  (destruct (isAdmin s) eqn:Ea; cbn [negb] in Hc;
    [|apply filter_In in Hc; destruct Hc as (Hc & Hv);
      apply orb_true_iff in Hv;
      assert (departamento c = user_departamento s
              \/ tipo c = Some "externo"%string) as Hv'
        by (destruct Hv as [Hv|Hv]; apply strict_eq_true in Hv; [left|right]; exact Hv)]);
  repeat split; try assumption; intros H; try discriminate H; assumption.
Qed.


(** The end of the caller, from the test of the length on. *)
Lemma App_export_end loaded cs log log' res :
  (if (List.length cs =? 0)%nat then
     emit (Notify "No hay comunicados para exportar" "info")
   else
     exportComunicadosPDF pageWidth pageHeight splitTextToSize toUpperCase today loaded cs ;;;
     emit (Notify (numeral (List.length cs) ++ " comunicado(s) exportado(s) a PDF")
                  "success")) log = (log', res) ->
  exists done rest events,
    cs = done ++ rest /\ log' = log ++ events
    /\ saved_files events = map file_name done
    /\ (forall u, res = inr u ->
        (cs = [] /\ notifications events = ["No hay comunicados para exportar"%string])
        \/ (cs <> [] /\ done = cs
            /\ notifications events
               = [(numeral (List.length cs) ++ " comunicado(s) exportado(s) a PDF")%string])).
Proof.
  destruct cs as [|c cs]; cbn [List.length Nat.eqb]; intros E.
  - unfold emit in E. inversion E; subst.
    exists [], [], [Notify "No hay comunicados para exportar" "info"].
    repeat split. intros u _. left. split; reflexivity.
  - unfold bind in E.
    destruct (exportComunicadosPDF _ _ _ _ _ _ _ _) as [l1 [e|[]]] eqn:Ex;
      unfold exportComunicadosPDF in Ex; destruct loaded; cbn [negb] in Ex.
    + apply export_from_log in Ex.
      destruct Ex as (done & rest & events & Hcs & Hlog & Hs & Hn & Hr).
      inversion E; subst log' res.
      exists done, rest, events. repeat split; try assumption.
      intros u Hu. discriminate Hu.
    + unfold throw in Ex. inversion Ex; subst. inversion E; subst.
      exists [], (c :: cs), []. repeat split; [symmetry; apply app_nil_r|].
      intros u Hu. discriminate Hu.
    + apply export_from_log in Ex.
      destruct Ex as (done & rest & events & Hcs & Hlog & Hs & Hn & Hr).
      unfold emit in E. inversion E; subst log' res.
      specialize (Hr tt eq_refl). subst rest. rewrite app_nil_r in Hcs. subst done.
      eexists (c :: cs), [], (events ++ [_]). rewrite app_nil_r.
      split; [reflexivity|]. split; [subst l1; now rewrite app_assoc|].
      split; [rewrite saved_files_app, Hs; cbn; now rewrite app_nil_r|].
      intros u _. right. split; [discriminate|]. split; [reflexivity|].
      rewrite notifications_app, Hn. reflexivity.
    + unfold throw in Ex. discriminate Ex.
Qed.

(** X6.  Every file the caller saves belongs to a stored comunicado that the
    session may see (its own department or an external one, unless the user
    is an administrator) and that passes the department and type filters in
    force; the files come in the order of the store. *)
Theorem App_export_only_allowed (s : session) (loaded : bool)
    (stored : list comunicado) (log log' : list event) (res : exn + unit) :
  App_exportComunicadosPDF pageWidth pageHeight splitTextToSize toUpperCase toLowerCase
    today s loaded stored log = (log', res) ->
  exists exported events,
    log' = log ++ events
    /\ saved_files events = map file_name exported
    /\ Forall (allowed s stored) exported.
Proof.
  unfold App_exportComunicadosPDF. cbv zeta.
  pose proof (allowed_filtered s stored) as Hall. cbv zeta in Hall.
  set (cs0 := if truthy (filter_tipo s) then _ else _) in *.
  intros E. unfold bind at 1 in E.
  destruct (truthy (toLowerCase (search_comunicados s))).
  - destruct (filter_throwing _ cs0) as [e|kept] eqn:Ef; cbn [lift throw ret] in E.
    + inversion E; subst. exists [], []. rewrite app_nil_r. repeat split. constructor.
    + apply filter_throwing_incl in Ef.
      apply App_export_end in E.
      destruct E as (done & rest & events & Hcs & Hlog & Hs & _).
      exists done, events. split; [exact Hlog|]. split; [exact Hs|].
      apply Forall_forall. intros c Hc.
      apply (proj1 (Forall_forall _ _) Hall). apply Ef. subst kept.
      apply in_or_app. now left.
  - cbn [ret] in E. apply App_export_end in E.
    destruct E as (done & rest & events & Hcs & Hlog & Hs & _).
    exists done, events. split; [exact Hlog|]. split; [exact Hs|].
    apply Forall_forall. intros c Hc.
    apply (proj1 (Forall_forall _ _) Hall). rewrite Hcs.
    apply in_or_app. now left.
Qed.

(** X7.  When the caller returns normally it has shown exactly one notification:
    that there is nothing to export, and then no file was saved, or the
    number of exported comunicados, which is the number of files saved. *)
Theorem App_export_count_reported (s : session) (loaded : bool)
    (stored : list comunicado) (log log' : list event) (u : unit) :
  App_exportComunicadosPDF pageWidth pageHeight splitTextToSize toUpperCase toLowerCase
    today s loaded stored log = (log', inr u) ->
  exists events,
    log' = log ++ events
    /\ ((saved_files events = []
         /\ notifications events = ["No hay comunicados para exportar"%string])
        \/ (saved_files events <> []
            /\ notifications events
               = [(numeral (List.length (saved_files events))
                   ++ " comunicado(s) exportado(s) a PDF")%string])).
Proof.
  unfold App_exportComunicadosPDF. cbv zeta.
  set (cs0 := if truthy (filter_tipo s) then _ else _) in *.
  intros E. unfold bind at 1 in E.
  assert (forall cs,
            (if (List.length cs =? 0)%nat then
               emit (Notify "No hay comunicados para exportar" "info")
             else
               exportComunicadosPDF pageWidth pageHeight splitTextToSize toUpperCase
                 today loaded cs ;;;
               emit (Notify (numeral (List.length cs)
                             ++ " comunicado(s) exportado(s) a PDF") "success")) log
            = (log', inr u) ->
            exists events,
              log' = log ++ events
              /\ ((saved_files events = []
                   /\ notifications events = ["No hay comunicados para exportar"%string])
                  \/ (saved_files events <> []
                      /\ notifications events
                         = [(numeral (List.length (saved_files events))
                             ++ " comunicado(s) exportado(s) a PDF")%string]))) as Hend.
  { intros cs Ec. apply App_export_end in Ec.
    destruct Ec as (done & rest & events & Hcs & Hlog & Hs & Hr).
    exists events. split; [exact Hlog|].
    destruct (Hr u eq_refl) as [(Hnil & Hn)|(Hne & Hd & Hn)].
    - left. rewrite Hnil in Hcs. destruct done; [|discriminate Hcs].
      split; [exact Hs | exact Hn].
    - right. subst done. rewrite Hs, length_map. split; [|exact Hn].
      destruct cs; [contradiction | discriminate]. }
  destruct (truthy (toLowerCase (search_comunicados s))).
  - destruct (filter_throwing _ cs0) as [e|kept]; cbn [lift throw ret] in E.
    + discriminate E.
    + exact (Hend kept E).
  - cbn [ret] in E. exact (Hend cs0 E).
Qed.

End BatchLayoutFacts.

(** Three short comunicados on A4 pages. *)
Lemma batch_waits_between_saves_witness :
  exists d1 d2 d3,
    Batch.exportComunicadosPDF 210 297 BatchSpec.one_line BatchSpec.same "1/1/2026" true
      [BatchSpec.record "A-1" (Some "interno"%string);
       BatchSpec.record "B-2" (Some "interno"%string);
       BatchSpec.record "C-3" (Some "externo"%string)] []
    = ([Batch.SaveFile "Comunicado-A-1.pdf" d1; Batch.Wait 300;
        Batch.SaveFile "Comunicado-B-2.pdf" d2; Batch.Wait 300;
        Batch.SaveFile "Comunicado-C-3.pdf" d3], inr tt).
Proof.
  eexists; eexists; eexists.
  refine (@batch_waits_between_saves 210 297 BatchSpec.one_line BatchSpec.same "1/1/2026"
            [BatchSpec.record "A-1" (Some "interno"%string);
             BatchSpec.record "B-2" (Some "interno"%string);
             BatchSpec.record "C-3" (Some "externo"%string)]
            [_; _; _] [] _).
  repeat constructor.
Defined.

(** A content of fifty lines on A4 pages: the lines go down to 262 mm on
    the first page and start again at 20 mm on the second. *)
Lemma batch_document_texts_witness :
  exists d ys,
    Batch.render_comunicado 210 297 BatchLayout.fifty_lines BatchSpec.same "1/1/2026"
      (BatchSpec.record "A-1" (Some "interno"%string)) = inr d
    /\ List.length ys = 50%nat
    /\ Forall (fun y => Batch.margin <= y /\ y <= 297 - 30) ys.
Proof.
  eexists.
  edestruct (@batch_document_texts 210 297 BatchLayout.fifty_lines BatchSpec.same
               "1/1/2026" (BatchSpec.record "A-1" (Some "interno"%string)))
    as (t & ys & _ & Hl & Hb & _).
  - vm_compute. discriminate.
  - reflexivity.
  - exists ys. split; [reflexivity|]. split; [exact Hl | exact Hb].
Defined.

(** A user of ADM exports a store that holds a comunicado of RH. *)
Lemma App_export_only_allowed_witness :
  exists exported events,
    Batch.saved_files events = ["Comunicado-A-1.pdf"%string; "Comunicado-C-3.pdf"%string]
    /\ Batch.saved_files events = map Batch.file_name exported
    /\ Forall (BatchLayout.allowed BatchLayout.clerk BatchLayout.mixed_store) exported.
Proof.
  edestruct (@App_export_only_allowed 210 297 BatchSpec.one_line BatchSpec.same
               BatchSpec.same "1/1/2026" BatchLayout.clerk true BatchLayout.mixed_store [])
    as (exported & events & Hlog & Hs & Hall).
  - vm_compute. reflexivity.
  - exists exported, events. split; [|split; assumption].
    cbn [app] in Hlog. rewrite <- Hlog. reflexivity.
Defined.

Lemma App_export_count_reported_witness :
  exists events,
    Batch.saved_files events = ["Comunicado-A-1.pdf"%string; "Comunicado-C-3.pdf"%string]
    /\ Batch.notifications events = ["2 comunicado(s) exportado(s) a PDF"%string].
Proof.
  edestruct (@App_export_count_reported 210 297 BatchSpec.one_line BatchSpec.same
               BatchSpec.same "1/1/2026" BatchLayout.clerk true BatchLayout.mixed_store [])
    as (events & Hlog & _).
  - vm_compute. reflexivity.
  - exists events. cbn [app] in Hlog. rewrite <- Hlog. split; reflexivity.
Defined.

(** ** Markup of the formatted content *)

Section FormatterMarkupFacts.
Import JsString Regex Formatter FormatterMarkup.

Lemma count_app c a b : count c (a ++ b) = (count c a + count c b)%nat.
Proof. unfold count. now rewrite filter_app, length_app. Qed.

(** The escaped text holds no angle bracket. *)
Lemma escapeHtml_no_bracket (text : jsstring) :
  count 60 (escapeHtml text) = 0%nat /\ count 62 (escapeHtml text) = 0%nat.
Proof.
  induction text as [|c rest (IH1 & IH2)]; [split; reflexivity|].
  cbn [escapeHtml]. rewrite !count_app, IH1, IH2.
  destruct (c =? 38)%N eqn:E1; [split; reflexivity|].
  destruct (c =? 60)%N eqn:E2; [split; reflexivity|].
  destruct (c =? 62)%N eqn:E3; [split; reflexivity|].
  destruct (c =? 160)%N eqn:E4; [split; reflexivity|].
  unfold count. cbn [filter].
  rewrite (N.eqb_sym 60 c), (N.eqb_sym 62 c), E2, E3. split; reflexivity.
Qed.

(** A paragraph element has the brackets of its two tags. *)
Lemma p_element_brackets cls inner :
  count 60 cls = 0%nat -> count 62 cls = 0%nat ->
  count 60 inner = 0%nat -> count 62 inner = 0%nat ->
  count 60 (p_element cls inner) = 2%nat /\ count 62 (p_element cls inner) = 2%nat.
Proof.
  intros H1 H2 H3 H4. unfold p_element.
  rewrite !count_app, H1, H2, H3, H4. split; reflexivity.
Qed.

Lemma format_paragraph_brackets p :
  count 60 (format_paragraph p) = 2%nat /\ count 62 (format_paragraph p) = 2%nat.
Proof.
  unfold format_paragraph. cbv zeta.
  destruct (escapeHtml_no_bracket (trim p)) as (H1 & H2).
  destruct (matches title_pattern (trim p) || matches articulo_pattern (trim p));
    [|destruct (matches list_pattern (trim p))];
    apply p_element_brackets; try assumption; reflexivity.
Qed.

(** X8.  The only angle brackets of the formatted content are those of its
    paragraph tags: two opening and two closing brackets for each line that
    is not blank, none from the text of the comunicado. *)
Theorem formatted_content_brackets (content : option jsstring) :
  count 60 (formatComunicadoContent content)
  = (2 * List.length (paragraphs_of_content content))%nat
  /\ count 62 (formatComunicadoContent content)
     = (2 * List.length (paragraphs_of_content content))%nat.
Proof.
  destruct content as [s|]; [|split; reflexivity].
  unfold formatComunicadoContent, paragraphs_of_content.
  destruct s as [|c s]; [split; reflexivity|].
  cbn [truthy negb].
  induction (nonblank_lines (c :: s)) as [|p l (IH1 & IH2)]; [split; reflexivity|].
  cbn [map List.concat List.length]. rewrite !count_app.
  destruct (format_paragraph_brackets p) as (H1 & H2).
  rewrite H1, H2, IH1, IH2. split; lia.
Qed.

End FormatterMarkupFacts.

(** ** Monotonicity of the measurer *)

Section MeasurerMonotone.
Import Measurer.



End MeasurerMonotone.


(** ** Filters of the list of solicitudes *)

Section SolicitudFiltersFacts.
Import JsString SolicitudFilters.

Lemma filter_filter {A} (f g : A -> bool) (l : list A) :
  filter g (filter f l) = filter (fun a => f a && g a) l.
Proof.
  induction l as [|a l IH]; [reflexivity|].
  cbn [filter]. destruct (f a); cbn [filter andb]; [destruct (g a)|]; now rewrite IH.
Qed.

Lemma filter_true {A} (l : list A) : filter (fun _ => true) l = l.
Proof. induction l as [|a l IH]; [reflexivity|]. cbn. now rewrite IH. Qed.

Lemma filter_optional {A} (on : bool) (f : A -> bool) (l : list A) :
  (if on then filter f l else l) = filter (fun a => negb on || f a) l.
Proof. destruct on; cbn [negb orb]; [reflexivity | now rewrite filter_true]. Qed.

Lemma applySolicitudesFilters_filter (c : controls) (solicitudes : list solicitud) :
  applySolicitudesFilters c solicitudes = filter (passes c) solicitudes.
Proof.
  unfold applySolicitudesFilters. cbv zeta.
  rewrite (filter_optional (truthy (filterEstado c))).
  rewrite (filter_optional (truthy (filterTipo c))).
  rewrite (filter_optional (truthy (filterFechaInicio c))).
  rewrite (filter_optional (truthy (filterFechaFin c))).
  rewrite !filter_filter. apply filter_ext. intros s. unfold passes.
  now rewrite !andb_assoc.
Qed.

(** X10.  The four filters applied one after the other keep, in the order of the
    list, exactly the solicitudes that every control that is set accepts;
    with no control set the list comes back unchanged. *)
Theorem applySolicitudesFilters_passes (c : controls) (solicitudes : list solicitud) :
  applySolicitudesFilters c solicitudes = filter (passes c) solicitudes
  /\ applySolicitudesFilters
       {| filterEstado := []; filterTipo := []; filterFechaInicio := [];
          filterFechaFin := [] |} solicitudes = solicitudes.
Proof.
  split; [apply applySolicitudesFilters_filter | reflexivity].
Qed.

Lemma str_le_prefix (d t : jsstring) : str_le (d ++ t) d = negb (truthy t).
Proof.
  induction d as [|x d IH]; [destruct t; reflexivity|].
  cbn [app str_le]. rewrite N.ltb_irrefl. exact IH.
Qed.

Lemma str_le_extend (d t : jsstring) : str_le d (d ++ t) = true.
Proof.
  induction d as [|x d IH]; [reflexivity|].
  cbn [app str_le]. rewrite N.ltb_irrefl. exact IH.
Qed.

(** X11.  The control of the last day compares the whole time stamp of the
    solicitud with the day: a solicitud whose [fecha] is the day followed by
    anything, as every time stamp of that day is, is filtered out, while the
    control of the first day set to the same day accepts it. *)
Theorem filterFechaFin_excludes_the_day (c : controls) (solicitudes : list solicitud)
    (s : solicitud) (rest : jsstring) :
  truthy (filterFechaFin c) = true -> truthy rest = true ->
  fecha s = Some (filterFechaFin c ++ rest) ->
  ~ In s (applySolicitudesFilters c solicitudes)
  /\ at_least (fecha s) (filterFechaFin c) = true.
Proof.
  intros Hd Hr Hf.
  rewrite applySolicitudesFilters_filter. split.
  - intros Hin. apply filter_In in Hin. destruct Hin as (_ & Hp).
    unfold passes in Hp. rewrite Hd, Hf in Hp. cbn [negb orb at_most] in Hp.
    rewrite str_le_prefix, Hr in Hp. cbn [negb] in Hp.
    rewrite andb_false_r in Hp. discriminate Hp.
  - rewrite Hf. cbn [at_least]. apply str_le_extend.
Qed.

End SolicitudFiltersFacts.

Lemma filterFechaFin_excludes_the_day_witness :
  ~ In SolicitudFilters.tenth_of_march
       (SolicitudFilters.applySolicitudesFilters SolicitudFilters.until_tenth
          [SolicitudFilters.tenth_of_march])
  /\ SolicitudFilters.at_least (SolicitudFilters.fecha SolicitudFilters.tenth_of_march)
       (SolicitudFilters.filterFechaFin SolicitudFilters.until_tenth) = true.
Proof.
  apply (@filterFechaFin_excludes_the_day SolicitudFilters.until_tenth
           [SolicitudFilters.tenth_of_march] SolicitudFilters.tenth_of_march
           (JsString.lit "T14:22:05.123Z")); reflexivity.
Defined.

(** ** Days of a request *)

Section DaysFacts.
Import Days.

Variable localTime : Z -> Z -> Z -> jsnum.

Lemma jabs_jsub_sym (a b : jsnum) : jeq (jabs (jsub a b)) (jabs (jsub b a)).
Proof.
  destruct a as [x| | |], b as [y| | |]; cbn; try exact I.
  rewrite <- (Qabs_opp (x + - y)).
  assert (- (x + - y) == y + - x) as E by ring.
  now rewrite E.
Qed.

Lemma days_of_jeq (a b : jsnum) : jeq a b ->
  int_succ (jceil (jdiv a (of_Z (1000 * 60 * 60 * 24))))
  = int_succ (jceil (jdiv b (of_Z (1000 * 60 * 60 * 24)))).
Proof.
  destruct a as [x| | |], b as [y| | |]; cbn [jeq]; intros E; try contradiction;
    try reflexivity.
  unfold of_Z. rewrite !jdiv_Fin by (vm_compute; intros Hz; discriminate Hz).
  cbn [jceil int_succ]. now rewrite E.
Qed.

(** X12.  The count does not depend on the order of the two dates. *)
Theorem calculateDays_symmetric (a b : date_arg) :
  calculateDays localTime a b = calculateDays localTime b a.
Proof.
  unfold calculateDays. cbv zeta. apply days_of_jeq, jabs_jsub_sym.
Qed.

(** X13.  When the two local midnights are more than [n - 1] and at most [n]
    days of 24 hours apart, in either order, the count is [n + 1]: both end
    days are counted, a day shortened by the change to summer time counts as
    a day, and a gap of [n] days and one hour counts [n + 2]. *)
Theorem calculateDays_inclusive (a b : date_arg) (s e : Q) (n : Z) :
  date_of localTime a = Fin s -> date_of localTime b = Fin e ->
  inject_Z (n - 1) * inject_Z 86400000 < Qabs (e - s) ->
  Qabs (e - s) <= inject_Z n * inject_Z 86400000 ->
  calculateDays localTime a b = Fin (n + 1)%Z.
Proof.
  intros Ha Hb Hlo Hhi. unfold calculateDays. cbv zeta. rewrite Ha, Hb.
  cbn [jsub jneg jadd jabs]. unfold of_Z.
  rewrite jdiv_Fin by (vm_compute; intros Hz; discriminate Hz).
  cbn [jceil int_succ]. f_equal. f_equal.
  change (inject_Z (1000 * 60 * 60 * 24)) with (inject_Z 86400000).
  assert (0 < inject_Z 86400000) as HD by (vm_compute; reflexivity).
  set (D := inject_Z 86400000) in *.
  fold (Qminus e s). set (g := Qabs (e - s)) in *.
  assert (inject_Z (n - 1) < g / D) as L1 by (apply Qlt_shift_div_l; assumption).
  assert (g / D <= inject_Z n) as L2 by (apply Qle_shift_div_r; assumption).
  pose proof (Qle_ceiling (g / D)) as C1.
  pose proof (Qceiling_lt (g / D)) as C2.
  assert (Qceiling (g / D) <= n)%Z as U.
  { rewrite <- (Qceiling_Z n). apply Qceiling_resp_le. exact L2. }
  assert (n - 1 < Qceiling (g / D))%Z as V.
  { rewrite Zlt_Qlt. lra. }
  lia.
Qed.

End DaysFacts.

(** From the third to the seventh of March: five days. *)
Lemma calculateDays_inclusive_witness :
  Days.calculateDays Days.march_2025 (Days.IsoDay 2025 3 3) (Days.IsoDay 2025 3 7)
  = Fin 5%Z.
Proof.
  apply (@calculateDays_inclusive Days.march_2025 (Days.IsoDay 2025 3 3)
           (Days.IsoDay 2025 3 7) _ _ 4%Z eq_refl eq_refl); vm_compute; congruence.
Defined.

(** ** Personal codes *)

Section PersonalCodeFacts.
Import PersonalCode.

Variable random : nat -> Q.
Hypothesis random_range : forall k, 0 <= random k /\ random k < 1.

Lemma string_length_app (a b : string) :
  String.length (a ++ b) = (String.length a + String.length b)%nat.
Proof. induction a as [|c a IH]; [reflexivity|]. cbn. now rewrite IH. Qed.

Lemma list_of_string_app (a b : string) :
  list_ascii_of_string (a ++ b) = (list_ascii_of_string a ++ list_ascii_of_string b)%list.
Proof. induction a as [|c a IH]; [reflexivity|]. cbn. now rewrite IH. Qed.

Lemma get_in_range (s : string) : forall n, (n < String.length s)%nat ->
  exists c, String.get n s = Some c /\ In c (list_ascii_of_string s).
Proof.
  induction s as [|a s IH]; intros n Hn; [cbn in Hn; lia|].
  destruct n as [|n].
  - exists a. split; [reflexivity | now left].
  - destruct (IH n) as (c & E & Hc); [cbn in Hn; lia|].
    exists c. split; [exact E | now right].
Qed.

(** With a random number in [0, 1) the index is in range and [charAt] gives
    one character of the alphabet. *)
Lemma charAt_random (k : nat) :
  exists c,
    charAt caracteres
      (Qfloor (random k * inject_Z (Z.of_nat (String.length caracteres))))
    = String c EmptyString
    /\ In c (list_ascii_of_string caracteres).
Proof.
  destruct (random_range k) as (H0 & H1).
  set (L := String.length caracteres).
  assert (0 < inject_Z (Z.of_nat L)) as HL by (vm_compute; reflexivity).
  assert (0 <= Qfloor (random k * inject_Z (Z.of_nat L)))%Z as Hlo.
  { rewrite <- (Qfloor_Z 0). apply Qfloor_resp_le.
    change (inject_Z 0) with 0. apply Qmult_le_0_compat; lra. }
  assert (Qfloor (random k * inject_Z (Z.of_nat L)) < Z.of_nat L)%Z as Hhi.
  { pose proof (Qfloor_le (random k * inject_Z (Z.of_nat L))) as F.
    assert (random k * inject_Z (Z.of_nat L) < inject_Z (Z.of_nat L)) as U.
    { set (q := inject_Z (Z.of_nat L)) in *. nra. }
    rewrite Zlt_Qlt. lra. }
  unfold charAt.
  destruct (Z.ltb_spec (Qfloor (random k * inject_Z (Z.of_nat L))) 0) as [N|_]; [lia|].
  destruct (@get_in_range caracteres (Z.to_nat (Qfloor (random k * inject_Z (Z.of_nat L)))))
    as (c & E & Hc); [fold L; lia|].
  fold L in E |- *. rewrite E. exists c. split; [reflexivity | exact Hc].
Qed.

Lemma append_chars_spec n : forall codigo used,
  snd (append_chars random n codigo used) = (used + n)%nat
  /\ String.length (fst (append_chars random n codigo used))
     = (String.length codigo + n)%nat
  /\ ((forall c, In c (list_ascii_of_string codigo)
                 -> In c (list_ascii_of_string caracteres)) ->
      forall c, In c (list_ascii_of_string (fst (append_chars random n codigo used)))
                -> In c (list_ascii_of_string caracteres)).
Proof.
  induction n as [|n IH]; intros codigo used.
  - cbn. repeat split; try lia. auto.
  - cbn [append_chars]. destruct (charAt_random used) as (c & E & Hc).
    rewrite E. destruct (IH (codigo ++ String c EmptyString)%string (S used))
      as (I1 & I2 & I3).
    split; [rewrite I1; lia|]. split.
    + rewrite I2, string_length_app. cbn. lia.
    + intros Hall. apply I3. intros x Hx.
      rewrite list_of_string_app in Hx. apply in_app_or in Hx.
      destruct Hx as [Hx|Hx]; [now apply Hall|].
      cbn in Hx. destruct Hx as [Hx|[]]. now subst x.
Qed.

Lemma generarCodigoPersonal_spec used :
  snd (generarCodigoPersonal random used) = (used + 4)%nat
  /\ well_formed (fst (generarCodigoPersonal random used)).
Proof.
  unfold generarCodigoPersonal, well_formed.
  destruct (append_chars_spec 4 EmptyString used) as (H1 & H2 & H3).
  split; [exact H1|]. split; [exact H2|]. apply H3. intros c [].
Qed.

(** The loop from turn [i] with enough fuel: it ends, with the first free
    candidate among the turns up to 100, or with the error when there is
    none. *)
Lemma do_while_spec usuarios : forall fuel i,
  (i + fuel = 101)%nat -> (i <= 100)%nat ->
  exists r,
    do_while random fuel usuarios (Z.of_nat i) (4 * i) = Some r
    /\ match r with
       | inr codigo =>
           exists j, (i <= j < 100)%nat /\ codigo = candidate random j
             /\ verificarCodigoUnico usuarios codigo = true
             /\ forall j', (i <= j' < j)%nat ->
                  verificarCodigoUnico usuarios (candidate random j') = false
       | inl message =>
           message
           = "No se pudo generar un código único después de 100 intentos"%string
           /\ forall j', (i <= j' < 100)%nat ->
                verificarCodigoUnico usuarios (candidate random j') = false
       end.
Proof.
  induction fuel as [|fuel IH]; intros i Hi Hle.
  - lia.
  - cbn [do_while].
    destruct (generarCodigoPersonal random (4 * i)) as [codigo used] eqn:Eg.
    pose proof (generarCodigoPersonal_spec (4 * i)) as (Hu & _).
    rewrite Eg in Hu. cbn [snd] in Hu.
    assert (codigo = candidate random i) as Ec by (unfold candidate; now rewrite Eg).
    destruct (Z.ltb_spec 100 (Z.of_nat i + 1)) as [Hover|Hin].
    + eexists. split; [reflexivity|]. split; [reflexivity|]. intros j' Hj'. lia.
    + destruct (verificarCodigoUnico usuarios codigo) eqn:Ev; cbn [negb].
      * eexists. split; [reflexivity|]. exists i.
        split; [lia|]. split; [exact Ec|]. split; [exact Ev|].
        intros j' Hj'. lia.
      * replace (Z.of_nat i + 1)%Z with (Z.of_nat (S i)) by lia.
        replace used with (4 * S i)%nat by lia.
        destruct (IH (S i)) as (r & Er & Hr); [lia|lia|].
        exists r. split; [exact Er|].
        destruct r as [message|c].
        -- destruct Hr as (Hm & Hall). split; [exact Hm|].
           intros j' Hj'. destruct (Nat.eq_dec j' i) as [->|Hne];
             [now rewrite <- Ec | apply Hall; lia].
        -- destruct Hr as (j & Hj & Hc & Hv & Hall).
           exists j. split; [lia|]. split; [exact Hc|]. split; [exact Hv|].
           intros j' Hj'. destruct (Nat.eq_dec j' i) as [->|Hne];
             [now rewrite <- Ec | apply Hall; lia].
Qed.

(** X14.  With random numbers in [0, 1), [generarCodigoUnico] always ends.  A
    code it returns has four characters of the alphabet, is held by no user,
    and is the first free one among the first 100 candidates; the error is
    thrown exactly when the first 100 candidates are all held. *)
Theorem generarCodigoUnico_result (usuarios : list usuario) :
  exists r,
    generarCodigoUnico random usuarios = Some r
    /\ match r with
       | inr codigo =>
           well_formed codigo
           /\ verificarCodigoUnico usuarios codigo = true
           /\ exists j, (j < 100)%nat /\ codigo = candidate random j
                /\ forall j', (j' < j)%nat ->
                     verificarCodigoUnico usuarios (candidate random j') = false
       | inl message =>
           message
           = "No se pudo generar un código único después de 100 intentos"%string
           /\ forall j', (j' < 100)%nat ->
                verificarCodigoUnico usuarios (candidate random j') = false
       end.
Proof.
  destruct (@do_while_spec usuarios 101 0) as (r & Er & Hr); [reflexivity|lia|].
  exists r. split; [exact Er|].
  destruct r as [message|codigo].
  - destruct Hr as (Hm & Hall). split; [exact Hm|]. intros j' Hj'. apply Hall. lia.
  - destruct Hr as (j & Hj & Hc & Hv & Hall).
    split; [|split; [exact Hv|]].
    + subst codigo. unfold candidate. apply generarCodigoPersonal_spec.
    + exists j. split; [lia|]. split; [exact Hc|]. intros j' Hj'. apply Hall. lia.
Qed.

End PersonalCodeFacts.

(** Two users hold the first candidate of the generator that goes round the
    tenths; the second candidate is returned. *)
Lemma generarCodigoUnico_result_witness :
  PersonalCode.generarCodigoUnico PersonalCode.tenths
    [ {| PersonalCode.codigoPersonal := Some "AGNU"%string |};
      {| PersonalCode.codigoPersonal := None |} ]
  = Some (inr "bipw"%string)
  /\ PersonalCode.well_formed "bipw"%string.
Proof.
  destruct (@generarCodigoUnico_result PersonalCode.tenths)
    with (usuarios := [ {| PersonalCode.codigoPersonal := Some "AGNU"%string |};
                        {| PersonalCode.codigoPersonal := None |} ])
    as (r & Er & Hr).
  - intros k. unfold PersonalCode.tenths.
    pose proof (Nat.mod_upper_bound k 10 (ltac:(discriminate) : 10%nat <> 0%nat)) as Hk.
    assert (0 <= inject_Z (Z.of_nat (k mod 10))) as H0
      by (change 0 with (inject_Z 0); rewrite <- Zle_Qle; lia).
    assert (inject_Z (Z.of_nat (k mod 10)) < inject_Z 10) as H1
      by (rewrite <- Zlt_Qlt; lia).
    change (inject_Z 10) with 10 in H1.
    split; [apply Qle_shift_div_l; lra | apply Qlt_shift_div_r; lra].
  - assert (PersonalCode.generarCodigoUnico PersonalCode.tenths
              [ {| PersonalCode.codigoPersonal := Some "AGNU"%string |};
                {| PersonalCode.codigoPersonal := None |} ]
            = Some (inr "bipw"%string)) as E by (vm_compute; reflexivity).
    rewrite E in Er. inversion Er; subst r. split; [reflexivity | exact (proj1 Hr)].
Defined.

(** ** Decimal numerals *)

Section NumeralFacts.

Lemma int_of_string_of_Z (z : Z) :
  NilZero.int_of_string (string_of_Z z) = Some (Z.to_int z).
Proof.
  unfold string_of_Z. apply NilZero.isi;
    destruct z as [|p|p]; cbn; intros E; inversion E as [E'];
    exact (DecimalPos.Unsigned.to_uint_nonnil p E').
Qed.

Lemma string_of_Z_not_empty (z : Z) : string_of_Z z <> EmptyString.
Proof.
  intros E. pose proof (int_of_string_of_Z z) as H. rewrite E in H.
  cbn in H. discriminate H.
Qed.

End NumeralFacts.

(** ** Session tokens *)

Section AuthTokenFacts.
Import AuthToken.

Variable encode : payload -> option string.
Variable decode : string -> option payload.

(** What [atob] and [JSON.parse] undo: a token that [encode] made decodes
    to its payload, and is not the empty string. *)
Hypothesis decode_encode : forall p token, encode p = Some token -> decode token = Some p.
Hypothesis encode_not_empty : forall p, encode p <> Some EmptyString.

(** X15.  A token made at [issued] and kept in the storage authenticates at every
    time before [issued + 8 h] and at no time from then on; while it is valid
    [validateToken] gives back the payload of the user.  ([Date.now()] is not
    negative.) *)
Theorem token_valid_for_eight_hours (u : user) (issued now : Z) (token : string) :
  (0 <= issued)%Z ->
  generateToken encode u issued = Some token ->
  isAuthenticated decode (Some token) now = (now <? issued + 28800000)%Z
  /\ validateToken decode token now
     = if (now <? issued + 28800000)%Z
       then Some {| payload_id := id u; payload_email := email u; payload_rol := rol u;
                    exp := Some (issued + 28800000)%Z |}
       else None.
Proof.
  intros Hi Hg. unfold generateToken in Hg.
  assert (token <> EmptyString) as Hne.
  { intros E. subst token. exact (@encode_not_empty _ Hg). }
  apply decode_encode in Hg.
  assert (validateToken decode token now
          = if (now <? issued + 28800000)%Z
            then Some {| payload_id := id u; payload_email := email u;
                         payload_rol := rol u; exp := Some (issued + 28800000)%Z |}
            else None) as Hv.
  { unfold validateToken. rewrite Hg. cbn [exp].
    change tokenExpiry with 28800000%Z.
    destruct (Z.eqb_spec (issued + 28800000) 0) as [E|_]; [lia|]. reflexivity. }
  split; [|exact Hv].
  unfold isAuthenticated. destruct token as [|c token]; [contradiction|].
  rewrite Hv. destruct (now <? issued + 28800000)%Z; reflexivity.
Qed.

End AuthTokenFacts.

(** A token made at 1000 ms is valid one millisecond before 28801000 ms and
    not one millisecond later. *)
Lemma token_valid_for_eight_hours_witness :
  AuthToken.isAuthenticated AuthToken.sample_decode (Some "28801000"%string) 28800999
  = true
  /\ AuthToken.isAuthenticated AuthToken.sample_decode (Some "28801000"%string) 28801000
     = false.
Proof.
  assert (forall p token, AuthToken.sample_encode p = Some token ->
                          AuthToken.sample_decode token = Some p) as Hround.
  { intros [[i|] [m|] [r|] [e|]] token E; cbn in E; try discriminate E.
    destruct (Z.eqb_spec i 1) as [->|]; [|discriminate E].
    destruct (String.eqb_spec r "admin") as [->|]; [|discriminate E].
    cbn in E. injection E as <-. unfold AuthToken.sample_decode.
    rewrite int_of_string_of_Z, DecimalZ.of_to. reflexivity. }
  assert (forall p, AuthToken.sample_encode p <> Some EmptyString) as Hne.
  { intros [[i|] [m|] [r|] [e|]] E; cbn in E; try discriminate E.
    destruct ((i =? 1)%Z && String.eqb r "admin"); [|discriminate E].
    injection E as E. exact (@string_of_Z_not_empty e E). }
  split.
  - exact (proj1 (@token_valid_for_eight_hours AuthToken.sample_encode
                    AuthToken.sample_decode Hround Hne
                    {| AuthToken.id := Some 1%Z; AuthToken.email := None;
                       AuthToken.rol := Some "admin"%string |}
                    1000 28800999 "28801000" (ltac:(lia)) eq_refl)).
  - exact (proj1 (@token_valid_for_eight_hours AuthToken.sample_encode
                    AuthToken.sample_decode Hround Hne
                    {| AuthToken.id := Some 1%Z; AuthToken.email := None;
                       AuthToken.rol := Some "admin"%string |}
                    1000 28801000 "28801000" (ltac:(lia)) eq_refl)).
Defined.

(** ** Reminders *)

Section RemindersFacts.
Import Reminders.

Variable parseInt : string -> option Z.
Variable parseDate : string -> option Z.

(** [parseInt] reads the numeral that [toString] writes. *)
Hypothesis parseInt_toString : forall z, parseInt (string_of_Z z) = Some z.

Lemma truthy_numeral (z : Z) : truthy (Some (string_of_Z z)) = true.
Proof.
  pose proof (string_of_Z_not_empty z) as H.
  cbn. destruct (string_of_Z z); [contradiction | reflexivity].
Qed.

(** After a reminder at [last], the next reminders of a run are more than
    an hour after [last] and more than an hour apart. *)
Lemma admin_run_after (checks : list (list solicitud * Z)) : forall st last,
  getItem "last-admin-reminder" st = Some (string_of_Z last) ->
  hour_apart (last :: admin_run parseInt checks st).
Proof.
  induction checks as [|[solicitudes now] checks IH]; intros st last Hst.
  - exact I.
  - cbn [admin_run]. unfold checkAdminReminders. cbv zeta.
    destruct (0 <? _)%nat; [|cbn [map app]; now apply IH].
    rewrite Hst, truthy_numeral. cbn [negb orb hour_passed].
    rewrite parseInt_toString.
    destruct (Z.ltb_spec (60 * 60 * 1000) (now - last)) as [Hgt|_];
      [|cbn [map app]; now apply IH].
    cbn [map app]. split; [exact Hgt|].
    apply IH. unfold getItem, setItem. now rewrite String.eqb_refl.
Qed.

(** X16.  Whatever the storage holds at the start and whatever the checks find,
    two consecutive reminders for the administrator are more than an hour
    apart. *)
Theorem admin_reminders_an_hour_apart (checks : list (list solicitud * Z)) (st : storage) :
  hour_apart (admin_run parseInt checks st).
Proof.
  revert st. induction checks as [|[solicitudes now] checks IH]; intros st.
  - exact I.
  - cbn [admin_run]. unfold checkAdminReminders. cbv zeta.
    destruct (0 <? _)%nat; [|cbn [map app]; now apply IH].
    destruct (negb _ || _); [|cbn [map app]; now apply IH].
    cbn [map app]. apply admin_run_after.
    unfold getItem, setItem. now rewrite String.eqb_refl.
Qed.


Lemma string_of_Z_inj (a b : Z) : string_of_Z a = string_of_Z b -> a = b.
Proof.
  intros E. pose proof (int_of_string_of_Z a) as Ha. rewrite E, int_of_string_of_Z in Ha.
  injection Ha as Ha. symmetry. now apply DecimalZ.to_int_inj.
Qed.

Lemma marked_setItem st (i j : Z) :
  marked (setItem ("reminder-aprobada-" ++ string_of_Z j) "true" st) i
  = if (i =? j)%Z then true else marked st i.
Proof.
  unfold marked, getItem, setItem.
  destruct (Z.eqb_spec i j) as [->|Hne]; [now rewrite String.eqb_refl|].
  destruct (String.eqb_spec ("reminder-aprobada-" ++ string_of_Z i)
                            ("reminder-aprobada-" ++ string_of_Z j)) as [E|_];
    [|reflexivity].
  cbn in E. inversion E as [E']. apply string_of_Z_inj in E'. contradiction.
Qed.

(** The turns of [forEach]: the solicitudes announced were not marked before,
    are marked after, are announced once, and no mark is lost. *)
Lemma announce_all (l : list solicitud) : forall shown st shown' st',
  fold_left announce l (shown, st) = (shown', st') ->
  exists new,
    shown' = shown ++ new
    /\ NoDup (map (fun sn => id (fst sn)) new)
    /\ (forall i, In i (map (fun sn => id (fst sn)) new) ->
                  marked st i = false /\ marked st' i = true)
    /\ (forall i, marked st i = true -> marked st' i = true).
Proof.
  induction l as [|s l IH]; intros shown st shown' st' E.
  - cbn in E. inversion E; subst. exists []. rewrite app_nil_r.
    split; [reflexivity|]. split; [constructor|]. split; [intros i []|auto].
  - cbn [fold_left] in E. unfold announce at 2 in E.
    fold (marked st (id s)) in E. unfold reminderKey in E.
    change (truthy (getItem ("reminder-aprobada-" ++ string_of_Z (id s)) st))
      with (marked st (id s)) in E.
    destruct (marked st (id s)) eqn:Em; cbn [negb] in E.
    + destruct (IH _ _ _ _ E) as (new & Hs & Hnd & Hnew & Hmono).
      exists new. repeat split; try assumption; apply Hnew; assumption.
    + destruct (IH _ _ _ _ E) as (new & Hs & Hnd & Hnew & Hmono).
      eexists (_ :: new). split; [rewrite Hs, <- app_assoc; reflexivity|].
      cbn [map fst id].
      assert (marked st' (id s) = true) as Hs'.
      { apply Hmono. rewrite marked_setItem, Z.eqb_refl. reflexivity. }
      split; [|split].
      * constructor; [|exact Hnd]. intros Hin.
        destruct (Hnew _ Hin) as (Hf & _).
        rewrite marked_setItem, Z.eqb_refl in Hf. discriminate Hf.
      * intros i [<-|Hin]; [split; assumption|].
        destruct (Hnew _ Hin) as (Hf & Ht). split; [|exact Ht].
        rewrite marked_setItem in Hf. destruct (i =? id s)%Z; [discriminate Hf|exact Hf].
      * intros i Hi. apply Hmono. rewrite marked_setItem, Hi.
        destruct (i =? id s)%Z; reflexivity.
Qed.

Lemma user_run_fresh user_id (checks : list (list solicitud * Z)) : forall st,
  NoDup (user_run parseDate user_id checks st)
  /\ forall i, In i (user_run parseDate user_id checks st) -> marked st i = false.
Proof.
  induction checks as [|[solicitudes now] checks IH]; intros st.
  - split; [constructor | intros i []].
  - cbn [user_run]. unfold checkUserReminders. cbv zeta.
    destruct (fold_left announce _ _) as [shown st'] eqn:E.
    apply announce_all in E. destruct E as (new & Hs & Hnd & Hnew & Hmono).
    cbn [app] in Hs. subst shown.
    destruct (IH st') as (Hnd' & Hfresh').
    split.
    + apply NoDup_app; [exact Hnd | exact Hnd' |].
      intros i Hin Hin'. destruct (Hnew _ Hin) as (_ & Ht).
      rewrite (Hfresh' _ Hin') in Ht. discriminate Ht.
    + intros i Hin. apply in_app_or in Hin. destruct Hin as [Hin|Hin].
      * exact (proj1 (Hnew _ Hin)).
      * specialize (Hfresh' _ Hin). destruct (marked st i) eqn:Em; [|reflexivity].
        rewrite (Hmono _ Em) in Hfresh'. discriminate Hfresh'.
Qed.

(** X17.  Whatever the checks find and whenever they run, the approval of a
    solicitud is announced to its user at most once, and never when the
    storage held its mark from the start. *)
Theorem approval_announced_once (user_id : option Z) (checks : list (list solicitud * Z))
    (st : storage) :
  NoDup (user_run parseDate user_id checks st)
  /\ Forall (fun i => marked st i = false) (user_run parseDate user_id checks st).
Proof.
  destruct (user_run_fresh user_id checks st) as (Hnd & Hfresh).
  split; [exact Hnd|]. apply Forall_forall. exact Hfresh.
Qed.

End RemindersFacts.

(** Checks at 0 h, 0.5 h, 1.5 h and 2 h with one pending solicitud: the
    reminders come at 0 h and at 1.5 h. *)
Lemma admin_reminders_an_hour_apart_witness :
  Reminders.admin_run Reminders.parse_decimal
    [([Reminders.pending 1], 0%Z); ([Reminders.pending 1], 1800000%Z);
     ([Reminders.pending 1], 5400000%Z); ([Reminders.pending 1], 7200000%Z)]
    Reminders.empty_storage = [0%Z; 5400000%Z]
  /\ Reminders.hour_apart [0%Z; 5400000%Z].
Proof.
  split; [vm_compute; reflexivity|].
  assert (forall z, Reminders.parse_decimal (string_of_Z z) = Some z) as Hparse.
  { intros z. unfold Reminders.parse_decimal.
    rewrite int_of_string_of_Z. cbn. now rewrite DecimalZ.of_to. }
  exact (@admin_reminders_an_hour_apart Reminders.parse_decimal Hparse
           [([Reminders.pending 1], 0%Z); ([Reminders.pending 1], 1800000%Z);
            ([Reminders.pending 1], 5400000%Z); ([Reminders.pending 1], 7200000%Z)]
           Reminders.empty_storage).
Defined.

(** ** Templates of requests *)

Section TemplateStoreFacts.
Import TemplateStore.

Variable stringify : list template -> string.
Variable parse : string -> option (list template).

Lemma getAll_written (l : list template) :
  parse (stringify l) = Some l -> stringify l <> EmptyString ->
  getAll parse (Some (stringify l)) = Some l.
Proof.
  intros Hp Hne. unfold getAll. destruct (stringify l); [contradiction | exact Hp].
Qed.

(** X18.  A template that is saved is the last of the stored templates.  Its
    [id] is the time of the call: looking the [id] up finds the new template
    when no stored template has that [id], and the older template when one
    has.  (The text written is one that [JSON.parse] reads back.) *)
Theorem saved_template_lookup (name_ : string) (form : formData) (now : Z)
    (created updated : string) (stored : option string) (l : list template) :
  let t := {| id := now; name := name_; tipo := form_tipo form; data := form;
              fechaCreacion := created; fechaActualizacion := updated |} in
  getAll parse stored = Some l ->
  parse (stringify (l ++ [t])) = Some (l ++ [t]) ->
  stringify (l ++ [t]) <> EmptyString ->
  exists stored',
    saveTemplate stringify parse name_ form now created updated stored = Some (t, stored')
    /\ getAll parse stored' = Some (l ++ [t])
    /\ exists found message,
         applyTemplateById parse now stored' = Some (Some (found, message))
         /\ found = match find (fun x => (id x =? now)%Z) l with
                    | Some older => older
                    | None => t
                    end.
Proof.
  intros t Hl Hp Hne. unfold saveTemplate. rewrite Hl. fold t.
  eexists. split; [reflexivity|].
  pose proof (getAll_written Hp Hne) as Hg. split; [exact Hg|].
  unfold applyTemplateById. rewrite Hg.
  assert (find (fun x => (id x =? now)%Z) (l ++ [t])
          = Some match find (fun x => (id x =? now)%Z) l with
                 | Some older => older
                 | None => t
                 end) as Hf.
  { clear. induction l as [|a l IH].
    - cbn. now rewrite Z.eqb_refl.
    - cbn [app find]. destruct (id a =? now)%Z; [reflexivity | exact IH]. }
  rewrite Hf. eexists; eexists. split; reflexivity.
Qed.

(** X19.  A confirmed [deleteTemplate] removes every template with the given [id]
    and keeps the others in their order: the [id] is then not found and one
    notification is shown; a declined one changes nothing and shows nothing.
    (The text written is one that [JSON.parse] reads back.) *)
Theorem deleted_template_gone (id_ : Z) (stored : option string) (l : list template) :
  getAll parse stored = Some l ->
  parse (stringify (filter (fun t => negb (id t =? id_)%Z) l))
  = Some (filter (fun t => negb (id t =? id_)%Z) l) ->
  stringify (filter (fun t => negb (id t =? id_)%Z) l) <> EmptyString ->
  exists stored',
    deleteTemplate stringify parse id_ true stored
    = Some (stored', ["Plantilla eliminada"%string])
    /\ getAll parse stored' = Some (filter (fun t => negb (id t =? id_)%Z) l)
    /\ applyTemplateById parse id_ stored' = Some None
    /\ deleteTemplate stringify parse id_ false stored = Some (stored, []).
Proof.
  intros Hl Hp Hne. unfold deleteTemplate. cbn [negb]. rewrite Hl.
  eexists. split; [reflexivity|].
  pose proof (getAll_written Hp Hne) as Hg. split; [exact Hg|]. split; [|reflexivity].
  unfold applyTemplateById. rewrite Hg.
  assert (find (fun t => (id t =? id_)%Z) (filter (fun t => negb (id t =? id_)%Z) l)
          = None) as Hf.
  { clear. induction l as [|a l IH]; [reflexivity|].
    cbn [filter]. destruct (id a =? id_)%Z eqn:E; cbn [negb]; [exact IH|].
    cbn [find]. rewrite E. exact IH. }
  rewrite Hf. reflexivity.
Qed.

End TemplateStoreFacts.

(** Two templates made in the same millisecond: the second is stored, and
    the look-up of its [id] finds the first. *)
Lemma saved_template_lookup_witness :
  exists stored' found message,
    TemplateStore.saveTemplate TemplateStore.sample_stringify TemplateStore.sample_parse
      "Vacaciones de verano" (TemplateStore.data TemplateStore.sample_template)
      1700000000000 "2023-11-14T22:13:20.000Z" "2023-11-14T22:13:20.000Z" (Some "1"%string)
    = Some (TemplateStore.sample_template, stored')
    /\ TemplateStore.applyTemplateById TemplateStore.sample_parse 1700000000000 stored'
       = Some (Some (found, message))
    /\ found = TemplateStore.sample_template.
Proof.
  edestruct (@saved_template_lookup TemplateStore.sample_stringify
               TemplateStore.sample_parse "Vacaciones de verano"
               (TemplateStore.data TemplateStore.sample_template)
               1700000000000 "2023-11-14T22:13:20.000Z" "2023-11-14T22:13:20.000Z"
               (Some "1"%string) [TemplateStore.sample_template])
    as (stored' & Hs & _ & found & message & Ha & Hf).
  - reflexivity.
  - reflexivity.
  - discriminate.
  - exists stored', found, message. split; [exact Hs|]. split; [exact Ha | exact Hf].
Defined.

Lemma deleted_template_gone_witness :
  exists stored',
    TemplateStore.deleteTemplate TemplateStore.sample_stringify TemplateStore.sample_parse
      1700000000000 true (Some "2"%string)
    = Some (stored', ["Plantilla eliminada"%string])
    /\ TemplateStore.getAll TemplateStore.sample_parse stored' = Some [].
Proof.
  edestruct (@deleted_template_gone TemplateStore.sample_stringify
               TemplateStore.sample_parse 1700000000000 (Some "2"%string)
               [TemplateStore.sample_template; TemplateStore.sample_template])
    as (stored' & Hd & Hg & _).
  - reflexivity.
  - reflexivity.
  - discriminate.
  - exists stored'. split; [exact Hd | exact Hg].
Defined.

(** ** Codes of the comunicados *)

Section ComunicadoCodeFacts.
Import ComunicadoCode.

Variable codigosComunicados : list (string * config).
Variable mapeoDepartamentos : list (string * string).

Lemma to_uint_not_nil (k : nat) : Nat.to_uint k <> Decimal.Nil.
Proof.
  intros E. pose proof (DecimalNat.Unsigned.of_to k) as H. rewrite E in H.
  cbn in H. subst k. discriminate E.
Qed.

Lemma uint_of_zeros (j : nat) (s : string) (d : Decimal.uint) :
  NilEmpty.uint_of_string s = Some d ->
  exists d', NilEmpty.uint_of_string (zeros j ++ s) = Some d'
             /\ Nat.of_uint d' = Nat.of_uint d.
Proof.
  intros Hs. induction j as [|j (d' & E & Hd)].
  - exists d. split; [exact Hs | reflexivity].
  - exists (Decimal.D0 d'). cbn [zeros String.append NilEmpty.uint_of_string].
    rewrite E. split; [reflexivity|]. rewrite <- Hd. reflexivity.
Qed.

(** The number can be read back from its padded numeral. *)
Lemma padStart3_numeral (k : nat) :
  option_map Nat.of_uint (NilEmpty.uint_of_string (padStart3 (numeral k))) = Some k.
Proof.
  unfold padStart3.
  assert (NilEmpty.uint_of_string (numeral k) = Some (Nat.to_uint k)) as Hs.
  { pose proof (NilZero.usu (Nat.to_uint k) (to_uint_not_nil k)) as H.
    unfold numeral. unfold NilZero.uint_of_string in H.
    destruct (NilZero.string_of_uint (Nat.to_uint k)); [discriminate H | exact H]. }
  destruct (uint_of_zeros (3 - String.length (numeral k)) _ Hs) as (d' & E & Hd).
  rewrite E. cbn [option_map]. now rewrite Hd, DecimalNat.Unsigned.of_to.
Qed.

Lemma padStart3_inj (a b : nat) :
  padStart3 (numeral a) = padStart3 (numeral b) -> a = b.
Proof.
  intros E. pose proof (padStart3_numeral a) as Ha. rewrite E, padStart3_numeral in Ha.
  now injection Ha.
Qed.

Lemma append_inj_l (p a b : string) : (p ++ a)%string = (p ++ b)%string -> a = b.
Proof.
  induction p as [|c p IH]; cbn; intros E; [exact E|]. injection E as E. now apply IH.
Qed.

Lemma prefix_append (p s : string) : String.prefix p (p ++ s) = true.
Proof.
  induction p as [|c p IH]; [destruct s; reflexivity|].
  cbn. destruct (Ascii.ascii_dec c c) as [_|N]; [exact IH | contradiction].
Qed.

(** X20.  With a configuration for the department and a subcódigo for the
    category, the code is the code base, the subcódigo and the number that
    follows the count of stored codes that start with the two; when those
    stored codes are numbered by numbers up to their count, as they are when
    every one of them came from this function and none was deleted, no
    stored comunicado has the new code. *)
Theorem generated_code_is_new (departamento categoria tipo : string)
    (subcategoria : option string) (year : Z) (ofDepartamento all : list comunicado)
    (cfg : config) (subcodigo : string) :
  getCodigoConfig codigosComunicados mapeoDepartamentos departamento = Some cfg ->
  subcodigo_for codigosComunicados mapeoDepartamentos cfg departamento categoria tipo
    subcategoria = inr subcodigo ->
  numbered_up_to_count (codigoBase cfg ++ "-" ++ subcodigo) all ->
  exists code,
    generateComunicadoCode codigosComunicados mapeoDepartamentos departamento categoria
      tipo subcategoria year ofDepartamento all = inr code
    /\ code = ((codigoBase cfg ++ "-" ++ subcodigo) ++ "-"
               ++ padStart3 (numeral
                    (List.length
                       (filter (matches_base (codigoBase cfg ++ "-" ++ subcodigo)) all)
                     + 1)))%string
    /\ ~ In (Some code) (map codigo all).
Proof.
  intros Hc Hs Hnum. unfold generateComunicadoCode. rewrite Hc, Hs. cbv zeta.
  set (base := (codigoBase cfg ++ "-" ++ subcodigo)%string) in *.
  set (n := List.length (filter (matches_base base) all)) in *.
  eexists. split; [reflexivity|]. split.
  - reflexivity.
  - intros Hin. apply in_map_iff in Hin. destruct Hin as (c & Hcode & Hc_in).
    assert (In c (filter (matches_base base) all)) as Hm.
    { apply filter_In. split; [exact Hc_in|]. unfold matches_base. rewrite Hcode.
      rewrite prefix_append. destruct base; reflexivity. }
    destruct (Hnum c Hm) as (k & Hk & Hck). fold n in Hk.
    rewrite Hcode in Hck. injection Hck as Hck.
    apply append_inj_l in Hck. apply (append_inj_l "-") in Hck.
    apply padStart3_inj in Hck. lia.
Qed.

End ComunicadoCodeFacts.

(** The third memorando of the general management, after two internal ones
    and an external one. *)
Lemma generated_code_is_new_witness :
  ComunicadoCode.generateComunicadoCode ComunicadoCode.gerencia ComunicadoCode.mapeo
    "GG" "memorando" "interno" None 2025 [] ComunicadoCode.two_memos
  = inr "DG-100-2.1-003"%string
  /\ ~ In (Some "DG-100-2.1-003"%string)
          (map ComunicadoCode.codigo ComunicadoCode.two_memos).
Proof.
  edestruct (@generated_code_is_new ComunicadoCode.gerencia ComunicadoCode.mapeo
               "GG" "memorando" "interno" None 2025 [] ComunicadoCode.two_memos)
    as (code & Hg & Hcode & Hnew).
  - reflexivity.
  - reflexivity.
  - intros c Hc. cbn in Hc. destruct Hc as [<-|[<-|[]]].
    + exists 2%nat. split; [cbn; lia | reflexivity].
    + exists 1%nat. split; [cbn; lia | reflexivity].
  - rewrite Hcode in Hg, Hnew. split; [exact Hg | exact Hnew].
Defined.

(** ** The search of the batch caller *)

Section BatchSearchFacts.
Import Batch BatchSearch.

Variables pageWidth pageHeight : Q.
Variable splitTextToSize : string -> Z -> option string -> Q -> list string.
Variables toUpperCase toLowerCase : string -> string.
Variable today : string.

Lemma search_matches_exception search c e :
  search_matches toLowerCase search c = inl e -> e = cannot_read "toLowerCase".
Proof.
  unfold search_matches.
  destruct (titulo c); [|intros E; now inversion E].
  destruct (includes _ _); [discriminate|].
  destruct (contenido c); [|intros E; now inversion E].
  destruct (includes _ _); [discriminate|].
  destruct (codigo c); [discriminate | intros E; now inversion E].
Qed.

Lemma filter_throwing_throws f (E : exn) :
  (forall c e, f c = inl e -> e = E) ->
  forall l c e, In c l -> f c = inl e -> filter_throwing f l = inl E.
Proof.
  intros Hsame. induction l as [|a l IH]; intros c e Hin Hc; [destruct Hin|].
  cbn [filter_throwing]. destruct (f a) as [ea|keep] eqn:Ea.
  - now rewrite (Hsame _ _ Ea).
  - destruct Hin as [->|Hin]; [rewrite Hc in Ea; discriminate Ea|].
    now rewrite (IH c e Hin Hc).
Qed.

(** X21.  With a search text, a stored comunicado without [titulo] that the
    session may see and the filters accept makes the caller throw a
    [TypeError] before anything is exported: no file is saved and no
    notification is shown, whatever the other comunicados are. *)
Theorem search_without_titulo_throws (s : session) (loaded : bool)
    (stored : list comunicado) (log : list event) (c : comunicado) :
  truthy (toLowerCase (search_comunicados s)) = true ->
  In c stored -> passes_filters s c = true -> titulo c = None ->
  App_exportComunicadosPDF pageWidth pageHeight splitTextToSize toUpperCase toLowerCase
    today s loaded stored log
  = (log, inl (cannot_read "toLowerCase")).
Proof.
  intros Hsearch Hin Hpass Htitulo.
  unfold App_exportComunicadosPDF. cbv zeta. rewrite Hsearch.
  rewrite (filter_optional (negb (isAdmin s))).
  rewrite (filter_optional (truthy (filter_departamento s))).
  rewrite (filter_optional (truthy (filter_tipo s))).
  rewrite !filter_filter.
  unfold bind at 1.
  erewrite filter_throwing_throws with (c := c).
  - reflexivity.
  - intros c' e. apply search_matches_exception.
  - apply filter_In. split; [exact Hin|].
    rewrite andb_assoc. exact Hpass.
  - unfold search_matches. rewrite Htitulo. reflexivity.
Qed.

End BatchSearchFacts.

(** A search for "aviso" in a store that holds a comunicado made with the
    form. *)
Lemma search_without_titulo_throws_witness :
  Batch.App_exportComunicadosPDF 210 297 BatchSpec.one_line BatchSpec.same BatchSpec.same
    "1/1/2026" (BatchSearch.searching "aviso") true
    [BatchSpec.record "A-1" (Some "interno"%string); BatchSearch.from_the_form] []
  = ([], inl (Batch.cannot_read "toLowerCase")).
Proof.
  apply (@search_without_titulo_throws 210 297 BatchSpec.one_line BatchSpec.same
           BatchSpec.same "1/1/2026" (BatchSearch.searching "aviso") true
           [BatchSpec.record "A-1" (Some "interno"%string); BatchSearch.from_the_form] []
           BatchSearch.from_the_form).
  - reflexivity.
  - right. left. reflexivity.
  - reflexivity.
  - reflexivity.
Defined.
